(** * MetaHuman OSC streamer: scheduler, channel transform and command parser

    A shallow embedding of the streaming engine of the repository
    ([mh_streamer_gui.py], [v3/mh_streamer_v3.py], [v2/mh_streamer_v2.py])
    together with the properties its specification states about it.

    Conventions of the embedding.
    - Python [float] values are represented by exact rationals [Q]: every
      arithmetic expression of the source is kept operation for operation,
      and rounding is not represented, except where a product is truncated
      to a number of frames ([int(seconds * fps)]): there the product is
      rounded to the nearest float first, as the rounding decides the
      number.
    - A [tkinter] variable ([StringVar]) is represented by the result of the
      conversion the code applies to its text ([int(...)], [float(...)]):
      [None] stands for a text on which the conversion raises [ValueError].
    - [send_message] is the only transport primitive; every invocation is
      recorded in an ordered trace, with its outcome (returned or raised).
    - [root.after(0, f)] hands [f] to the GUI thread: the worker only records
      the request; the GUI thread runs it later. *)

From stdpp Require Import gmap strings list.
From Stdlib Require Import Ascii QArith Lqa ZArith.

Local Open Scope Q_scope.

(** ** Values that travel in an OSC message *)

Inductive osc_arg : Type :=
  | OFloat (x : Q)
  | OInt (n : Z)
  | OStr (s : string).

(** A [SimpleUDPClient]: [send_ok addr arg] tells whether
    [send_message(addr, arg)] returns ([true]) or raises ([false]). *)
Record SimpleUDPClient : Type := mkClient {
  send_ok : string -> osc_arg -> bool
}.

(** Python's [max(a, b)] and [min(a, b)] on two numbers: the first argument
    is kept unless the second is strictly better. *)
Definition py_max (a b : Q) : Q := if Qlt_le_dec a b then b else a.
Definition py_min (a b : Q) : Q := if Qlt_le_dec b a then b else a.

(** [int(x)] on a float: truncation toward zero. *)
Definition py_int (x : Q) : Z := Z.quot (Qnum x) (Zpos (Qden x)).

(** ** Rounding to a float (IEEE 754 binary64, nearest, ties to even) *)

Module float.

(** [x * 2 ^ k]. *)
Definition shift (x : Q) (k : Z) : Q :=
  if (0 <=? k)%Z then (Qnum x * 2 ^ k # Qden x)
  else (Qnum x # Qden x * Z.to_pos (2 ^ (- k))).

(** [|x|]. *)
Definition abs (x : Q) : Q := Z.abs (Qnum x) # Qden x.

(** The exponent of [x <> 0]: the [e] with [2 ^ e <= |x| < 2 ^ (e + 1)]. *)
Definition exponent (x : Q) : Z :=
  let e := (Z.log2 (Z.abs (Qnum x)) - Z.log2 (Zpos (Qden x)))%Z in
  if Qlt_le_dec (shift (abs x) (- e)) 1 then (e - 1)%Z else e.

(** The integer nearest to [x], the even one of two that are equally
    near. *)
Definition nearest_even (x : Q) : Z :=
  let below := (Qnum x / Zpos (Qden x))%Z in
  match (2 * (Qnum x mod Zpos (Qden x)) ?= Zpos (Qden x))%Z with
  | Lt => below
  | Gt => (below + 1)%Z
  | Eq => if Z.even below then below else (below + 1)%Z
  end.

(** The float nearest to [x]: 53 significant bits, exponents from -1022
    (below that the spacing stays [2 ^ -1074]); [None] where the result is
    infinite. *)
Definition round (x : Q) : option Q :=
  if Qeq_bool x 0 then Some 0
  else
    let e := Z.max (exponent x) (-1022) in
    let y := shift (inject_Z (nearest_even (shift x (52 - e)))) (e - 52) in
    if Qle_bool (shift 1 1024) (abs y) then None else Some y.

End float.

(** [x * n] for a float [x] and an int [n]: the int is converted to a
    float and the product is rounded.  [None] where the conversion raises
    [OverflowError] or the product is infinite. *)
Definition float_times_int (x : Q) (n : Z) : option Q :=
  y ← float.round (inject_Z n); float.round (x * y).

(** [int(seconds * fps)]; [None] where it raises [OverflowError] (the int
    is too large for a float, or the product is infinite). *)
Definition count_frames (seconds : Q) (fps : Z) : option Z :=
  py_int <$> float_times_int seconds fps.

(** ** The part of numpy the code relies on *)

Module np.

(** [np.linspace(start, stop, num)]: [num] evenly spaced samples
    [i * step + start], the last one being [stop] itself; a single sample is
    [start]; a negative [num] raises [ValueError] ([None]). *)
Definition linspace (start stop : Q) (num : Z) : option (list Q) :=
  if (num <? 0)%Z then None
  else if (num =? 0)%Z then Some []
  else if (num =? 1)%Z then Some [start]
  else
    let step := (stop - start) / inject_Z (num - 1) in
    Some (map (fun i : nat => inject_Z (Z.of_nat i) * step + start)
              (seq 0 (Z.to_nat (num - 1))) ++ [stop]).

(** Elementwise binary operation on two one-dimensional arrays with numpy's
    broadcasting: equal lengths pair up, a length-one array is stretched,
    anything else raises [ValueError] ([None]). *)
Definition broadcast (f : Q -> Q -> Q) (a b : list Q) : option (list Q) :=
  if (length a =? length b)%nat then Some (zip_with f a b)
  else match a, b with
       | [x], _ => Some (map (f x) b)
       | _, [y] => Some (map (fun x => f x y) a)
       | _, _ => None
       end.

(** [a[-1]]: the last element, [IndexError] ([None]) on an empty array. *)
Definition last_item (a : list Q) : option Q := last a.

End np.


(** ** [mh_streamer_gui.py]: the ramp and heartbeat scheduler *)

Module Gui.

(** The [COMMANDS] table: the values carried by the command queue. *)
Module COMMANDS.
Inductive t : Type :=
  | START_HEARTBEAT | TURN_RIGHT | TURN_LEFT | BASELINE | STOP_ALL | QUIT.

#[global] Instance eq_dec : EqDecision t.
Proof. solve_decision. Defined.
End COMMANDS.

(** The [MODES] table: the values [current_mode] takes. *)
Module MODES.
Inductive t : Type :=
  | IDLE | HEARTBEAT | TURNING_RIGHT | TURNING_LEFT | BASELINE | STOPPED.

#[global] Instance eq_dec : EqDecision t.
Proof. solve_decision. Defined.
End MODES.

(** One entry of [self.channels] as [load_config] builds it. *)
Record Channel : Type := mkChannel {
  address : string;
  amp_right : Q;
  amp_left : Q
}.

(** The argument of [start_ramp]; anything that is neither ['right'] nor
    ['left'] takes the baseline branch. *)
Inductive Direction : Type := right | left | baseline.

(** What the worker hands to the GUI thread through [root.after(0, ...)]. *)
Inductive GuiCallback : Type :=
  | update_status (status : MODES.t)
  | log_message (message : string)
  | update_connection_status (status color : string)
  | update_osc_stats
  | command_queue_put (command : COMMANDS.t).

(** The ordered trace of what the worker does to the outside. *)
Inductive Event : Type :=
  | Sent (addr : string) (arg : osc_arg)
  | SendRaised (addr : string) (arg : osc_arg)
  | After (cb : GuiCallback)
  | Log (message : string)
  | Sleep (seconds : Q).

(** The entry fields the worker reads, already converted. *)
Record Settings : Type := mkSettings {
  ip_var : string;
  port_var : option Z;
  fps_var : option Z;
  duration_var : option Q;
  hold_var : option Q
}.

Record State : Type := mkState {
  settings : Settings;
  osc_client : option SimpleUDPClient;
  running : bool;
  command_queue : list COMMANDS.t;
  current_mode : MODES.t;
  channels : list Channel;
  ramp_data : option (list (list Q));
  ramp_frame : nat;
  hold_frames : Z;
  hold_frame : nat;
  connection_active : bool;
  last_send_time : Q;
  osc_send_count : nat;
  osc_error_count : nat
}.

(** [connection_timeout = 2.0] seconds. *)
Definition connection_timeout : Q := 2.

(** What an iteration obtains from outside the program: the clock and the
    outcome of constructing a [SimpleUDPClient]. *)
Record Env : Type := mkEnv {
  time : Q;
  new_client : string -> Z -> option SimpleUDPClient
}.

Definition set_osc_client (v : option SimpleUDPClient) (s : State) : State :=
  mkState (settings s) v (running s) (command_queue s) (current_mode s)
    (channels s) (ramp_data s) (ramp_frame s) (hold_frames s) (hold_frame s)
    (connection_active s) (last_send_time s) (osc_send_count s)
    (osc_error_count s).

Definition set_running (v : bool) (s : State) : State :=
  mkState (settings s) (osc_client s) v (command_queue s) (current_mode s)
    (channels s) (ramp_data s) (ramp_frame s) (hold_frames s) (hold_frame s)
    (connection_active s) (last_send_time s) (osc_send_count s)
    (osc_error_count s).

Definition set_command_queue (v : list COMMANDS.t) (s : State) : State :=
  mkState (settings s) (osc_client s) (running s) v (current_mode s)
    (channels s) (ramp_data s) (ramp_frame s) (hold_frames s) (hold_frame s)
    (connection_active s) (last_send_time s) (osc_send_count s)
    (osc_error_count s).

Definition set_current_mode (v : MODES.t) (s : State) : State :=
  mkState (settings s) (osc_client s) (running s) (command_queue s) v
    (channels s) (ramp_data s) (ramp_frame s) (hold_frames s) (hold_frame s)
    (connection_active s) (last_send_time s) (osc_send_count s)
    (osc_error_count s).

Definition set_ramp_data (v : option (list (list Q))) (s : State) : State :=
  mkState (settings s) (osc_client s) (running s) (command_queue s)
    (current_mode s) (channels s) v (ramp_frame s) (hold_frames s)
    (hold_frame s) (connection_active s) (last_send_time s)
    (osc_send_count s) (osc_error_count s).

Definition set_ramp_frame (v : nat) (s : State) : State :=
  mkState (settings s) (osc_client s) (running s) (command_queue s)
    (current_mode s) (channels s) (ramp_data s) v (hold_frames s)
    (hold_frame s) (connection_active s) (last_send_time s)
    (osc_send_count s) (osc_error_count s).

Definition set_hold_frames (v : Z) (s : State) : State :=
  mkState (settings s) (osc_client s) (running s) (command_queue s)
    (current_mode s) (channels s) (ramp_data s) (ramp_frame s) v
    (hold_frame s) (connection_active s) (last_send_time s)
    (osc_send_count s) (osc_error_count s).

Definition set_hold_frame (v : nat) (s : State) : State :=
  mkState (settings s) (osc_client s) (running s) (command_queue s)
    (current_mode s) (channels s) (ramp_data s) (ramp_frame s)
    (hold_frames s) v (connection_active s) (last_send_time s)
    (osc_send_count s) (osc_error_count s).

Definition set_connection_active (v : bool) (s : State) : State :=
  mkState (settings s) (osc_client s) (running s) (command_queue s)
    (current_mode s) (channels s) (ramp_data s) (ramp_frame s)
    (hold_frames s) (hold_frame s) v (last_send_time s) (osc_send_count s)
    (osc_error_count s).

Definition set_last_send_time (v : Q) (s : State) : State :=
  mkState (settings s) (osc_client s) (running s) (command_queue s)
    (current_mode s) (channels s) (ramp_data s) (ramp_frame s)
    (hold_frames s) (hold_frame s) (connection_active s) v
    (osc_send_count s) (osc_error_count s).

Definition set_osc_send_count (v : nat) (s : State) : State :=
  mkState (settings s) (osc_client s) (running s) (command_queue s)
    (current_mode s) (channels s) (ramp_data s) (ramp_frame s)
    (hold_frames s) (hold_frame s) (connection_active s) (last_send_time s)
    v (osc_error_count s).

Definition set_osc_error_count (v : nat) (s : State) : State :=
  mkState (settings s) (osc_client s) (running s) (command_queue s)
    (current_mode s) (channels s) (ramp_data s) (ramp_frame s)
    (hold_frames s) (hold_frame s) (connection_active s) (last_send_time s)
    (osc_send_count s) v.

(** [build_envelope]: the cubic ease-in-out [3t² - 2t³] over
    [np.linspace(0, 1, n_frames)]. *)
Definition build_envelope (n_frames : Z) : option (list Q) :=
  t ← np.linspace 0 1 n_frames;
  Some (map (fun t => 3 * t ^ 2 - 2 * t ^ 3) t).

(** The body shared by the three [for channel in self.channels] loops: each
    item is an address with the value looked up for it ([None] when the
    lookup raises [IndexError], which leaves the loop); a send that raises
    is counted and answered with [on_error].  The result is the trace, the
    successes, the errors and whether the loop was left by an exception. *)
Fixpoint send_loop (client : SimpleUDPClient) (on_error : list Event)
    (items : list (string * option Q)) : list Event * nat * nat * bool :=
  match items with
  | [] => ([], 0%nat, 0%nat, false)
  | (_, None) :: _ => ([], 0%nat, 0%nat, true)
  | (addr, Some value) :: rest =>
      let '(evs, ok, err, exc) := send_loop client on_error rest in
      if send_ok client addr (OFloat value)
      then (Sent addr (OFloat value) :: evs, S ok, err, exc)
      else (SendRaised addr (OFloat value) :: on_error ++ evs, ok, S err, exc)
  end.

(** The tail shared by the senders: [if success_count > 0: ...]. *)
Definition note_success (env : Env) (ok : nat) (s : State)
    : State * list Event :=
  if (0 <? ok)%nat
  then (set_last_send_time (time env)
          (set_osc_send_count (osc_send_count s + ok) s),
        [After update_osc_stats])
  else (s, []).

Definition send_heartbeat (env : Env) (s : State) : State * list Event :=
  match osc_client s, channels s with
  | None, _ | _, [] => (s, [])
  | Some client, chs =>
      let '(evs, ok, err, _) :=
        send_loop client [After (log_message "OSC send error")]
          (map (fun channel => (address channel, Some 0)) chs) in
      let s1 := set_osc_error_count (osc_error_count s + err) s in
      let '(s2, evs2) := note_success env ok s1 in
      (s2, evs ++ evs2)
  end.

Definition amplitude (direction : Direction) (channel : Channel) : Q :=
  match direction with
  | right => amp_right channel
  | left => amp_left channel
  | baseline => 0
  end.

Definition start_ramp (direction : Direction) (s : State)
    : State * list Event :=
  match osc_client s, channels s with
  | None, _ | _, [] => (s, [])
  | Some _, chs =>
      match duration_var (settings s), fps_var (settings s),
            hold_var (settings s) with
      | Some duration, Some fps, Some hold =>
          match count_frames duration fps, count_frames hold fps with
          | Some ramp_frames, Some hold_frames =>
              match build_envelope ramp_frames with
              | Some envelope =>
                  let data :=
                    map (fun channel =>
                           map (fun e => amplitude direction channel * e)
                               envelope)
                        chs in
                  (set_hold_frame 0 (set_hold_frames hold_frames
                     (set_ramp_frame 0 (set_ramp_data (Some data) s))), [])
              | None =>
                  (set_ramp_data (Some []) s,
                   [After (log_message "Error starting ramp")])
              end
          | _, _ => (s, [After (log_message "Error starting ramp")])
          end
      | _, _, _ => (s, [After (log_message "Error starting ramp")])
      end
  end.

(** [ramp_data[i][k]] for every channel, in channel order. *)
Definition ramp_items (pick : list Q -> option Q) (data : list (list Q))
    (chs : list Channel) : list (string * option Q) :=
  imap (fun i channel => (address channel, data !! i ≫= pick)) chs.

Definition send_ramp_frame (env : Env) (s : State) : State * list Event :=
  match osc_client s, ramp_data s with
  | Some client, Some ((row0 :: _) as data) =>
      if (length row0 <=? ramp_frame s)%nat then
        if (Z.of_nat (hold_frame s) <? hold_frames s)%Z then
          let '(evs, _, err, exc) :=
            send_loop client [] (ramp_items np.last_item data (channels s)) in
          let s1 := set_osc_error_count (osc_error_count s + err) s in
          if exc
          then (s1, evs ++ [After (log_message "Ramp send error")])
          else (set_hold_frame (hold_frame s + 1) s1, evs)
        else (s, [After (command_queue_put COMMANDS.START_HEARTBEAT)])
      else
        let '(evs, ok, err, exc) :=
          send_loop client []
            (ramp_items (fun row => row !! ramp_frame s) data (channels s)) in
        let s1 := set_osc_error_count (osc_error_count s + err) s in
        if exc
        then (s1, evs ++ [After (log_message "Ramp send error")])
        else
          let '(s2, evs2) := note_success env ok s1 in
          let evs3 :=
            if ((ramp_frame s mod 10 =? 0) && (0 <? length (channels s)))%nat
            then [After (log_message "Frame")] else [] in
          (set_ramp_frame (ramp_frame s + 1) s2, evs ++ evs2 ++ evs3)
  | _, _ => (s, [])
  end.

Definition stop_all (env : Env) (s : State) : State * list Event :=
  let s0 := set_connection_active false
              (set_hold_frame 0 (set_ramp_frame 0 (set_ramp_data None s))) in
  let ev0 := [After (update_connection_status "Disconnected" "red")] in
  match osc_client s0, channels s0 with
  | None, _ | _, [] => (s0, ev0)
  | Some client, chs =>
      let '(evs, ok, err, _) :=
        send_loop client [After (log_message "Stop send error")]
          (map (fun channel => (address channel, Some 0)) chs) in
      let s1 := set_osc_error_count (osc_error_count s0 + err) s0 in
      let '(s2, evs2) := note_success env ok s1 in
      (s2, ev0 ++ evs ++ evs2)
  end.

Definition start_osc_client (env : Env) (s : State) : State * list Event :=
  let failed :=
    (set_connection_active false s,
     [After (update_connection_status "Connection Failed" "red");
      Log "Failed to create OSC client"]) in
  match port_var (settings s) with
  | Some port =>
      match new_client env (ip_var (settings s)) port with
      | Some client =>
          (set_osc_error_count 0 (set_osc_send_count 0
             (set_last_send_time (time env) (set_connection_active true
                (set_osc_client (Some client) s)))),
           [After (update_connection_status "Connected" "green");
            Log "OSC client connected"])
      | None => failed
      end
  | None => failed
  end.

Definition handle_command (command : COMMANDS.t) (env : Env) (s : State)
    : State * list Event :=
  match command with
  | COMMANDS.START_HEARTBEAT =>
      let '(s1, evs) := start_osc_client env s in
      (s1, evs ++ [After (update_status MODES.HEARTBEAT);
                   After (log_message "Started heartbeat streaming")])
  | COMMANDS.TURN_RIGHT =>
      let '(s1, evs) := start_ramp right s in
      (s1, evs ++ [After (update_status MODES.TURNING_RIGHT);
                   After (log_message "Started right turn")])
  | COMMANDS.TURN_LEFT =>
      let '(s1, evs) := start_ramp left s in
      (s1, evs ++ [After (update_status MODES.TURNING_LEFT);
                   After (log_message "Started left turn")])
  | COMMANDS.BASELINE =>
      let '(s1, evs) := start_ramp baseline s in
      (s1, evs ++ [After (update_status MODES.BASELINE);
                   After (log_message "Started return to baseline")])
  | COMMANDS.STOP_ALL =>
      let '(s1, evs) := stop_all env s in
      (s1, evs ++ [After (update_status MODES.STOPPED);
                   After (log_message "Stopped all streaming")])
  | COMMANDS.QUIT => (set_running false s, [])
  end.

Definition Qltb (a b : Q) : bool := negb (Qle_bool b a).

Definition check_connection_timeout (env : Env) (s : State)
    : State * list Event :=
  if connection_active s && Qltb 0 (last_send_time s)
  then
    if Qltb connection_timeout (time env - last_send_time s)
    then (set_connection_active false s,
          [After (update_connection_status "Timeout" "orange");
           After (log_message "Connection timeout - no recent OSC activity")])
    else (s, [])
  else (s, []).

(** [command_queue] is a [queue.Queue]: [put] appends at the back,
    [get_nowait] takes the front item at once or raises [queue.Empty]
    ([None]) without waiting. *)
Definition put (command : COMMANDS.t) (s : State) : State :=
  set_command_queue (command_queue s ++ [command]) s.

Definition get_nowait (s : State) : option (COMMANDS.t * State) :=
  match command_queue s with
  | [] => None
  | command :: q => Some (command, set_command_queue q s)
  end.

(** The [try: get_nowait / handle_command / except queue.Empty: pass] block. *)
Definition process_commands (env : Env) (s : State) : State * list Event :=
  match get_nowait s with
  | Some (command, s1) => handle_command command env s1
  | None => (s, [])
  end.

(** The [if]/[elif] on [current_mode] in the loop. *)
Definition handle_current_mode (env : Env) (s : State) : State * list Event :=
  match current_mode s with
  | MODES.HEARTBEAT => send_heartbeat env s
  | MODES.TURNING_RIGHT | MODES.TURNING_LEFT | MODES.BASELINE =>
      send_ramp_frame env s
  | MODES.IDLE | MODES.STOPPED => (s, [])
  end.

(** [time.sleep(1.0 / fps)]; a text that is no integer, a zero or a
    negative rate raises, which the loop's handler logs before backing off. *)
Definition frame_sleep (s : State) : list Event :=
  match fps_var (settings s) with
  | Some fps =>
      if (0 <? fps)%Z then [Sleep (1 / inject_Z fps)]
      else [After (log_message "Worker error"); Sleep (1 # 10)]
  | None => [After (log_message "Worker error"); Sleep (1 # 10)]
  end.

(** One pass through the body of [while self.running]. *)
Definition worker_iteration (env : Env) (s : State) : State * list Event :=
  let '(s1, ev1) := process_commands env s in
  let '(s2, ev2) := check_connection_timeout env s1 in
  let '(s3, ev3) := handle_current_mode env s2 in
  (s3, ev1 ++ ev2 ++ ev3 ++ frame_sleep s3).

(** The GUI thread running one callback it was handed. *)
Definition run_callback (cb : GuiCallback) (s : State) : State :=
  match cb with
  | update_status status => set_current_mode status s
  | command_queue_put command => put command s
  | log_message _ | update_connection_status _ _ | update_osc_stats => s
  end.

(** Every [send_message] invocation of a trace, in order. *)
Definition calls (evs : list Event) : list (string * osc_arg) :=
  omap (fun ev => match ev with
                  | Sent addr arg | SendRaised addr arg => Some (addr, arg)
                  | _ => None
                  end) evs.

(** Every callback a trace hands to the GUI thread, in order. *)
Definition callbacks (evs : list Event) : list GuiCallback :=
  omap (fun ev => match ev with After cb => Some cb | _ => None end) evs.

(** The button and window handlers of the GUI thread, named by the command
    they enqueue: the four streaming buttons refuse to act without
    channels, [stop_streaming] always enqueues, and [on_closing] enqueues
    [QUIT] and clears [running] itself. *)
Definition gui_handler (command : COMMANDS.t) (s : State) : State :=
  match command with
  | COMMANDS.STOP_ALL => put command s
  | COMMANDS.QUIT => set_running false (put command s)
  | _ => match channels s with [] => s | _ => put command s end
  end.

(** The two threads together: the worker's state and the callbacks the GUI
    thread has been handed but has not run yet. *)
Record System : Type := mkSystem {
  worker : State;
  after_queue : list GuiCallback
}.

(** One atomic step of either thread: a pass of the worker loop, a GUI
    handler, or the GUI thread running its oldest pending callback. *)
Inductive Action : Type :=
  | Tick (env : Env)
  | Press (command : COMMANDS.t)
  | GuiIdle.

(** The command a step hands to [handle_command], if any. *)
Definition applied_by (a : Action) (sys : System) : list COMMANDS.t :=
  match a with
  | Tick _ =>
      if running (worker sys)
      then option_list (fst <$> get_nowait (worker sys)) else []
  | _ => []
  end.

(** The command a step puts on the queue, if any. *)
Definition enqueued_by (a : Action) (sys : System) : list COMMANDS.t :=
  match a with
  | Tick _ => []
  | Press command =>
      match command, channels (worker sys) with
      | COMMANDS.STOP_ALL, _ | COMMANDS.QUIT, _ => [command]
      | _, [] => []
      | _, _ => [command]
      end
  | GuiIdle =>
      match after_queue sys with
      | command_queue_put command :: _ => [command]
      | _ => []
      end
  end.

Definition step (a : Action) (sys : System) : System :=
  match a with
  | Tick env =>
      if running (worker sys)
      then let '(s1, evs) := worker_iteration env (worker sys) in
           mkSystem s1 (after_queue sys ++ callbacks evs)
      else sys
  | Press command =>
      mkSystem (gui_handler command (worker sys)) (after_queue sys)
  | GuiIdle =>
      match after_queue sys with
      | [] => sys
      | cb :: rest => mkSystem (run_callback cb (worker sys)) rest
      end
  end.

(** A schedule of steps, with the commands applied and the commands
    enqueued along the way, each in order of occurrence. *)
Fixpoint run (actions : list Action) (sys : System)
    : System * list COMMANDS.t * list COMMANDS.t :=
  match actions with
  | [] => (sys, [], [])
  | a :: rest =>
      let '(sys', applied, enqueued) := run rest (step a sys) in
      (sys', applied_by a sys ++ applied, enqueued_by a sys ++ enqueued)
  end.

(** [k] consecutive calls of a sender, with the trace of each call. *)
Fixpoint repeat_calls (f : State -> State * list Event) (k : nat) (s : State)
    : State * list (list Event) :=
  match k with
  | O => (s, [])
  | S k' =>
      let '(s1, evs) := f s in
      let '(s2, rest) := repeat_calls f k' s1 in
      (s2, evs :: rest)
  end.

(** The GUI thread running a batch of callbacks in order. *)
Definition run_callbacks (cbs : list GuiCallback) (s : State) : State :=
  foldl (fun s cb => run_callback cb s) s cbs.

(** The GUI thread running everything it has been handed so far. *)
Definition drain (sys : System) : System :=
  Nat.iter (length (after_queue sys)) (step GuiIdle) sys.

(** The mode changes and the queue insertions among a batch of callbacks. *)
Definition statuses (cbs : list GuiCallback) : list MODES.t :=
  omap (fun cb => match cb with update_status m => Some m | _ => None end) cbs.

Definition puts (cbs : list GuiCallback) : list COMMANDS.t :=
  omap (fun cb => match cb with command_queue_put c => Some c | _ => None end)
       cbs.

(** The [i]-th sample point of [np.linspace(0, 1, n)], [n > 1]. *)
Definition sample (n : Z) (i : nat) : Q :=
  if (i <? Z.to_nat (n - 1))%nat
  then inject_Z (Z.of_nat i) * ((1 - 0) / inject_Z (n - 1)) + 0
  else 1.

(** The modes in which the loop calls [send_ramp_frame]. *)
Definition ramp_mode (m : MODES.t) : Prop :=
  m = MODES.TURNING_RIGHT \/ m = MODES.TURNING_LEFT \/ m = MODES.BASELINE.

(** The state of a worker whose ramp has been sent to its end: a client,
    the channels [chs], the ramp rows [data], [frames] frames of hold, and a
    frame counter that has reached the length of the first row. *)
Record holding (client : SimpleUDPClient) (chs : list Channel)
    (data : list (list Q)) (frames : Z) (s : State) : Prop := mkHolding {
  holding_client : osc_client s = Some client;
  holding_channels : channels s = chs;
  holding_data : ramp_data s = Some data;
  holding_frames : hold_frames s = frames;
  holding_exhausted :
    exists row0, data !! 0%nat = Some row0 /\ (length row0 <= ramp_frame s)%nat
}.

(** The calls of one hold frame: every channel's address with the final
    value of its ramp. *)
Definition hold_calls (chs : list Channel) (finals : list Q)
    : list (string * osc_arg) :=
  zip_with (fun ch y => (address ch, OFloat y)) chs finals.

(** What the worker's own procedures leave alone: the queue, the run flag
    and the mode (the GUI thread alone changes the mode and adds commands,
    [QUIT] alone clears the flag). *)
Definition frame (s1 s : State) : Prop :=
  command_queue s1 = command_queue s /\ running s1 = running s /\
  current_mode s1 = current_mode s.

(** The calls of one heartbeat: every channel's address with [0.0]. *)
Definition heartbeat_calls (chs : list Channel) : list (string * osc_arg) :=
  map (fun ch => (address ch, OFloat 0)) chs.

End Gui.

(** ** Normalization parameters ([normalization_params.json]) *)

Record NormalizationParams : Type := mkNormalizationParams {
  mean : list Q;
  std : list Q
}.

(** ** [v2/mh_streamer_v2.py] *)

Module V2.

(** [denormalize_data]: [x = (x_norm * std) + mean], or the input itself
    when no parameters were loaded. *)
Definition denormalize_data (normalization_params : option NormalizationParams)
    (normalized_data : list Q) : option (list Q) :=
  match normalization_params with
  | None => Some normalized_data
  | Some params =>
      scaled ← np.broadcast Qmult normalized_data (std params);
      np.broadcast Qplus scaled (mean params)
  end.

End V2.

(** ** [v3/mh_streamer_v3.py]: the bone-level frame sender *)

Module V3.

(** The [transform] object of a channel: [clamp] is [null] or [[min, max]]. *)
Record Transform : Type := mkTransform {
  scale : Q;
  offset : Q;
  clamp : option (Q * Q)
}.

Record Channel : Type := mkChannel {
  source_column : string;
  osc_address : string;
  transform : Transform
}.

Inductive Event : Type :=
  | Sent (addr : string) (arg : osc_arg)
  | SendRaised (addr : string) (arg : osc_arg)
  | Log (message : string)
  | Stdout (message : string)
  | AfterUpdateStats
  | Uncaught (exception : string).

(** A motion sequence: one row of feature values per frame. *)
Definition Sequence : Type := list (list Q).

Record State : Type := mkState {
  osc_client : option SimpleUDPClient;
  channels : list Channel;
  channel_mapping : gmap string nat;
  normalization_params : option NormalizationParams;
  left_turn_model : option nat;
  right_turn_model : option nat;
  is_streaming : bool;
  current_mode : string;
  left_turn_sequence : option Sequence;
  right_turn_sequence : option Sequence;
  status_label : string;
  duration_var : option Q;
  show_data : bool;
  osc_send_count : nat;
  osc_error_count : nat;
  last_send_time : Q
}.

(** The clock and the contents of the two turn data files ([None] when
    [np.load] raises). *)
Record Env : Type := mkEnv {
  time : Q;
  left_turn_data : option (list Sequence);
  right_turn_data : option (list Sequence)
}.

Definition set_current_mode (v : string) (s : State) : State :=
  mkState (osc_client s) (channels s) (channel_mapping s)
    (normalization_params s) (left_turn_model s) (right_turn_model s)
    (is_streaming s) v (left_turn_sequence s) (right_turn_sequence s)
    (status_label s) (duration_var s) (show_data s) (osc_send_count s)
    (osc_error_count s) (last_send_time s).

Definition set_left_turn_sequence (v : option Sequence) (s : State) : State :=
  mkState (osc_client s) (channels s) (channel_mapping s)
    (normalization_params s) (left_turn_model s) (right_turn_model s)
    (is_streaming s) (current_mode s) v (right_turn_sequence s)
    (status_label s) (duration_var s) (show_data s) (osc_send_count s)
    (osc_error_count s) (last_send_time s).

Definition set_right_turn_sequence (v : option Sequence) (s : State) : State :=
  mkState (osc_client s) (channels s) (channel_mapping s)
    (normalization_params s) (left_turn_model s) (right_turn_model s)
    (is_streaming s) (current_mode s) (left_turn_sequence s) v
    (status_label s) (duration_var s) (show_data s) (osc_send_count s)
    (osc_error_count s) (last_send_time s).

Definition set_status_label (v : string) (s : State) : State :=
  mkState (osc_client s) (channels s) (channel_mapping s)
    (normalization_params s) (left_turn_model s) (right_turn_model s)
    (is_streaming s) (current_mode s) (left_turn_sequence s)
    (right_turn_sequence s) v (duration_var s) (show_data s)
    (osc_send_count s) (osc_error_count s) (last_send_time s).

Definition set_stats (sent errors : nat) (now : Q) (s : State) : State :=
  mkState (osc_client s) (channels s) (channel_mapping s)
    (normalization_params s) (left_turn_model s) (right_turn_model s)
    (is_streaming s) (current_mode s) (left_turn_sequence s)
    (right_turn_sequence s) (status_label s) (duration_var s) (show_data s)
    sent errors now.

(** [denormalize_data]: [x = (x_norm * std) + mean], or the input itself
    when no parameters were loaded. *)
Definition denormalize_data (normalization_params : option NormalizationParams)
    (normalized_data : list Q) : option (list Q) :=
  match normalization_params with
  | None => Some normalized_data
  | Some params =>
      scaled ← np.broadcast Qmult normalized_data (std params);
      np.broadcast Qplus scaled (mean params)
  end.

(** [scale * value + offset], then the clamp when one is given. *)
Definition apply_transform (t : Transform) (raw_value : Q) : Q :=
  let transformed_value := scale t * raw_value + offset t in
  match clamp t with
  | Some (clamp_min, clamp_max) =>
      py_max clamp_min (py_min clamp_max transformed_value)
  | None => transformed_value
  end.

(** The [for channel in self.channels] loop of [stream_frame]: the trace,
    the successes and the send errors. *)
Fixpoint send_channels (client : SimpleUDPClient) (mapping : gmap string nat)
    (denormalized_data : list Q) (chs : list Channel)
    : list Event * nat * nat :=
  match chs with
  | [] => ([], 0%nat, 0%nat)
  | channel :: rest =>
      let '(evs, ok, err) :=
        send_channels client mapping denormalized_data rest in
      let send value :=
        if send_ok client (osc_address channel) (OFloat value)
        then (Sent (osc_address channel) (OFloat value) :: evs, S ok, err)
        else (SendRaised (osc_address channel) (OFloat value)
                :: Log "OSC send error" :: evs, ok, S err) in
      match mapping !! source_column channel with
      | Some feature_idx =>
          match denormalized_data !! feature_idx with
          | Some raw_value =>
              send (apply_transform (transform channel) raw_value)
          | None => (evs, ok, err)
          end
      | None => send 0
      end
  end.

(** The two control messages, sent inside one [try]. *)
Definition send_control (client : SimpleUDPClient) (frame_count : Z)
    (mode : string) : list Event * nat * nat :=
  if send_ok client "/mh/frame" (OInt frame_count) then
    if send_ok client "/mh/mode" (OStr mode)
    then ([Sent "/mh/frame" (OInt frame_count); Sent "/mh/mode" (OStr mode)],
          2%nat, 0%nat)
    else ([Sent "/mh/frame" (OInt frame_count);
           SendRaised "/mh/mode" (OStr mode);
           Log "OSC send error for control messages"], 0%nat, 1%nat)
  else ([SendRaised "/mh/frame" (OInt frame_count);
         Log "OSC send error for control messages"], 0%nat, 1%nat).

Definition stream_frame (env : Env) (frame_data : list Q) (frame_count : Z)
    (s : State) : State * list Event :=
  match osc_client s, channels s with
  | None, _ => (s, [Log "OSC client not available"])
  | Some _, [] => (s, [Log "No channels configured"])
  | Some client, chs =>
      match denormalize_data (normalization_params s) frame_data with
      | None =>
          (set_stats (osc_send_count s) (osc_error_count s + 1)
             (last_send_time s) s,
           [Log "Error streaming frame"; Stdout "Error streaming frame"])
      | Some denormalized_data =>
          let '(evs, ok, err) :=
            send_channels client (channel_mapping s) denormalized_data chs in
          let '(evc, okc, errc) :=
            send_control client frame_count (current_mode s) in
          (set_stats (osc_send_count s + (ok + okc))
             (osc_error_count s + (err + errc)) (time env) s,
           evs ++ evc ++ [AfterUpdateStats] ++
           (if show_data s && (frame_count mod 10 =? 0)%Z
            then [Log "Frame"] else []))
      end
  end.

(** [generate_turn_sequence]: the first sample of the left file when the
    model is the left one, of the right file otherwise; [None] when loading
    or indexing raises. *)
Definition generate_turn_sequence (env : Env) (model : option nat) (s : State)
    : option Sequence :=
  turn_data ← (if decide (model = left_turn_model s)
               then left_turn_data env else right_turn_data env);
  turn_data !! 0%nat.

Definition start_left_turn (env : Env) (s : State) : State * list Event :=
  if negb (is_streaming s) then (s, [Log "Please start streaming first"])
  else
    let s1 := set_current_mode "TURNING_LEFT" s in
    match duration_var s1 with
    | None => (s1, [Uncaught "ValueError"])
    | Some _ =>
        match generate_turn_sequence env (left_turn_model s1) s1 with
        | None => (s1, [Uncaught "generate_turn_sequence"])
        | Some sequence =>
            (set_status_label "Turning Left..."
               (set_left_turn_sequence (Some sequence) s1),
             [Log "Started left turn movement"; Stdout "Started left turn"])
        end
    end.

Definition start_right_turn (env : Env) (s : State) : State * list Event :=
  if negb (is_streaming s) then (s, [Log "Please start streaming first"])
  else
    let s1 := set_current_mode "TURNING_RIGHT" s in
    match duration_var s1 with
    | None => (s1, [Uncaught "ValueError"])
    | Some _ =>
        match generate_turn_sequence env (right_turn_model s1) s1 with
        | None => (s1, [Uncaught "generate_turn_sequence"])
        | Some sequence =>
            (set_status_label "Turning Right..."
               (set_right_turn_sequence (Some sequence) s1),
             [Log "Started right turn movement"; Stdout "Started right turn"])
        end
    end.

Definition return_to_baseline (s : State) : State * list Event :=
  if negb (is_streaming s) then (s, [Log "Please start streaming first"])
  else
    (set_status_label "Streaming Baseline..." (set_current_mode "BASELINE" s),
     [Log "Returned to basic position (baseline)";
      Stdout "Returned to baseline"]).

(** Every [send_message] invocation of a trace, in order. *)
Definition calls (evs : list Event) : list (string * osc_arg) :=
  omap (fun ev => match ev with
                  | Sent addr arg | SendRaised addr arg => Some (addr, arg)
                  | _ => None
                  end) evs.

(** The statistics the streamer keeps. *)
Definition stats (s : State) : nat * nat * Q :=
  (osc_send_count s, osc_error_count s, last_send_time s).

(** The calls the channel loop makes for the channels [chs]. *)
Definition channel_calls (client : SimpleUDPClient) (mapping : gmap string nat)
    (denormalized_data : list Q) (chs : list Channel)
    : list (string * osc_arg) :=
  calls (send_channels client mapping denormalized_data chs).1.1.

(** The calls of the two control messages. *)
Definition control_calls (client : SimpleUDPClient) (frame_count : Z)
    (mode : string) : list (string * osc_arg) :=
  calls (send_control client frame_count mode).1.1.

End V3.

(** ** The free-text command parser ([osc_streamer_v3.parser]) *)

Module NLPParser.

(** Modelled from the spec: the [Intent] tagged union of the parser package
    [osc_streamer_v3], whose sources are missing (only its tests are
    present). *)
Inductive Intent : Type :=
  | TurnIntent (scope direction : string) (angle_deg speed_deg_s : Q)
      (duration_s : option Q)
  | UnknownIntent (original_text reason : string)
  | HelpIntent
  | QuitIntent
  | DryRunIntent.

(** Modelled from the spec: what the turn pattern family of the missing
    parser extracts from a text: an optional scope token, a direction token,
    optional explicit angle, speed and duration, and optional qualitative
    modifiers. *)
Record TurnMatch : Type := mkTurnMatch {
  scope_token : option string;
  direction_token : string;
  explicit_angle : option Q;
  explicit_speed : option Q;
  explicit_duration : option Q;
  angle_modifier : option string;
  speed_modifier : option string
}.

(** Modelled from the spec: the synonym table of the missing parser, which
    resolves a direction token. *)
Definition direction_synonym (token : string) : option string :=
  if decide (token ∈ ["left"; "counterclockwise"; "ccw"; "face left"])
  then Some "left"
  else if decide (token ∈ ["right"; "clockwise"; "cw"; "face right"])
  then Some "right"
  else None.

(** Modelled from the spec: the angle modifiers of the missing parser. *)
Definition angle_of_modifier (modifier : string) : option Q :=
  if decide (modifier = "a little") then Some 5
  else if decide (modifier = "a lot") then Some 60
  else None.

(** Modelled from the spec: the speed modifiers of the missing parser. *)
Definition speed_of_modifier (modifier : string) : option Q :=
  if decide (modifier = "slowly") then Some 30
  else if decide (modifier = "quickly") then Some 270
  else None.

(** Modelled from the spec: the clamp of the missing parser onto
    [[lo, hi]]. *)
Definition clamp (lo hi x : Q) : Q := py_max lo (py_min hi x).

(** Modelled from the spec: the numeric resolution of the missing parser:
    the explicit number, else the modifier's value, else the default, and
    the clamp after that. *)
Definition resolve_angle (m : TurnMatch) : Q :=
  clamp 0 180
    (default (default 15 (angle_modifier m ≫= angle_of_modifier))
             (explicit_angle m)).

(** Modelled from the spec: the speed resolution of the missing parser. *)
Definition resolve_speed (m : TurnMatch) : Q :=
  clamp 1 360
    (default (default 90 (speed_modifier m ≫= speed_of_modifier))
             (explicit_speed m)).

(** Modelled from the spec: the duration resolution of the missing parser;
    no duration stays absent. *)
Definition resolve_duration (m : TurnMatch) : option Q :=
  clamp 0 10 <$> explicit_duration m.

(** Modelled from the spec: case folding of the missing parser, on the
    letters [A]..[Z]. *)
Definition fold_char (c : ascii) : ascii :=
  let n := nat_of_ascii c in
  if ((65 <=? n) && (n <=? 90))%nat then ascii_of_nat (n + 32) else c.

(** Modelled from the spec: case folding of a whole text. *)
Fixpoint casefold (s : string) : string :=
  match s with
  | EmptyString => EmptyString
  | String c rest => String (fold_char c) (casefold rest)
  end.

(** Modelled from the spec: removal of leading white space. *)
Fixpoint lstrip (s : string) : string :=
  match s with
  | EmptyString => EmptyString
  | String c rest => if Ascii.is_space c then lstrip rest else s
  end.

(** Modelled from the spec: trimming of the missing parser. *)
Definition strip (s : string) : string :=
  String.rev (lstrip (String.rev (lstrip s))).

Section Parse.

(** The two recognisers the spec names without giving their patterns: the
    turn pattern family and the dry-run command. *)
Variable turn_pattern : string -> option TurnMatch.
Variable is_dry_run : string -> bool.

(** Modelled from the spec: [parse] of the missing parser: the text is
    case-folded and trimmed; empty input, then the exact-token commands,
    then the turn pattern family, then the catch-all. *)
Definition parse (text : string) : Intent :=
  let folded := casefold (strip text) in
  if decide (folded = "") then UnknownIntent text "Empty input"
  else if decide (folded ∈ ["help"; ":help"]) then HelpIntent
  else if decide (folded ∈ ["quit"; ":quit"]) then QuitIntent
  else if is_dry_run folded then DryRunIntent
  else
    match turn_pattern folded with
    | Some m =>
        match direction_synonym (direction_token m) with
        | Some direction =>
            TurnIntent (default "body" (scope_token m)) direction
              (resolve_angle m) (resolve_speed m) (resolve_duration m)
        | None => UnknownIntent text "No matching pattern"
        end
    | None => UnknownIntent text "No matching pattern"
    end.

End Parse.

End NLPParser.

(** ** Concrete configurations *)

Module Examples.

(** A transport on which every send returns. *)
Definition accept_all : SimpleUDPClient := mkClient (fun _ _ => true).

Definition steer : Gui.Channel := Gui.mkChannel "/mh/steer" 10 (-10).

(** 60 frames per second with the given ramp duration and hold, in
    seconds. *)
Definition gui_settings (duration hold : Q) : Gui.Settings :=
  Gui.mkSettings "127.0.0.1" (Some 8000%Z) (Some 60%Z) (Some duration)
    (Some hold).

(** A worker with one channel and nothing queued. *)
Definition gui_state (client : option SimpleUDPClient) (duration hold : Q)
    (mode : Gui.MODES.t) : Gui.State :=
  Gui.mkState (gui_settings duration hold) client true [] mode [steer] None
    0 0 0 true 1 0 0.

Definition gui_env : Gui.Env := Gui.mkEnv 1 (fun _ _ => Some accept_all).

(** A right turn of [duration] seconds started and sent to the end of its
    ramp ([frames] frames). *)
Definition ramp_sent (duration hold : Q) (frames : nat) : Gui.State :=
  (Gui.repeat_calls (Gui.send_ramp_frame gui_env) frames
     (Gui.start_ramp Gui.right
        (gui_state (Some accept_all) duration hold Gui.MODES.TURNING_RIGHT)).1).1.

(** A three-frame ramp followed by three frames of hold, and a one-frame
    ramp, each sent to its end. *)
Definition ramp3 : Gui.State := ramp_sent (1 # 20) (1 # 20) 3.
Definition ramp3_data : list (list Q) :=
  Eval vm_compute in default [] (Gui.ramp_data ramp3).
Definition ramp3_finals : list Q := Eval vm_compute in omap last ramp3_data.
Definition ramp1 : Gui.State := ramp_sent (1 # 50) (1 # 20) 1.

(** The worker as the constructor and [load_config] leave it, with a port
    entry that is no integer. *)
Definition bad_port_start : Gui.State :=
  Gui.mkState (Gui.mkSettings "127.0.0.1" None (Some 60%Z) (Some 1) (Some 0))
    None true [] Gui.MODES.IDLE [steer] None 0 0 0 false 0 0 0.

(** From there: the start button, one pass of the loop, and the GUI thread
    running what the pass handed over.  The mode is [HEARTBEAT] although no
    client could be created. *)
Definition heartbeat_without_client : Gui.State :=
  Gui.worker
    (Gui.drain
       (Gui.step (Gui.Tick gui_env)
          (Gui.step (Gui.Press Gui.COMMANDS.START_HEARTBEAT)
             (Gui.mkSystem bad_port_start [])))).

Definition pelvis : V3.Channel :=
  V3.mkChannel "Pelvis_extension" "/bone/pelvis/pitch"
    (V3.mkTransform 2 1 (Some (-(90), 90))).

Definition neck : V3.Channel :=
  V3.mkChannel "Neck_flexion" "/bone/neck_01/pitch"
    (V3.mkTransform 1 0 None).

Definition v3_state (chs : list V3.Channel) (mapping : gmap string nat)
    (params : option NormalizationParams) (streaming : bool) : V3.State :=
  V3.mkState (Some accept_all) chs mapping params (Some 1%nat) (Some 2%nat)
    streaming "BASELINE" None None "Ready" (Some 2) true 0 0 0.

Definition v3_env : V3.Env := V3.mkEnv 5 (Some [[[0]]]) (Some [[[0]]]).

Definition params2 : NormalizationParams :=
  mkNormalizationParams [10; 20] [2; 4].

(** The same one-channel frame, once with the column unmapped and once
    with the column mapped to a feature whose value is zero. *)
Definition neck_unmapped : V3.State := v3_state [neck] ∅ None true.
Definition neck_mapped : V3.State :=
  v3_state [neck] {["Neck_flexion" := 0%nat]} None true.

(** Two channels, the first unmapped, the second mapped to feature 1 of a
    two-feature frame. *)
Definition two_channels : V3.State :=
  v3_state [neck; pelvis] {["Pelvis_extension" := 1%nat]} (Some params2) true.

(** A streamer that has not been started. *)
Definition not_streaming : V3.State := v3_state [neck] ∅ None false.

(** A turn recogniser for one phrase, with the angle it carries. *)
Definition one_phrase (phrase : string) (angle : Q) (text : string)
    : option NLPParser.TurnMatch :=
  if decide (text = phrase)
  then Some (NLPParser.mkTurnMatch None "left" (Some angle) None None None
               None)
  else None.

End Examples.


(** ** More of the scheduler: traces of whole schedules *)

Module GuiMore.
Import Gui.

(** What the worker does in one step of a schedule: the trace of the pass,
    nothing for a step of the GUI thread or a stopped worker. *)
Definition step_events (a : Action) (sys : System) : list Event :=
  match a with
  | Tick env =>
      if running (worker sys)
      then (worker_iteration env (worker sys)).2 else []
  | _ => []
  end.

(** Everything the worker does along a schedule, in order. *)
Fixpoint run_events (actions : list Action) (sys : System) : list Event :=
  match actions with
  | [] => []
  | a :: rest => step_events a sys ++ run_events rest (step a sys)
  end.

(** The calls of one ramp frame: every channel's address with its amplitude
    scaled by the envelope value [e_k] of that frame. *)
Definition ramp_calls (direction : Direction) (chs : list Channel) (e_k : Q)
    : list (string * osc_arg) :=
  map (fun ch => (address ch, OFloat (amplitude direction ch * e_k))) chs.

(** The rows [start_ramp] builds from an envelope. *)
Definition ramp_rows (direction : Direction) (chs : list Channel)
    (envelope : list Q) : list (list Q) :=
  map (fun ch => map (fun e => amplitude direction ch * e) envelope) chs.

(** A worker in the middle of a ramp: [k] frames of the rows [data] have
    been sent and the hold has not begun. *)
Record ramping (client : SimpleUDPClient) (chs : list Channel)
    (data : list (list Q)) (frames : Z) (k : nat) (s : State) : Prop :=
  mkRamping {
  ramping_client : osc_client s = Some client;
  ramping_channels : channels s = chs;
  ramping_data : ramp_data s = Some data;
  ramping_frame : ramp_frame s = k;
  ramping_hold_frames : hold_frames s = frames;
  ramping_hold_frame : hold_frame s = 0%nat
}.

End GuiMore.

(** ** [v2/preprocessing_v2.py]: normalization *)

Module Preprocessing.

(** [normalize_data] on one frame of the data: [(data - mean) / std],
    elementwise with numpy's broadcasting (numpy applies the same operation
    to every frame of the array). *)
Definition normalize_data (data mean_vals std_vals : list Q)
    : option (list Q) :=
  centred ← np.broadcast Qminus data mean_vals;
  np.broadcast Qdiv centred std_vals.

End Preprocessing.

(** ** More of [v3/mh_streamer_v3.py]: the channel mapping *)

Module V3More.
Import V3.

(** [feature_names.index(source_column)]: the first position of the column,
    [None] where [index] raises [ValueError]. *)
Definition index (source_column : string) (feature_names : list string)
    : option nat :=
  fst <$> list_find (fun name => name = source_column) feature_names.

(** The second loop of [load_channel_config]: the map from source columns
    to feature indices, with one warning for every channel whose column is
    not a feature.  Nothing is mapped when [feature_names] is [None] or
    empty. *)
Fixpoint map_channels (feature_names : option (list string))
    (chs : list Channel) (channel_mapping : gmap string nat)
    : gmap string nat * list Event :=
  match chs with
  | [] => (channel_mapping, [])
  | channel :: rest =>
      match feature_names with
      | Some ((_ :: _) as names) =>
          match index (source_column channel) names with
          | Some feature_idx =>
              map_channels feature_names rest
                (<[source_column channel := feature_idx]> channel_mapping)
          | None =>
              let '(m, evs) :=
                map_channels feature_names rest channel_mapping in
              (m, Log ("Warning: Feature " +:+ source_column channel
                         +:+ " not found in data") :: evs)
          end
      | _ => map_channels feature_names rest channel_mapping
      end
  end.

Definition build_channel_mapping (feature_names : option (list string))
    (chs : list Channel) : gmap string nat * list Event :=
  map_channels feature_names chs ∅.

End V3More.

(** ** The part of Python's [str] and [re] that [NLPCommandParser] uses

    Texts are sequences of ASCII characters; a character above 127 is
    outside what is represented. *)

Module py.

(** [c.isspace()], which is also what [\s] matches: the characters 9 to 13,
    28 to 31 and the blank. *)
Definition isspace (c : ascii) : bool :=
  let n := nat_of_ascii c in
  ((9 <=? n) && (n <=? 13) || (28 <=? n) && (n <=? 31) || (n =? 32))%nat.

(** What [\w] matches: letters, digits and the underscore. *)
Definition isword (c : ascii) : bool :=
  let n := nat_of_ascii c in
  ((48 <=? n) && (n <=? 57) || (65 <=? n) && (n <=? 90) || (n =? 95)
   || (97 <=? n) && (n <=? 122))%nat.

(** [c.lower()]. *)
Definition lower_char (c : ascii) : ascii :=
  let n := nat_of_ascii c in
  if ((65 <=? n) && (n <=? 90))%nat then ascii_of_nat (n + 32) else c.

(** [text.lower()]. *)
Fixpoint lower (s : string) : string :=
  match s with
  | EmptyString => EmptyString
  | String c rest => String (lower_char c) (lower rest)
  end.

(** [text.lstrip()], [text.rstrip()] and [text.strip()]. *)
Fixpoint lstrip (s : string) : string :=
  match s with
  | EmptyString => EmptyString
  | String c rest => if isspace c then lstrip rest else s
  end.

Fixpoint rstrip (s : string) : string :=
  match s with
  | EmptyString => EmptyString
  | String c rest =>
      match rstrip rest with
      | EmptyString => if isspace c then EmptyString else String c EmptyString
      | kept => String c kept
      end
  end.

Definition strip (s : string) : string := rstrip (lstrip s).

(** A text with no white space at its head. *)
Definition headed (s : string) : Prop :=
  match s with
  | EmptyString => True
  | String c _ => isspace c = false
  end.

(** The texts that are represented. *)
Fixpoint ascii_text (s : string) : bool :=
  match s with
  | EmptyString => true
  | String c rest => (nat_of_ascii c <? 128)%nat && ascii_text rest
  end.

End py.

Module re.

(** The patterns the parser is built from: the empty pattern, a character,
    sequence, alternative, [\s+] and [\b]; [Never] is the empty
    alternative. *)
Inductive regex : Type :=
  | Never
  | Eps
  | Chr (c : ascii)
  | Seq (r1 r2 : regex)
  | Alt (r1 r2 : regex)
  | Spaces
  | WordBoundary.

(** A literal word, a sequence and an alternative of several patterns, and
    words separated by [\s+]. *)
Fixpoint literal (s : string) : regex :=
  match s with
  | EmptyString => Eps
  | String c rest => Seq (Chr c) (literal rest)
  end.

Definition seq (rs : list regex) : regex := foldr Seq Eps rs.
Definition alt (rs : list regex) : regex := foldr Alt Never rs.
Definition words (ws : list string) : regex := alt (literal <$> ws).

Fixpoint phrase (ws : list string) : regex :=
  match ws with
  | [] => Eps
  | [w] => literal w
  | w :: rest => Seq (literal w) (Seq Spaces (phrase rest))
  end.

(** One or more white-space characters, then the continuation [k] on the
    last of them and the remaining text. *)
Fixpoint spaces_plus (k : ascii -> string -> bool) (s : string) : bool :=
  match s with
  | EmptyString => false
  | String c rest => py.isspace c && (k c rest || spaces_plus k rest)
  end.

Definition word_before (prev : option ascii) : bool :=
  match prev with Some c => py.isword c | None => false end.

Definition word_at (s : string) : bool :=
  match s with String c _ => py.isword c | EmptyString => false end.

(** Whether the pattern matches at the head of [s], [prev] being the
    character before it, in a way that the continuation [k] accepts; with
    [re.IGNORECASE], characters are compared up to case. *)
Fixpoint matches (r : regex) (prev : option ascii) (s : string)
    (k : option ascii -> string -> bool) : bool :=
  match r with
  | Never => false
  | Eps => k prev s
  | Chr c =>
      match s with
      | String d rest =>
          Ascii.eqb (py.lower_char d) (py.lower_char c) && k (Some d) rest
      | EmptyString => false
      end
  | Seq r1 r2 => matches r1 prev s (fun p rest => matches r2 p rest k)
  | Alt r1 r2 => matches r1 prev s k || matches r2 prev s k
  | Spaces => spaces_plus (fun c rest => k (Some c) rest) s
  | WordBoundary => xorb (word_before prev) (word_at s) && k prev s
  end.

(** Whether [pattern.search(text)] finds a match: at the head of the text
    or at any later position. *)
Fixpoint search_from (r : regex) (prev : option ascii) (s : string) : bool :=
  matches r prev s (fun _ _ => true)
  || match s with
     | EmptyString => false
     | String c rest => search_from r (Some c) rest
     end.

Definition search (r : regex) (text : string) : bool :=
  search_from r None text.

End re.

(** ** [NLPCommandParser] of [v3/mh_streamer_v3.py] *)

Module NLPCommandParser.
Import re.

(** The action names [parse_command] returns. *)
Inductive Action : Type :=
  | TURN_LEFT | TURN_RIGHT | BASELINE | STOP | POSE_SITTING | UNKNOWN.

#[global] Instance action_eq_dec : EqDecision Action.
Proof. solve_decision. Defined.

Definition neutral_words : list string :=
  ["basic"; "baseline"; "default"; "normal"; "center"; "straight";
   "neutral"].

(** [self.commands], in the order of the dictionary: the patterns of each
    command and its action. *)
Definition commands : list (string * (list regex * Action)) :=
  [("turn_left",
    ([seq [WordBoundary; words ["turn"; "steer"; "go"]; Spaces;
           words ["left"; "l"]; WordBoundary];
      seq [WordBoundary; words ["left"; "l"]; Spaces;
           words ["turn"; "steer"]; WordBoundary];
      seq [WordBoundary; phrase ["turn"; "to"; "the"; "left"]; WordBoundary];
      seq [WordBoundary; phrase ["steer"; "left"]; WordBoundary];
      seq [WordBoundary; phrase ["go"; "left"]; WordBoundary]],
     TURN_LEFT));
   ("turn_right",
    ([seq [WordBoundary; words ["turn"; "steer"; "go"]; Spaces;
           words ["right"; "r"]; WordBoundary];
      seq [WordBoundary; words ["right"; "r"]; Spaces;
           words ["turn"; "steer"]; WordBoundary];
      seq [WordBoundary; phrase ["turn"; "to"; "the"; "right"]; WordBoundary];
      seq [WordBoundary; phrase ["steer"; "right"]; WordBoundary];
      seq [WordBoundary; phrase ["go"; "right"]; WordBoundary]],
     TURN_RIGHT));
   ("basic_position",
    ([seq [WordBoundary; words neutral_words; Spaces;
           words ["position"; "pose"; "posture"]; WordBoundary];
      seq [WordBoundary; phrase ["return"; "to"]; Spaces;
           words neutral_words; WordBoundary];
      seq [WordBoundary; words neutral_words; WordBoundary];
      seq [WordBoundary; phrase ["straighten"; "up"]; WordBoundary];
      seq [WordBoundary; phrase ["center"; "position"]; WordBoundary]],
     BASELINE));
   ("stop",
    ([seq [WordBoundary;
           words ["stop"; "halt"; "pause"; "end"; "quit"; "exit"];
           WordBoundary];
      seq [WordBoundary; literal "stop"; Spaces;
           words ["turning"; "steering"; "moving"]; WordBoundary]],
     STOP));
   ("sit",
    ([seq [WordBoundary;
           alt [phrase ["sit"]; phrase ["sit"; "down"];
                phrase ["make"; "it"; "sit"]; phrase ["sitting"; "position"];
                phrase ["baseline"; "sitting"]; phrase ["assume"; "seated"];
                phrase ["go"; "to"; "sitting"]];
           WordBoundary]],
     POSE_SITTING))].

(** The alternative [baseline\s+sitting] of the sitting pattern and the
    third pattern of [basic_position], each between word boundaries. *)
Definition baseline_sitting : regex :=
  seq [WordBoundary; phrase ["baseline"; "sitting"]; WordBoundary].

Definition neutral_word : regex :=
  seq [WordBoundary; words neutral_words; WordBoundary].

(** The first command, in dictionary order, one of whose patterns is found
    in the text. *)
Definition first_match (text : string) : option Action :=
  (fun cmd => cmd.2.2) <$>
  find (fun cmd => existsb (fun pattern => search pattern text) cmd.2.1)
       commands.

(** [parse_command]: the action, the text it was read from and the
    confidence. *)
Definition parse_command (text : string) : Action * string * Q :=
  if decide (text = EmptyString \/ py.strip text = EmptyString)
  then (UNKNOWN, text, 0)
  else
    let text := py.lower (py.strip text) in
    match first_match text with
    | Some action => (action, text, 1)
    | None => (UNKNOWN, text, 0)
    end.

End NLPCommandParser.

(** ** The application around the frame sender ([v3/mh_streamer_v3.py])

    Messages built with an f-string are recorded by their fixed text. *)

Module V3App.
Import V3.

(** What the application does besides the events of the frame sender:
    message boxes, the start of a worker thread, the pose command (the one
    message whose value is a list, [["sitting", 0.35]]) with its outcome,
    and the worker's sleep. *)
Inductive Event : Type :=
  | Streamer (ev : V3.Event)
  | ShowError (title message : string)
  | ThreadStart
  | PoseCommand (returned : bool)
  | Sleep (seconds : Q).

(** The attributes of [MetaHumanStreamerV3] that the frame sender does not
    use.  [buttons] is the state of the six buttons that are enabled and
    disabled together; [fps_var] is the frame-rate entry of the window. *)
Record App : Type := mkApp {
  core : State;
  baseline_sequence : option Sequence;
  data_mode : string;
  data_mode_label : string;
  stop_event : bool;
  baseline_sitting_pose : option (list (string * Q));
  fps_var : option Z;
  stream_button : string;
  buttons : string
}.

(** The clock of the frame sender, the time one pass of the worker took
    before it sleeps, and whether the send of the pose command returns. *)
Record Env : Type := mkEnv {
  clock : V3.Env;
  elapsed : Q;
  pose_command_ok : bool
}.

Definition set_core (v : State) (a : App) : App :=
  mkApp v (baseline_sequence a) (data_mode a) (data_mode_label a)
    (stop_event a) (baseline_sitting_pose a) (fps_var a) (stream_button a)
    (buttons a).

Definition set_data_mode (mode label : string) (a : App) : App :=
  mkApp (core a) (baseline_sequence a) mode label (stop_event a)
    (baseline_sitting_pose a) (fps_var a) (stream_button a) (buttons a).

Definition set_is_streaming (v : bool) (s : State) : State :=
  mkState (osc_client s) (channels s) (channel_mapping s)
    (normalization_params s) (left_turn_model s) (right_turn_model s)
    v (current_mode s) (left_turn_sequence s) (right_turn_sequence s)
    (status_label s) (duration_var s) (show_data s) (osc_send_count s)
    (osc_error_count s) (last_send_time s).

(** The calls of a trace of the application. *)
Definition calls (evs : list Event) : list (string * osc_arg) :=
  V3.calls (omap (fun ev => match ev with
                            | Streamer e => Some e
                            | _ => None
                            end) evs).

(** A handler of the frame sender run on the application. *)
Definition on_core (r : State * list V3.Event) (a : App) : App * list Event :=
  (set_core r.1 a, Streamer <$> r.2).

Definition set_real_data_mode (a : App) : App * list Event :=
  (set_data_mode "REAL" "Mode: REAL (ML Models)" a,
   [Streamer (Log "Switched to REAL data mode - using ML models");
    Streamer (Stdout "Switched to REAL data mode")]).

Definition set_mock_data_mode (a : App) : App * list Event :=
  (set_data_mode "MOCK" "Mode: MOCK (Directional)" a,
   [Streamer
      (Log ("Switched to MOCK data mode - sending /mh/LeftForeArm_roll for "
            +:+ "left turns, /mh/RightForeArm_roll for right turns"));
    Streamer (Stdout "Switched to MOCK data mode")]).

(** [COLUMN_TO_OSC]: the bone and the axis of a column of the pose. *)
Definition COLUMN_TO_OSC : list (string * (string * string)) :=
  [("Pelvis_extension", ("pelvis", "pitch"));
   ("Pelvis_lateral_flexion_rotation", ("pelvis", "roll"));
   ("Pelvis_axial_rotation", ("pelvis", "yaw"));
   ("Thorax_extension", ("spine_01", "pitch"));
   ("Thorax_lateral_flexion_rotation", ("spine_01", "roll"));
   ("Thorax_axial_rotation", ("spine_01", "yaw"));
   ("Neck_flexion", ("neck_01", "pitch"));
   ("Neck_left-ward_tilt", ("neck_01", "roll"));
   ("Neck_right-ward_rotation", ("neck_01", "yaw"));
   ("LeftHip_flexion", ("thigh_l", "pitch"));
   ("LeftHip_adduction", ("thigh_l", "roll"));
   ("LeftHip_external_rotation", ("thigh_l", "yaw"));
   ("LeftKnee_flexion", ("calf_l", "pitch"));
   ("LeftKnee_adduction", ("calf_l", "roll"));
   ("LeftKnee_external_rotation", ("calf_l", "yaw"));
   ("LeftAnkle_dorsiflexion", ("foot_l", "pitch"));
   ("LeftAnkle_inversion", ("foot_l", "roll"));
   ("LeftAnkle_internal_rotation", ("foot_l", "yaw"));
   ("RightHip_flexion", ("thigh_r", "pitch"));
   ("RightHip_adduction", ("thigh_r", "roll"));
   ("RightHip_external_rotation", ("thigh_r", "yaw"));
   ("RightKnee_flexion", ("calf_r", "pitch"));
   ("RightKnee_adduction", ("calf_r", "roll"));
   ("RightKnee_external_rotation", ("calf_r", "yaw"));
   ("RightAnkle_dorsiflexion", ("foot_r", "pitch"));
   ("RightAnkle_inversion", ("foot_r", "roll"));
   ("RightAnkle_internal_rotation", ("foot_r", "yaw"));
   ("LeftShoulder_flexion", ("clavicle_l", "pitch"));
   ("LeftShoulder_abduction", ("clavicle_l", "roll"));
   ("LeftShoulder_external_rotation", ("clavicle_l", "yaw"));
   ("LeftElbow_flexion", ("lowerarm_l", "pitch"));
   ("LeftElbow_abduction", ("lowerarm_l", "roll"));
   ("LeftElbow_pronation", ("lowerarm_l", "yaw"));
   ("LeftWrist_flexion", ("hand_l", "pitch"));
   ("LeftWrist_adduction", ("hand_l", "roll"));
   ("LeftWrist_pronation", ("hand_l", "yaw"));
   ("RightShoulder_flexion", ("clavicle_r", "pitch"));
   ("RightShoulder_abduction", ("clavicle_r", "roll"));
   ("RightShoulder_external_rotation", ("clavicle_r", "yaw"));
   ("RightElbow_flexion", ("lowerarm_r", "pitch"));
   ("RightElbow_abduction", ("lowerarm_r", "roll"));
   ("RightElbow_pronation", ("lowerarm_r", "yaw"));
   ("RightWrist_flexion", ("hand_r", "pitch"));
   ("RightWrist_adduction", ("hand_r", "roll"));
   ("RightWrist_pronation", ("hand_r", "yaw"))].

(** [table[column_name]] on a dictionary written as its items. *)
Fixpoint getitem {V} (table : list (string * V)) (column_name : string)
    : option V :=
  match table with
  | [] => None
  | (key, value) :: rest =>
      if decide (key = column_name) then Some value
      else getitem rest column_name
  end.

Definition bone_address (bone : string * string) : string :=
  "/bone/" +:+ bone.1 +:+ "/" +:+ bone.2.

(** The loop of [trigger_sitting_pose] over the items of the pose: the
    trace, [messages_sent], and whether the loop came to its end; the first
    send that raises leaves the loop. *)
Fixpoint send_pose (client : SimpleUDPClient) (pose : list (string * Q))
    : list V3.Event * nat * bool :=
  match pose with
  | [] => ([], 0%nat, true)
  | (column_name, value) :: rest =>
      match getitem COLUMN_TO_OSC column_name with
      | Some bone =>
          let osc_address := bone_address bone in
          if send_ok client osc_address (OFloat value)
          then
            let '(evs, messages_sent, completed) := send_pose client rest in
            (Sent osc_address (OFloat value) :: evs, S messages_sent,
             completed)
          else ([SendRaised osc_address (OFloat value)], 0%nat, false)
      | None => send_pose client rest
      end
  end.

(** [trigger_sitting_pose]; it assigns no attribute.  The last message takes
    [min] and [max] of the values of the pose, which raise on an empty
    pose. *)
Definition trigger_sitting_pose (env : Env) (a : App) : list Event :=
  match baseline_sitting_pose a with
  | None => [Streamer (Log "Baseline sitting pose not loaded")]
  | Some pose =>
      match osc_client (core a) with
      | None => [Streamer (Log "OSC client not available")]
      | Some client =>
          if pose_command_ok env then
            let '(evs, messages_sent, completed) := send_pose client pose in
            [PoseCommand true;
             Streamer (Log "Sent pose command: sitting with 0.35s blend")]
            ++ (Streamer <$> evs)
            ++ (if completed
                then [Streamer (Log "Sent sitting pose");
                      Streamer (Log (match pose with
                                     | [] => "Error sending sitting pose"
                                     | _ => "Pose range"
                                     end))]
                else [Streamer (Log "Error sending sitting pose")])
          else [PoseCommand false;
                Streamer (Log "Error sending sitting pose")]
      end
  end.

Definition start_streaming (a : App) : App * list Event :=
  match baseline_sequence a with
  | None => (a, [ShowError "Error" "Baseline sequence not available"])
  | Some _ =>
      match osc_client (core a) with
      | None =>
          (a, [ShowError "Error"
                 "OSC client not initialized. Please check your OSC settings."])
      | Some _ =>
          (mkApp
             (set_status_label "Streaming Baseline..."
                (set_is_streaming true (core a)))
             (baseline_sequence a) (data_mode a) (data_mode_label a) false
             (baseline_sitting_pose a) (fps_var a) "Stop Streaming" "normal",
           [ThreadStart; Streamer (Log "Started streaming baseline");
            Streamer (Stdout "Started streaming")])
      end
  end.

Definition stop_streaming (a : App) : App * list Event :=
  (mkApp (set_status_label "Stopped" (set_is_streaming false (core a)))
     (baseline_sequence a) (data_mode a) (data_mode_label a) true
     (baseline_sitting_pose a) (fps_var a) "Start Streaming" "disabled",
   [Streamer (Log "Stopped streaming"); Streamer (Stdout "Stopped streaming")]).

Definition toggle_streaming (a : App) : App * list Event :=
  if negb (is_streaming (core a)) then start_streaming a
  else stop_streaming a.

(** [process_text_command]: the parsed command is logged, then handled. *)
Definition process_text_command (env : Env) (command_text : string) (a : App)
    : App * list Event :=
  let '(action, original_text, confidence) :=
    NLPCommandParser.parse_command command_text in
  let '(a1, evs) :=
    match action with
    | NLPCommandParser.TURN_LEFT =>
        on_core (start_left_turn (clock env) (core a)) a
    | NLPCommandParser.TURN_RIGHT =>
        on_core (start_right_turn (clock env) (core a)) a
    | NLPCommandParser.BASELINE => on_core (return_to_baseline (core a)) a
    | NLPCommandParser.POSE_SITTING => (a, trigger_sitting_pose env a)
    | NLPCommandParser.STOP => stop_streaming a
    | NLPCommandParser.UNKNOWN => (a, [Streamer (Log "Unknown command")])
    end in
  (a1, Streamer (Log "Command") :: evs).

(** The commands of the four quick-action buttons. *)
Definition left_button (env : Env) (a : App) : App * list Event :=
  process_text_command env "turn left" a.
Definition right_button (env : Env) (a : App) : App * list Event :=
  process_text_command env "turn right" a.
Definition baseline_button (env : Env) (a : App) : App * list Event :=
  process_text_command env "basic position" a.
Definition sit_button (env : Env) (a : App) : App * list Event :=
  process_text_command env "sit" a.

Section Worker.

(** [math.sin]; floating-point sine is not computed here, the properties
    below state what they need of it. *)
Variable sin : Q -> Q.

(** The signal of a mock frame: its address and its value. *)
Definition mock_signal (current_mode : string) (frame_count : Z)
    : string * Q :=
  let time_factor := inject_Z frame_count * (1 # 10) in
  if decide (current_mode = "TURNING_LEFT")
  then ("/mh/LeftForeArm_roll", 30 + 20 * sin time_factor)
  else if decide (current_mode = "TURNING_RIGHT")
  then ("/mh/RightForeArm_roll", 30 + 20 * sin time_factor)
  else ("/mh/LeftForeArm_roll", 5 * sin (time_factor * (1 # 2))).

Definition stream_mock_frame (env : V3.Env) (frame_count : Z) (s : State)
    : State * list V3.Event :=
  match osc_client s with
  | None => (s, [Log "OSC client not available"])
  | Some client =>
      let '(osc_address, value) := mock_signal (current_mode s) frame_count in
      let '(evs, ok, err) :=
        if send_ok client osc_address (OFloat value)
        then ([Sent osc_address (OFloat value)], 1%nat, 0%nat)
        else ([SendRaised osc_address (OFloat value); Log "OSC send error"],
              0%nat, 1%nat) in
      let '(evc, okc, errc) :=
        send_control client frame_count (current_mode s +:+ "_MOCK") in
      (set_stats (osc_send_count s + (ok + okc))
         (osc_error_count s + (err + errc)) (time env) s,
       evs ++ evc ++ [AfterUpdateStats] ++
       (if show_data s && (frame_count mod 30 =? 0)%Z
        then [Log "Mock Frame"] else []))
  end.

(** The sequence the worker streams from in real data mode. *)
Definition current_sequence (a : App) : option Sequence :=
  let s := core a in
  match (if decide (current_mode s = "TURNING_LEFT")
         then left_turn_sequence s else None) with
  | Some sequence => Some sequence
  | None =>
      match (if decide (current_mode s = "TURNING_RIGHT")
             then right_turn_sequence s else None) with
      | Some sequence => Some sequence
      | None => baseline_sequence a
      end
  end.

(** A worker thread: before its first pass, in its loop with the frame
    duration it computed and its frame count, or ended. *)
Inductive Thread : Type :=
  | Starting
  | Looping (frame_duration : Q) (frame_count : Z)
  | Ended.

(** The end of a pass: the frame count goes up and the thread sleeps for
    what is left of the frame. *)
Definition next_frame (env : Env) (frame_duration : Q) (frame_count : Z)
    (a : App) (evs : list Event) : App * list Event * Thread :=
  (a, evs ++ [Sleep (py_max 0 (frame_duration - elapsed env))],
   Looping frame_duration (frame_count + 1)).

(** One pass of the loop of [stream_worker]; the thread ends where the pass
    raises. *)
Definition stream_worker_pass (env : Env) (frame_duration : Q)
    (frame_count : Z) (a : App) : App * list Event * Thread :=
  if decide (data_mode a = "MOCK") then
    let '(s, evs) := stream_mock_frame (clock env) frame_count (core a) in
    next_frame env frame_duration frame_count (set_core s a)
      (Streamer <$> evs)
  else
    match current_sequence a with
    | Some sequence =>
        if decide (length sequence = 0%nat)
        then (a, [Streamer (Uncaught "ZeroDivisionError")], Ended)
        else
          let frame_idx := (frame_count mod Z.of_nat (length sequence))%Z in
          match sequence !! Z.to_nat frame_idx with
          | Some frame_data =>
              let '(s, evs) :=
                stream_frame (clock env) frame_data frame_count (core a) in
              next_frame env frame_duration frame_count (set_core s a)
                (Streamer <$> evs)
          | None => (a, [Streamer (Uncaught "IndexError")], Ended)
          end
    | None => next_frame env frame_duration frame_count a []
    end.

(** One step of a worker thread: the frame duration is computed first;
    then each step tests [stop_event] and makes one pass. *)
Definition stream_worker_step (env : Env) (t : Thread) (a : App)
    : App * list Event * Thread :=
  match t with
  | Starting =>
      match fps_var a with
      | None => (a, [Streamer (Uncaught "ValueError")], Ended)
      | Some fps =>
          if decide (fps = 0%Z)
          then (a, [Streamer (Uncaught "ZeroDivisionError")], Ended)
          else (a, [], Looping (1 / inject_Z fps) 0)
      end
  | Looping frame_duration frame_count =>
      if stop_event a then (a, [], Ended)
      else stream_worker_pass env frame_duration frame_count a
  | Ended => (a, [], Ended)
  end.

(** A worker thread run for one step per environment. *)
Fixpoint stream_worker (envs : list Env) (t : Thread) (a : App)
    : App * list Event * Thread :=
  match envs with
  | [] => (a, [], t)
  | env :: rest =>
      let '(a1, evs1, t1) := stream_worker_step env t a in
      let '(a2, evs2, t2) := stream_worker rest t1 a1 in
      (a2, evs1 ++ evs2, t2)
  end.

End Worker.

End V3App.

(** ** What a sitting pose sends *)

Module Pose.
Import V3 V3App.

(** The bone messages of a pose: one for every column that
    [COLUMN_TO_OSC] knows, in the order of the pose. *)
Definition pose_messages (pose : list (string * Q))
    : list (string * osc_arg) :=
  omap (fun item : string * Q =>
          (fun bone => (bone_address bone, OFloat item.2))
          <$> getitem COLUMN_TO_OSC item.1) pose.

(** The messages up to and including the first whose send raises. *)
Fixpoint until_raise (client : SimpleUDPClient)
    (messages : list (string * osc_arg)) : list (string * osc_arg) :=
  match messages with
  | [] => []
  | message :: rest =>
      if send_ok client message.1 message.2
      then message :: until_raise client rest
      else [message]
  end.

(** Whether no two columns of a table are sent to the same address. *)
Definition addresses_distinct (table : list (string * (string * string)))
    : bool :=
  forallb (fun x =>
    forallb (fun y =>
      negb (String.eqb (bone_address x.2) (bone_address y.2))
      || String.eqb x.1 y.1) table) table.

End Pose.

(** ** Further example states *)

Module MoreExamples.

(** The floats written [0.35], [0.01] and [0.3333333333333333]. *)
Definition float_0_35 : Q := 3152519739159347 # 9007199254740992.
Definition float_0_01 : Q := 5764607523034235 # 576460752303423488.
Definition float_third : Q := 6004799503160661 # 18014398509481984.

(** A worker of the scheduler with a client and no channel. *)
Definition no_channels : Gui.System :=
  Gui.mkSystem
    (Gui.mkState (Examples.gui_settings 1 0) (Some Examples.accept_all) true
       [] Gui.MODES.IDLE [] None 0 0 0 true 1 0 0) [].

(** A pose of four columns, the second of which is no bone. *)
Definition sitting : list (string * Q) :=
  [("Pelvis_extension", 1); ("Timestamp", 0); ("Neck_flexion", 2);
   ("LeftKnee_flexion", 3)].

(** A transport that raises on the neck. *)
Definition no_neck : SimpleUDPClient :=
  mkClient (fun addr _ => negb (String.eqb addr "/bone/neck_01/pitch")).

(** An application around a frame sender, as it is before streaming
    starts, with the given baseline and frame rate. *)
Definition app_with (baseline : option V3.Sequence) (fps : option Z)
    (s : V3.State) : V3App.App :=
  V3App.mkApp s baseline "REAL" "Mode: REAL" false (Some sitting) fps
    "Start Streaming" "disabled".

(** With a baseline of three frames of two features at 30 frames per
    second; with a frame-rate entry that is no number; and with a baseline
    that has no frame. *)
Definition app : V3.State -> V3App.App :=
  app_with (Some [[1; 2]; [3; 4]; [5; 6]]) (Some 30%Z).
Definition app_without_rate : V3.State -> V3App.App :=
  app_with (Some [[1; 2]; [3; 4]; [5; 6]]) None.
Definition app_without_frames : V3.State -> V3App.App :=
  app_with (Some []) (Some 30%Z).

Definition app_env : V3App.Env := V3App.mkEnv Examples.v3_env (1 # 100) true.

(** A frame sender in the middle of a left turn of two frames. *)
Definition turning_left : V3.State :=
  V3.mkState (Some Examples.accept_all) [Examples.neck]
    {["Neck_flexion" := 0%nat]} None (Some 1%nat) (Some 2%nat) true
    "TURNING_LEFT" (Some [[7; 8]; [9; 10]]) None "Turning Left..." (Some 2)
    true 0 0 0.

(** A frame sender that was never started, on the transport that raises on
    the neck. *)
Definition stopped : V3.State :=
  V3.mkState (Some no_neck) [Examples.neck] {["Neck_flexion" := 0%nat]} None
    (Some 1%nat) (Some 2%nat) false "BASELINE" None None "Ready" (Some 2)
    true 0 0 0.

End MoreExamples.


(** * Properties of the scheduler ([mh_streamer_gui.py]) *)

Module GuiTheory.
Import Gui GuiMore.

Lemma cubic_mono (s t : Q) : 0 <= s -> s <= t -> t <= 1 ->
  3 * s ^ 2 - 2 * s ^ 3 <= 3 * t ^ 2 - 2 * t ^ 3.
Proof.
  intros H0 Hst H1.
  assert (Hd : 3 * t ^ 2 - 2 * t ^ 3 - (3 * s ^ 2 - 2 * s ^ 3)
               == (t - s) * (t * (1 - s) + s * (1 - t) + 2 * t * (1 - t) + 2 * s * (1 - s))) by ring.
  assert (0 <= (t - s) * (t * (1 - s) + s * (1 - t) + 2 * t * (1 - t) + 2 * s * (1 - s))).
  { apply Qmult_le_0_compat; [lra|]. 
    assert (0 <= t * (1 - s)) by (apply Qmult_le_0_compat; lra).
    assert (0 <= s * (1 - t)) by (apply Qmult_le_0_compat; lra).
    assert (0 <= t * (1 - t)) by (apply Qmult_le_0_compat; lra).
    assert (0 <= s * (1 - s)) by (apply Qmult_le_0_compat; lra).
    lra. }
  lra.
Qed.


Lemma linspace_lookup (n : Z) (i : nat) : (1 < n)%Z ->
  forall ts, np.linspace 0 1 n = Some ts ->
  length ts = Z.to_nat n /\
  (forall t, ts !! i = Some t -> t = sample n i).
Proof.
  intros Hn ts. unfold np.linspace.
  destruct (Z.ltb_spec n 0); [lia|].
  destruct (Z.eqb_spec n 0); [lia|].
  destruct (Z.eqb_spec n 1); [lia|].
  intros [= <-]. split.
  - rewrite length_app, length_map, length_seq. simpl. lia.
  - intros t Ht. unfold sample.
    destruct (Nat.ltb_spec i (Z.to_nat (n - 1))) as [Hi|Hi].
    + rewrite lookup_app_l in Ht by (rewrite length_map, length_seq; lia).
      rewrite list_lookup_fmap, lookup_seq_lt in Ht by lia.
      simpl in Ht. congruence.
    + rewrite lookup_app_r in Ht by (rewrite length_map, length_seq; lia).
      rewrite length_map, length_seq in Ht.
      destruct (i - Z.to_nat (n - 1))%nat as [|k]; simpl in Ht; [congruence|]. rewrite lookup_nil in Ht. discriminate.
Qed.

Lemma sample_bounds (n : Z) (i : nat) : (1 < n)%Z -> 0 <= sample n i <= 1.
Proof.
  intros Hn. unfold sample.
  destruct (Nat.ltb_spec i (Z.to_nat (n - 1))) as [Hi|Hi]; [|lra].
  assert (Hd : 0 < inject_Z (n - 1)) by (change 0 with (inject_Z 0); rewrite <- Zlt_Qlt; lia).
  assert (Ha : 0 <= inject_Z (Z.of_nat i)) by (change 0 with (inject_Z 0); rewrite <- Zle_Qle; lia).
  assert (Hb : inject_Z (Z.of_nat i) <= inject_Z (n - 1)) by (rewrite <- Zle_Qle; lia).
  set (a := inject_Z (Z.of_nat i)) in *. set (d := inject_Z (n - 1)) in *.
  assert (Hs : a * ((1 - 0) / d) + 0 == a / d) by (field; lra).
  rewrite Hs. split.
  - apply Qle_shift_div_l; lra.
  - apply Qle_shift_div_r; lra.
Qed.

Lemma sample_mono (n : Z) (i j : nat) : (1 < n)%Z -> (i <= j)%nat ->
  sample n i <= sample n j.
Proof.
  intros Hn Hij. pose proof (sample_bounds n i Hn) as Hbi. unfold sample in *.
  destruct (Nat.ltb_spec j (Z.to_nat (n - 1))) as [Hj|Hj].
  - destruct (Nat.ltb_spec i (Z.to_nat (n - 1))) as [Hi|Hi]; [|lia].
    assert (Hd : 0 < inject_Z (n - 1)) by (change 0 with (inject_Z 0); rewrite <- Zlt_Qlt; lia).
    assert (Hb : inject_Z (Z.of_nat i) <= inject_Z (Z.of_nat j)) by (rewrite <- Zle_Qle; lia).
    set (a := inject_Z (Z.of_nat i)) in *. set (b := inject_Z (Z.of_nat j)) in *.
    set (d := inject_Z (n - 1)) in *.
    assert (Hs : 0 <= (1 - 0) / d) by (apply Qle_shift_div_l; lra).
    assert (a * ((1 - 0) / d) <= b * ((1 - 0) / d)) by (apply Qmult_le_compat_r; lra).
    lra.
  - lra.
Qed.

(** The envelope for more than one frame: the cubic law at each sample. *)
Lemma build_envelope_samples (n : Z) :
  (1 < n)%Z ->
  exists e,
    build_envelope n = Some e /\ length e = Z.to_nat n /\
    forall i x, e !! i = Some x ->
      x = 3 * sample n i ^ 2 - 2 * sample n i ^ 3.
Proof.
  intros Hn. unfold build_envelope.
  destruct (np.linspace 0 1 n) as [ts|] eqn:Hts.
  2:{ unfold np.linspace in Hts.
      destruct (Z.ltb_spec n 0); [lia|].
      destruct (n =? 0)%Z; [discriminate|].
      destruct (n =? 1)%Z; discriminate. }
  simpl. eexists. split; [reflexivity|].
  split; [rewrite length_map; apply (linspace_lookup n 0 Hn ts Hts)|].
  intros i x Hx. rewrite list_lookup_fmap in Hx.
  destruct (ts !! i) as [t|] eqn:Ht; [|discriminate].
  injection Hx as <-.
  by rewrite (proj2 (linspace_lookup n i Hn ts Hts) t Ht).
Qed.

Lemma sample_first (n : Z) : (1 < n)%Z -> sample n 0 == 0.
Proof.
  intros Hn. unfold sample.
  destruct (Nat.ltb_spec 0 (Z.to_nat (n - 1))); [|lia]. simpl. ring.
Qed.

Lemma sample_last (n : Z) : (1 < n)%Z -> sample n (Z.to_nat n - 1) = 1.
Proof.
  intros Hn. unfold sample.
  by destruct (Nat.ltb_spec (Z.to_nat n - 1) (Z.to_nat (n - 1))); [lia|].
Qed.

(** The last value of an envelope of more than one frame is 1. *)
Lemma envelope_last (n : Z) :
  (1 < n)%Z ->
  exists e y, build_envelope n = Some e /\ last e = Some y /\ y == 1.
Proof.
  intros Hn. destruct (build_envelope_samples n Hn) as (e & He & Hlen & Hat).
  destruct (e !! (Z.to_nat n - 1)%nat) as [y|] eqn:Hy.
  2:{ apply lookup_ge_None in Hy. lia. }
  exists e, y. split; [done|]. split.
  - rewrite last_lookup, Hlen. by replace (Nat.pred (Z.to_nat n))
      with (Z.to_nat n - 1)%nat by lia.
  - rewrite (Hat _ _ Hy), sample_last by done. ring.
Qed.

Lemma calls_app (a b : list Event) : calls (a ++ b) = calls a ++ calls b.
Proof. apply omap_app. Qed.

Lemma callbacks_app (a b : list Event) :
  callbacks (a ++ b) = callbacks a ++ callbacks b.
Proof. apply omap_app. Qed.

Lemma send_loop_values client on_error (l : list (string * Q)) :
  calls on_error = [] ->
  exists evs ok err,
    send_loop client on_error (map (fun p => (p.1, Some p.2)) l)
      = (evs, ok, err, false) /\
    calls evs = map (fun p => (p.1, OFloat p.2)) l /\
    (on_error = [] -> callbacks evs = []).
Proof.
  intros Hno. induction l as [|[addr v] l IH]; simpl.
  - by exists [], 0%nat, 0%nat.
  - destruct IH as (evs & ok & err & -> & IH1 & IH2).
    destruct (send_ok client addr (OFloat v)).
    + eexists _, _, _. split; [reflexivity|]. simpl. rewrite IH1. auto.
    + eexists _, _, _. split; [reflexivity|]. simpl.
      rewrite calls_app, Hno, IH1. split; [done|].
      intros ->. simpl. auto.
Qed.

Lemma ramp_items_zip (pick : list Q -> option Q) data chs (vals : list Q) :
  length data = length chs ->
  Forall2 (fun row y => pick row = Some y) data vals ->
  ramp_items pick data chs
    = map (fun p => (p.1, Some p.2))
          (zip_with (fun ch y => (address ch, y)) chs vals).
Proof.
  unfold ramp_items. intros Hlen Hv. revert chs Hlen.
  induction Hv as [|row y data vals Hy Hv IH]; intros [|ch chs] Hlen;
    simpl in *; try done.
  rewrite Hy. simpl. f_equal. rewrite <- IH by lia. done.
Qed.



Lemma repeat_calls_length f k s : length (repeat_calls f k s).2 = k.
Proof.
  revert s. induction k as [|k IH]; intros s; simpl; [done|].
  destruct (f s) as [s1 evs]. specialize (IH s1).
  destruct (repeat_calls f k s1) as [s2 rest]. simpl in *. by rewrite IH.
Qed.

Lemma hold_frame_step env client chs data finals frames s :
  holding client chs data frames s ->
  length data = length chs ->
  Forall2 (fun row y => last row = Some y) data finals ->
  exists s1 evs,
    send_ramp_frame env s = (s1, evs) /\
    holding client chs data frames s1 /\
    running s1 = running s /\ command_queue s1 = command_queue s /\
    current_mode s1 = current_mode s /\
    if (Z.of_nat (hold_frame s) <? frames)%Z
    then hold_frame s1 = (hold_frame s + 1)%nat /\
         calls evs = hold_calls chs finals /\ callbacks evs = []
    else s1 = s /\
         evs = [After (command_queue_put COMMANDS.START_HEARTBEAT)].
Proof.
  intros [Hc Hch Hd Hf (row0 & Hr0 & Hex)] Hlen Hfin.
  unfold send_ramp_frame. rewrite Hc, Hd.
  destruct data as [|r data']; [done|]. simpl in Hr0. injection Hr0 as ->.
  destruct (Nat.leb_spec (length row0) (ramp_frame s)); [|lia].
  rewrite Hf, Hch.
  destruct (Z.ltb_spec (Z.of_nat (hold_frame s)) frames).
  - rewrite (ramp_items_zip np.last_item _ _ finals Hlen Hfin).
    destruct (send_loop_values client [] (zip_with (fun ch y => (address ch, y)) chs finals) eq_refl)
      as (evs & ok & err & -> & Hcalls & Hcb).
    eexists _, _. split; [reflexivity|].
    split; [|do 3 (split; [done|]); split; [done|split]].
    + split; simpl; try done. by exists row0.
    + rewrite Hcalls. unfold hold_calls. clear.
      revert finals. induction chs as [|ch chs IH]; intros [|y finals]; simpl; try done.
      by rewrite IH.
    + by apply Hcb.
  - eexists _, _. split; [reflexivity|]. split; [|done].
    split; try done. by exists row0.
Qed.

Lemma hold_frames_done env client chs data finals frames s k :
  holding client chs data frames s ->
  length data = length chs ->
  Forall2 (fun row y => last row = Some y) data finals ->
  (Z.to_nat frames - hold_frame s <= k)%nat ->
  let s' := (repeat_calls (send_ramp_frame env) k s).1 in
  holding client chs data frames s' /\
  (frames <= Z.of_nat (hold_frame s'))%Z /\
  running s' = running s /\ command_queue s' = command_queue s /\
  current_mode s' = current_mode s.
Proof.
  intros Hh Hlen Hfin. revert s Hh.
  induction k as [|k IH]; intros s Hh Hk; simpl.
  - split; [done|]. split; [lia|done].
  - destruct (hold_frame_step env client chs data finals frames s Hh Hlen Hfin)
      as (s1 & evs1 & -> & Hh1 & Hr & Hq & Hm & Hstep).
    assert (Hk1 : (Z.to_nat frames - hold_frame s1 <= k)%nat).
    { destruct (Z.ltb_spec (Z.of_nat (hold_frame s)) frames).
      - destruct Hstep as (-> & _). lia.
      - destruct Hstep as (-> & _). lia. }
    specialize (IH s1 Hh1 Hk1).
    destruct (repeat_calls (send_ramp_frame env) k s1) as [s2 rest].
    simpl in *. destruct IH as (? & ? & -> & -> & ->). auto.
Qed.

Lemma hold_phase_frames env client chs data finals frames s k :
  holding client chs data frames s ->
  length data = length chs ->
  Forall2 (fun row y => last row = Some y) data finals ->
  forall j evs, (repeat_calls (send_ramp_frame env) k s).2 !! j = Some evs ->
    if (j <? Z.to_nat frames - hold_frame s)%nat
    then calls evs = hold_calls chs finals /\ callbacks evs = []
    else evs = [After (command_queue_put COMMANDS.START_HEARTBEAT)].
Proof.
  intros Hh Hlen Hfin. revert s Hh.
  induction k as [|k IH]; intros s Hh j evs; simpl; [by rewrite lookup_nil|].
  destruct (hold_frame_step env client chs data finals frames s Hh Hlen Hfin)
    as (s1 & evs1 & -> & Hh1 & _ & _ & _ & Hstep).
  specialize (IH s1 Hh1).
  destruct (repeat_calls (send_ramp_frame env) k s1) as [s2 rest]. simpl in *.
  destruct j as [|j]; simpl.
  - intros [= <-].
    destruct (Z.ltb_spec (Z.of_nat (hold_frame s)) frames).
    + destruct (Nat.ltb_spec 0 (Z.to_nat frames - hold_frame s)); [|lia]. tauto.
    + destruct (Nat.ltb_spec 0 (Z.to_nat frames - hold_frame s)); [lia|]. tauto.
  - intros Hj. specialize (IH j evs Hj).
    destruct (Z.ltb_spec (Z.of_nat (hold_frame s)) frames).
    + destruct Hstep as (Hhf & _). rewrite Hhf in IH.
      destruct (Nat.ltb_spec j (Z.to_nat frames - (hold_frame s + 1)));
      destruct (Nat.ltb_spec (S j) (Z.to_nat frames - hold_frame s)); try lia; done.
    + destruct Hstep as (-> & _).
      destruct (Nat.ltb_spec j (Z.to_nat frames - hold_frame s));
      destruct (Nat.ltb_spec (S j) (Z.to_nat frames - hold_frame s)); try lia; done.
Qed.


Lemma drain_unfold (s : State) (cbs : list GuiCallback) :
  drain (mkSystem s cbs)
  = mkSystem (foldl (fun s cb => run_callback cb s) s cbs) [].
Proof.
  unfold drain. simpl. revert s.
  induction cbs as [|cb cbs IH]; intros s; simpl; [done|].
  rewrite <- IH. clear IH. generalize (length cbs) as n.
  induction n as [|n IHn]; simpl; [done|]. by rewrite IHn.
Qed.

Lemma hold_complete_step env client chs data frames s :
  holding client chs data frames s ->
  (frames <= Z.of_nat (hold_frame s))%Z ->
  send_ramp_frame env s
  = (s, [After (command_queue_put COMMANDS.START_HEARTBEAT)]).
Proof.
  intros [Hc Hch Hd Hf (row0 & Hr0 & Hex)] Hdone.
  unfold send_ramp_frame. rewrite Hc, Hd.
  destruct data as [|r data']; [done|]. simpl in Hr0. injection Hr0 as ->.
  destruct (Nat.leb_spec (length row0) (ramp_frame s)); [|lia].
  rewrite Hf. destruct (Z.ltb_spec (Z.of_nat (hold_frame s)) frames); [lia|done].
Qed.


Lemma check_connection_timeout_cases env s :
  check_connection_timeout env s = (s, []) \/
  check_connection_timeout env s
  = (set_connection_active false s,
     [After (update_connection_status "Timeout" "orange");
      After (log_message "Connection timeout - no recent OSC activity")]).
Proof.
  unfold check_connection_timeout.
  destruct (connection_active s && Qltb 0 (last_send_time s)); [|by left].
  destruct (Qltb connection_timeout (time env - last_send_time s)); auto.
Qed.

Lemma frame_sleep_cases s :
  (exists d, frame_sleep s = [Sleep d]) \/
  frame_sleep s = [After (log_message "Worker error"); Sleep (1 # 10)].
Proof.
  unfold frame_sleep. destruct (fps_var (settings s)) as [fps|]; [|by right].
  destruct (0 <? fps)%Z; eauto.
Qed.





Lemma drain_run_callbacks (s : State) (cbs : list GuiCallback) :
  drain (mkSystem s cbs) = mkSystem (run_callbacks cbs s) [].
Proof. apply drain_unfold. Qed.

Lemma run_callbacks_spec cbs s :
  current_mode (run_callbacks cbs s)
    = default (current_mode s) (last (statuses cbs)) /\
  command_queue (run_callbacks cbs s) = command_queue s ++ puts cbs /\
  osc_client (run_callbacks cbs s) = osc_client s /\
  channels (run_callbacks cbs s) = channels s /\
  ramp_data (run_callbacks cbs s) = ramp_data s /\
  ramp_frame (run_callbacks cbs s) = ramp_frame s /\
  hold_frames (run_callbacks cbs s) = hold_frames s /\
  hold_frame (run_callbacks cbs s) = hold_frame s /\
  running (run_callbacks cbs s) = running s.
Proof.
  revert s. induction cbs as [|cb cbs IH]; intros s; simpl.
  - by rewrite app_nil_r.
  - destruct (IH (run_callback cb s)) as (-> & -> & -> & -> & -> & -> & -> & -> & ->).
    destruct cb; simpl; rewrite <- ?app_assoc; repeat split; try done.
    rewrite last_cons. by destruct (last (statuses cbs)).
Qed.

Lemma timeout_quiet env s :
  exists (b : bool) evs, check_connection_timeout env s
                = ((if b then set_connection_active false s else s), evs) /\
    statuses (callbacks evs) = [] /\ puts (callbacks evs) = [].
Proof.
  destruct (check_connection_timeout_cases env s) as [-> | ->].
  - by exists false, [].
  - by eexists true, _.
Qed.

Lemma frame_sleep_quiet s :
  statuses (callbacks (frame_sleep s)) = [] /\
  puts (callbacks (frame_sleep s)) = [].
Proof. by destruct (frame_sleep_cases s) as [[d ->] | ->]. Qed.

Lemma holding_active client chs data frames s (b : bool) :
  holding client chs data frames s ->
  holding client chs data frames (if b then set_connection_active false s else s).
Proof. intros [? ? ? ? ?]. by destruct b. Qed.

Lemma start_osc_client_holding env client chs data frames s :
  holding client chs data frames s ->
  exists s1 evs client1,
    start_osc_client env s = (s1, evs) /\
    holding client1 chs data frames s1 /\
    hold_frame s1 = hold_frame s /\ current_mode s1 = current_mode s /\
    statuses (callbacks evs) = [] /\ puts (callbacks evs) = [].
Proof.
  intros [? ? ? ? ?]. unfold start_osc_client.
  destruct (port_var (settings s)) as [port|].
  - destruct (new_client env (ip_var (settings s)) port) as [c|].
    + by eexists _, _, c.
    + by eexists _, _, client.
  - by eexists _, _, client.
Qed.

Lemma ramp_mode_complete env client chs data frames s :
  holding client chs data frames s ->
  (frames <= Z.of_nat (hold_frame s))%Z ->
  ramp_mode (current_mode s) ->
  handle_current_mode env s
  = (s, [After (command_queue_put COMMANDS.START_HEARTBEAT)]).
Proof.
  intros Hh Hdone Hm. unfold handle_current_mode.
  destruct Hm as [-> | [-> | ->]];
    by apply (hold_complete_step env client chs data frames).
Qed.


Lemma statuses_app (a b : list Event) :
  statuses (callbacks (a ++ b)) = statuses (callbacks a) ++ statuses (callbacks b).
Proof. unfold statuses. by rewrite callbacks_app, omap_app. Qed.

Lemma puts_app (a b : list Event) :
  puts (callbacks (a ++ b)) = puts (callbacks a) ++ puts (callbacks b).
Proof. unfold puts. by rewrite callbacks_app, omap_app. Qed.

Lemma statuses_After cb (evs : list Event) :
  statuses (callbacks (After cb :: evs))
  = statuses [cb] ++ statuses (callbacks evs).
Proof. by destruct cb. Qed.

Lemma puts_After cb (evs : list Event) :
  puts (callbacks (After cb :: evs)) = puts [cb] ++ puts (callbacks evs).
Proof. by destruct cb. Qed.

(** One round: a pass of the worker loop, then the GUI thread running
    every callback it has been handed. *)
Lemma round_spec env s :
  running s = true ->
  exists s1 evs,
    worker_iteration env s = (s1, evs) /\
    drain (step (Tick env) (mkSystem s [])) =
      mkSystem (run_callbacks (callbacks evs) s1) [].
Proof.
  intros Hrun. simpl. rewrite Hrun.
  destruct (worker_iteration env s) as [s1 evs].
  exists s1, evs. split; [done|]. apply drain_run_callbacks.
Qed.

Lemma revert_to_heartbeat env1 env2 client chs data frames s :
  holding client chs data frames s ->
  (frames <= Z.of_nat (hold_frame s))%Z ->
  running s = true -> command_queue s = [] -> ramp_mode (current_mode s) ->
  let sys1 := drain (step (Tick env1) (mkSystem s [])) in
  let sys2 := drain (step (Tick env2) sys1) in
  command_queue (worker sys1) = [COMMANDS.START_HEARTBEAT] /\
  current_mode (worker sys1) = current_mode s /\
  current_mode (worker sys2) = MODES.HEARTBEAT.
Proof.
  intros Hh Hdone Hrun Hq Hmode.
  assert (H1 : exists s1, drain (step (Tick env1) (mkSystem s [])) = mkSystem s1 []
     /\ holding client chs data frames s1 /\ hold_frame s1 = hold_frame s
     /\ running s1 = true /\ current_mode s1 = current_mode s
     /\ command_queue s1 = [COMMANDS.START_HEARTBEAT]).
  { destruct (round_spec env1 s Hrun) as (s1 & evs & Hit & ->).
    eexists. split; [reflexivity|].
    unfold worker_iteration, process_commands, get_nowait in Hit.
    rewrite Hq in Hit.
    destruct (timeout_quiet env1 s) as (b & ev2 & E2 & Hs2 & Hp2).
    rewrite E2 in Hit.
    pose proof (holding_active _ _ _ _ _ b Hh) as Hh2.
    rewrite (ramp_mode_complete env1 client chs data frames) in Hit
      by (destruct b; auto).
    injection Hit as <- <-.
    set (s' := if b then set_connection_active false s else s) in *.
    destruct (frame_sleep_quiet s') as [Hs4 Hp4].
    match goal with |- context [run_callbacks (callbacks ?e) _] => set (evs := e) end.
    assert (Hst : statuses (callbacks evs) = [])
      by (subst evs; by rewrite ?statuses_app, ?statuses_After, Hs2, Hs4).
    assert (Hpt : puts (callbacks evs) = [COMMANDS.START_HEARTBEAT])
      by (subst evs; by rewrite ?puts_app, ?puts_After, Hp2, Hp4).
    destruct (run_callbacks_spec (callbacks evs) s')
      as (Hm & Hcq & Hc & Hch & Hd & Hrf & Hhfs & Hhf & Hr).
    rewrite Hst in Hm. rewrite Hpt in Hcq. simpl in Hm.
    destruct Hh2 as [? ? ? ? (row0 & ? & ?)].
    assert (Hs' : current_mode s' = current_mode s /\ hold_frame s' = hold_frame s
                  /\ running s' = running s /\ command_queue s' = command_queue s)
      by (subst s'; by destruct b).
    destruct Hs' as (? & ? & ? & ?).
    split; [split|]; try congruence.
    - exists row0. split; [done|]. congruence.
    - rewrite Hcq. repeat split; try congruence.
      replace (command_queue s') with (@nil COMMANDS.t) by congruence. done. }
  destruct H1 as (s1 & E1 & Hh1 & Hf1 & Hr1 & Hm1 & Hq1).
  cbv zeta. rewrite E1.
  destruct (round_spec env2 s1 Hr1) as (s3 & evs & Hit & ->). simpl worker.
  split; [done|]. split; [done|].
  unfold worker_iteration, process_commands, get_nowait in Hit.
  rewrite Hq1 in Hit. simpl handle_command in Hit.
  assert (Hh1' : holding client chs data frames (set_command_queue [] s1)).
  { destruct Hh1 as [? ? ? ? ?]. by split. }
  destruct (start_osc_client_holding env2 _ _ _ _ _ Hh1')
    as (s2 & ev1 & client2 & E & Hh2 & Hf2 & Hm2 & Hs1 & Hp1).
  rewrite E in Hit.
  destruct (timeout_quiet env2 s2) as (b & ev2 & E2 & Hs2 & Hp2).
  rewrite E2 in Hit.
  pose proof (holding_active _ _ _ _ _ b Hh2) as Hh3.
  set (s' := if b then set_connection_active false s2 else s2) in *.
  assert (Hs' : current_mode s' = current_mode s2 /\ hold_frame s' = hold_frame s2)
    by (subst s'; by destruct b).
  destruct Hs' as (Hm' & Hf').
  rewrite (ramp_mode_complete env2 client2 chs data frames) in Hit; auto.
  2:{ rewrite Hf', Hf2. simpl. lia. }
  2:{ rewrite Hm', Hm2. simpl. by rewrite Hm1. }
  injection Hit as <- <-.
  destruct (frame_sleep_quiet s') as [Hs4 Hp4].
  match goal with |- current_mode (run_callbacks (callbacks ?e) ?st) = _ =>
    set (evs := e); destruct (run_callbacks_spec (callbacks evs) st) as (-> & _)
  end.
  subst evs. by rewrite ?statuses_app, ?statuses_After, ?statuses_app, ?statuses_After, Hs1, Hs2, Hs4.
Qed.

Lemma finals_of_ramp direction (e : list Q) y1 chs finals :
  last e = Some y1 -> y1 == 1 ->
  Forall2 (fun row y => last row = Some y)
    (map (fun ch => map (fun x => amplitude direction ch * x) e) chs) finals ->
  Forall2 (fun ch y => y == amplitude direction ch) chs finals.
Proof.
  intros Hy1 Hone. revert finals.
  induction chs as [|ch chs IH]; intros finals Hfin; simpl in *.
  - inversion Hfin. constructor.
  - inversion Hfin as [|row y rows ys Hrow Hrest]; subst.
    constructor; [|by apply IH].
    rewrite fmap_last, Hy1 in Hrow. simpl in Hrow. injection Hrow as <-.
    rewrite Hone. ring.
Qed.

Lemma start_ramp_target direction e n chs finals :
  build_envelope n = Some e -> (1 < n)%Z ->
  Forall2 (fun row y => last row = Some y) (ramp_rows direction chs e)
    finals ->
  Forall2 (fun ch y => y == amplitude direction ch) chs finals.
Proof.
  intros He Hn Hfin.
  destruct (envelope_last _ Hn) as (e' & y1 & He' & Hy1 & Hone).
  rewrite He in He'. injection He' as <-.
  by apply (finals_of_ramp direction e y1 chs).
Qed.

(** Rows that are not empty have final values. *)
Lemma finals_exist (data : list (list Q)) :
  Forall (fun row => row <> []) data ->
  exists finals, Forall2 (fun row y => last row = Some y) data finals.
Proof.
  induction 1 as [|row data Hrow _ [finals IH]]; [by exists []|].
  destruct (last row) as [y|] eqn:E.
  - exists (y :: finals). by constructor.
  - by apply last_None in E.
Qed.

(** *** The command queue *)

Ltac frame_tac :=
  unfold frame, note_success; repeat case_match; simplify_eq/=; auto.

Lemma send_heartbeat_frame env s : frame (send_heartbeat env s).1 s.
Proof. unfold send_heartbeat. frame_tac. Qed.

Lemma send_ramp_frame_frame env s : frame (send_ramp_frame env s).1 s.
Proof. unfold send_ramp_frame. frame_tac. Qed.

Lemma start_ramp_frame direction s : frame (start_ramp direction s).1 s.
Proof. unfold start_ramp. frame_tac. Qed.

Lemma stop_all_frame env s : frame (stop_all env s).1 s.
Proof. unfold stop_all. frame_tac. Qed.

Lemma start_osc_client_frame env s : frame (start_osc_client env s).1 s.
Proof. unfold start_osc_client. frame_tac. Qed.

Lemma check_connection_timeout_frame env s :
  frame (check_connection_timeout env s).1 s.
Proof. unfold check_connection_timeout. frame_tac. Qed.

Lemma handle_current_mode_frame env s : frame (handle_current_mode env s).1 s.
Proof.
  unfold handle_current_mode.
  destruct (current_mode s);
    auto using send_heartbeat_frame, send_ramp_frame_frame; by unfold frame.
Qed.

Lemma handle_command_frame command env s :
  command_queue (handle_command command env s).1 = command_queue s /\
  running (handle_command command env s).1
  = (if decide (command = COMMANDS.QUIT) then false else running s) /\
  current_mode (handle_command command env s).1 = current_mode s.
Proof.
  destruct command; simpl.
  - pose proof (start_osc_client_frame env s) as (? & ? & ?).
    by destruct (start_osc_client env s).
  - pose proof (start_ramp_frame right s) as (? & ? & ?).
    by destruct (start_ramp right s).
  - pose proof (start_ramp_frame left s) as (? & ? & ?).
    by destruct (start_ramp left s).
  - pose proof (start_ramp_frame baseline s) as (? & ? & ?).
    by destruct (start_ramp baseline s).
  - pose proof (stop_all_frame env s) as (? & ? & ?).
    by destruct (stop_all env s).
  - done.
Qed.

Lemma worker_iteration_queue env s :
  command_queue (worker_iteration env s).1 = tail (command_queue s) /\
  running (worker_iteration env s).1
  = (if decide (head (command_queue s) = Some COMMANDS.QUIT)
     then false else running s) /\
  current_mode (worker_iteration env s).1 = current_mode s.
Proof.
  unfold worker_iteration.
  assert (H1 : command_queue (process_commands env s).1 = tail (command_queue s) /\
    running (process_commands env s).1
    = (if decide (head (command_queue s) = Some COMMANDS.QUIT)
       then false else running s) /\
    current_mode (process_commands env s).1 = current_mode s).
  { unfold process_commands, get_nowait.
    destruct (command_queue s) as [|c q] eqn:E; simpl; [done|].
    pose proof (handle_command_frame c env (set_command_queue q s)) as (-> & -> & ->).
    simpl. repeat split. repeat case_decide; congruence. }
  destruct (process_commands env s) as [s1 ev1].
  pose proof (check_connection_timeout_frame env s1) as H2.
  destruct (check_connection_timeout env s1) as [s2 ev2].
  pose proof (handle_current_mode_frame env s2) as H3.
  destruct (handle_current_mode env s2) as [s3 ev3].
  unfold frame in *. simpl in *.
  destruct H1 as (<- & <- & <-), H2 as (<- & <- & <-), H3 as (-> & -> & ->).
  done.
Qed.

Lemma step_fifo a sys :
  command_queue (worker sys) ++ enqueued_by a sys
  = applied_by a sys ++ command_queue (worker (step a sys)).
Proof.
  destruct a as [env|c|]; simpl.
  - rewrite app_nil_r. destruct (running (worker sys)); [|done].
    pose proof (worker_iteration_queue env (worker sys)) as (Hq & _).
    destruct (worker_iteration env (worker sys)) as [s1 evs]. simpl in *.
    rewrite Hq. unfold get_nowait. by destruct (command_queue (worker sys)).
  - unfold gui_handler, put.
    destruct c, (channels (worker sys)); simpl; by rewrite ?app_nil_r.
  - destruct (after_queue sys) as [|[] rest]; simpl; by rewrite ?app_nil_r.
Qed.

Lemma run_fifo actions sys :
  command_queue (worker sys) ++ (run actions sys).2
  = (run actions sys).1.2 ++ command_queue (worker (run actions sys).1.1).
Proof.
  revert sys. induction actions as [|a actions IH]; intros sys; simpl.
  - by rewrite app_nil_r.
  - specialize (IH (step a sys)).
    destruct (run actions (step a sys)) as [[sys' applied] enqueued].
    simpl in *. rewrite app_assoc, step_fifo, <- !app_assoc. by rewrite IH.
Qed.

Lemma burst_in_order envs burst rest s cbs :
  running s = true ->
  command_queue s = burst ++ rest ->
  COMMANDS.QUIT ∉ burst ->
  (length envs <= length burst)%nat ->
  let '(sys', applied, enqueued) := run (map Tick envs) (mkSystem s cbs) in
  applied = take (length envs) burst /\
  command_queue (worker sys') = drop (length envs) burst ++ rest /\
  enqueued = [] /\ running (worker sys') = true.
Proof.
  revert burst s cbs.
  induction envs as [|env envs IH]; intros burst s cbs Hrun Hq Hnq Hlen; simpl.
  - by rewrite drop_0.
  - destruct burst as [|c burst]; simpl in Hlen; [lia|].
    rewrite Hrun.
    pose proof (worker_iteration_queue env s) as (Hq1 & Hr1 & _).
    destruct (worker_iteration env s) as [s1 evs]. simpl in Hq1, Hr1.
    rewrite Hq in Hq1, Hr1. simpl in Hq1, Hr1.
    apply not_elem_of_cons in Hnq as [Hc Hnq].
    rewrite decide_False in Hr1 by congruence.
    specialize (IH burst s1 (cbs ++ callbacks evs)).
    destruct (run (map Tick envs) _) as [[sys' applied] enqueued].
    destruct IH as (Ha & Hqf & He & Hrf); [congruence|done|done|lia|].
    unfold get_nowait. rewrite Hq. simpl. by subst.
Qed.

(** *** Which sends an iteration makes *)

Lemma heartbeat_sends env s client :
  osc_client s = Some client ->
  calls (send_heartbeat env s).2 = heartbeat_calls (channels s).
Proof.
  intros Hc. unfold send_heartbeat, heartbeat_calls. rewrite Hc.
  destruct (channels s) as [|ch chs] eqn:E; [done|]. rewrite <- E. clear E.
  destruct (send_loop_values client [After (log_message "OSC send error")]
              (map (fun ch => (address ch, 0)) (channels s)) eq_refl)
    as (evs & ok & err & Hloop & Hcalls & _).
  rewrite map_map in Hloop, Hcalls. simpl in Hloop, Hcalls. rewrite Hloop.
  unfold note_success. destruct (0 <? ok)%nat; simpl;
    by rewrite calls_app, Hcalls, app_nil_r.
Qed.

Lemma start_ramp_silent direction s : calls (start_ramp direction s).2 = [].
Proof. unfold start_ramp. repeat case_match; simplify_eq/=; done. Qed.

Lemma start_osc_client_silent env s : calls (start_osc_client env s).2 = [].
Proof. unfold start_osc_client. repeat case_match; simplify_eq/=; done. Qed.

Lemma check_connection_timeout_silent env s :
  calls (check_connection_timeout env s).2 = [].
Proof. by destruct (check_connection_timeout_cases env s) as [-> | ->]. Qed.

Lemma frame_sleep_silent s : calls (frame_sleep s) = [].
Proof. by destruct (frame_sleep_cases s) as [[d ->] | ->]. Qed.

Lemma handle_command_silent command env s :
  command <> COMMANDS.STOP_ALL -> calls (handle_command command env s).2 = [].
Proof.
  intros Hc. destruct command; simpl; try done.
  - pose proof (start_osc_client_silent env s).
    destruct (start_osc_client env s). simpl in *. by rewrite calls_app, H.
  - pose proof (start_ramp_silent right s).
    destruct (start_ramp right s). simpl in *. by rewrite calls_app, H.
  - pose proof (start_ramp_silent left s).
    destruct (start_ramp left s). simpl in *. by rewrite calls_app, H.
  - pose proof (start_ramp_silent baseline s).
    destruct (start_ramp baseline s). simpl in *. by rewrite calls_app, H.
Qed.

Lemma process_commands_silent env s :
  head (command_queue s) <> Some COMMANDS.STOP_ALL ->
  calls (process_commands env s).2 = [].
Proof.
  unfold process_commands, get_nowait.
  destruct (command_queue s) as [|c q]; simpl; [done|].
  intros Hc. apply handle_command_silent. congruence.
Qed.

Lemma quiet_mode_iteration env s :
  current_mode s = MODES.IDLE \/ current_mode s = MODES.STOPPED ->
  calls (worker_iteration env s).2 = calls (process_commands env s).2.
Proof.
  intros Hm. unfold worker_iteration.
  assert (H1 : current_mode (process_commands env s).1 = current_mode s).
  { unfold process_commands, get_nowait.
    destruct (command_queue s) as [|c q]; [done|].
    by pose proof (handle_command_frame c env (set_command_queue q s))
      as (_ & _ & ->). }
  destruct (process_commands env s) as [s1 ev1]. simpl in *.
  pose proof (check_connection_timeout_frame env s1) as (_ & _ & H2).
  pose proof (check_connection_timeout_silent env s1) as Hs2.
  destruct (check_connection_timeout env s1) as [s2 ev2]. simpl in *.
  assert (H3 : handle_current_mode env s2 = (s2, [])).
  { unfold handle_current_mode. rewrite H2, H1. by destruct Hm as [-> | ->]. }
  rewrite H3. cbn [snd]. rewrite !calls_app, Hs2, frame_sleep_silent. simpl.
  by rewrite app_nil_r.
Qed.

(** C2 (amended).  The mode dispatch of an iteration sends nothing in the
    modes [IDLE] and [STOPPED], where every send of the iteration stems
    from command handling (none unless the command is [STOP_ALL]); in the
    mode [HEARTBEAT], when a client exists, [send_message(address, 0.0)]
    is invoked exactly once for every configured channel, in order; when no
    client exists, nothing is sent. *)
Theorem frames_follow_mode env s :
  (current_mode s = MODES.IDLE \/ current_mode s = MODES.STOPPED ->
     handle_current_mode env s = (s, []) /\
     calls (worker_iteration env s).2 = calls (process_commands env s).2 /\
     (head (command_queue s) <> Some COMMANDS.STOP_ALL ->
      calls (worker_iteration env s).2 = [])) /\
  (current_mode s = MODES.HEARTBEAT ->
     (forall client, osc_client s = Some client ->
        calls (handle_current_mode env s).2 = heartbeat_calls (channels s)) /\
     (osc_client s = None -> handle_current_mode env s = (s, []))).
Proof.
  split.
  - intros Hm. split; [|split].
    + unfold handle_current_mode. by destruct Hm as [-> | ->].
    + by apply quiet_mode_iteration.
    + intros Hc. rewrite quiet_mode_iteration by done.
      by apply process_commands_silent.
  - intros Hm. unfold handle_current_mode. rewrite Hm. split.
    + intros client Hc. by apply (heartbeat_sends env s client).
    + intros Hc. unfold send_heartbeat. by rewrite Hc.
Qed.

Lemma frames_follow_mode_witness :
  calls (worker_iteration Examples.gui_env
           (Examples.gui_state (Some Examples.accept_all) 1 0 MODES.STOPPED)).2
    = [] /\
  calls (handle_current_mode Examples.gui_env
           (Examples.gui_state (Some Examples.accept_all) 1 0 MODES.HEARTBEAT)).2
    = [("/mh/steer", OFloat 0)] /\
  handle_current_mode Examples.gui_env Examples.heartbeat_without_client
    = (Examples.heartbeat_without_client, []).
Proof.
  split; [|split].
  - destruct (frames_follow_mode Examples.gui_env
                (Examples.gui_state (Some Examples.accept_all) 1 0
                   MODES.STOPPED)) as [Hquiet _].
    apply Hquiet; [by right | simpl; discriminate].
  - destruct (frames_follow_mode Examples.gui_env
                (Examples.gui_state (Some Examples.accept_all) 1 0
                   MODES.HEARTBEAT)) as [_ Hbeat].
    apply (proj1 (Hbeat eq_refl) Examples.accept_all). reflexivity.
  - destruct (frames_follow_mode Examples.gui_env
                Examples.heartbeat_without_client) as [_ Hbeat].
    apply (proj2 (Hbeat eq_refl)). reflexivity.
Defined.

(** C2 as stated fails: in the mode [HEARTBEAT] with a configured channel
    but no client (its construction failed), an iteration sends nothing. *)
Lemma heartbeat_without_client_silent :
  current_mode Examples.heartbeat_without_client = MODES.HEARTBEAT /\
  osc_client Examples.heartbeat_without_client = None /\
  channels Examples.heartbeat_without_client = [Examples.steer] /\
  calls (worker_iteration Examples.gui_env
           Examples.heartbeat_without_client).2 = [] /\
  calls (worker_iteration Examples.gui_env
           Examples.heartbeat_without_client).2
  <> heartbeat_calls (channels Examples.heartbeat_without_client).
Proof. repeat split; try reflexivity. vm_compute. discriminate. Qed.

(** *** The envelope *)

(** C3.  For every [n > 1], [build_envelope n] returns a sequence of length
    [n] whose elements lie in [[0, 1]], which is non-decreasing, whose first
    element is 0 and whose last element is 1. *)
Theorem build_envelope_shape (n : Z) :
  (1 < n)%Z ->
  exists e,
    build_envelope n = Some e /\
    length e = Z.to_nat n /\
    Forall (fun x => 0 <= x <= 1) e /\
    (forall i j x y, (i <= j)%nat ->
       e !! i = Some x -> e !! j = Some y -> x <= y) /\
    (exists x, e !! 0%nat = Some x /\ x == 0) /\
    (exists y, last e = Some y /\ y == 1).
Proof.
  intros Hn. destruct (build_envelope_samples n Hn) as (e & He & Hlen & Hat).
  exists e. do 2 (split; [done|]). split; [|split; [|split]].
  - apply Forall_forall. intros x Hx.
    apply list_elem_of_lookup in Hx as [i Hi]. rewrite (Hat i x Hi).
    pose proof (sample_bounds n i Hn) as [? ?]. split.
    + pose proof (cubic_mono 0 (sample n i)). lra.
    + pose proof (cubic_mono (sample n i) 1). lra.
  - intros i j x y Hij Hx Hy. rewrite (Hat i x Hx), (Hat j y Hy).
    pose proof (sample_bounds n i Hn) as [? ?].
    pose proof (sample_bounds n j Hn) as [? ?].
    apply cubic_mono; [lra| |lra]. by apply sample_mono.
  - destruct e as [|x e']; [simpl in Hlen; lia|].
    exists x. split; [done|].
    rewrite (Hat 0%nat x eq_refl), sample_first by done. ring.
  - destruct (envelope_last n Hn) as (e' & y & He' & Hy & Hone).
    exists y. split; [congruence | done].
Qed.

Lemma build_envelope_shape_witness :
  exists e,
    build_envelope 5 = Some e /\
    length e = 5%nat /\
    Forall (fun x => 0 <= x <= 1) e /\
    (forall i j x y, (i <= j)%nat ->
       e !! i = Some x -> e !! j = Some y -> x <= y) /\
    (exists x, e !! 0%nat = Some x /\ x == 0) /\
    (exists y, last e = Some y /\ y == 1).
Proof. apply (build_envelope_shape 5). lia. Defined.

(** C8 (amended).  [build_envelope 1] returns the single-element sequence
    [[0.0]]: the only sample of [np.linspace(0, 1, 1)] is the start point. *)
Theorem build_envelope_single :
  exists x, build_envelope 1 = Some [x] /\ x == 0.
Proof. eexists. split; [reflexivity|]. reflexivity. Qed.

(** C8 as stated fails: the single element of [build_envelope 1] is not
    [1.0]. *)
Lemma envelope_of_one_frame_is_not_one :
  exists x, build_envelope 1 = Some [x] /\ ~ x == 1.
Proof. eexists. split; [reflexivity|]. vm_compute. discriminate. Qed.

(** *** The frames of a ramp *)

(** For any number of frames that is not negative the envelope exists and
    has that many values. *)
Lemma build_envelope_length (n : Z) :
  (0 <= n)%Z ->
  exists e, build_envelope n = Some e /\ length e = Z.to_nat n.
Proof.
  intros Hn. unfold build_envelope, np.linspace.
  destruct (Z.ltb_spec n 0); [lia|].
  destruct (Z.eqb_spec n 0) as [->|]; [by exists []|].
  destruct (Z.eqb_spec n 1) as [->|]; [by eexists|].
  eexists. split; [reflexivity|]. simpl.
  rewrite length_map, length_app, length_map, length_seq. simpl. lia.
Qed.

Lemma zip_with_map_r {A B C} (f : A -> B -> C) (g : A -> B) (l : list A) :
  zip_with f l (map g l) = map (fun x => f x (g x)) l.
Proof. induction l as [|x l IH]; simpl; by rewrite ?IH. Qed.

Lemma ramp_rows_lookup direction chs (e : list Q) k e_k :
  e !! k = Some e_k ->
  Forall2 (fun row y => row !! k = Some y) (ramp_rows direction chs e)
    (map (fun ch => amplitude direction ch * e_k) chs).
Proof.
  intros He. induction chs as [|ch chs IH]; simpl; constructor; [|done].
  by rewrite list_lookup_fmap, He.
Qed.

(** One frame of the ramp. *)
Lemma ramp_frame_step env client direction chs e frames k e_k s :
  chs <> [] ->
  ramping client chs (ramp_rows direction chs e) frames k s ->
  e !! k = Some e_k ->
  exists s1 evs,
    send_ramp_frame env s = (s1, evs) /\
    ramping client chs (ramp_rows direction chs e) frames (S k) s1 /\
    calls evs = ramp_calls direction chs e_k.
Proof.
  intros Hne [Hc Hch Hd Hf Hhs Hh] He.
  unfold send_ramp_frame. rewrite Hc, Hd, Hch, Hf.
  destruct chs as [|ch0 chs0] eqn:Echs; [done|]. rewrite <- Echs in *.
  assert (Hrows : exists row0 rest, ramp_rows direction chs e = row0 :: rest
                    /\ length row0 = length e).
  { rewrite Echs. simpl. eexists _, _. split; [reflexivity|].
    by rewrite length_map. }
  destruct Hrows as (row0 & rest & Erows & Hlen0). rewrite Erows.
  apply lookup_lt_Some in He as Hk.
  destruct (Nat.leb_spec (length row0) k); [lia|]. rewrite <- Erows.
  rewrite (ramp_items_zip _ _ _
             (map (fun ch => amplitude direction ch * e_k) chs)).
  2:{ unfold ramp_rows. by rewrite length_map. }
  2:{ by apply ramp_rows_lookup. }
  destruct (send_loop_values client []
              (zip_with (fun ch y => (address ch, y)) chs
                 (map (fun ch => amplitude direction ch * e_k) chs)) eq_refl)
    as (evs & ok & err & -> & Hcalls & _).
  match goal with |- context [note_success env ok ?st] =>
    destruct (note_success env ok st) as [s2 evs2] eqn:Ens end.
  eexists _, _. split; [reflexivity|].
  assert (Hs2 : calls evs2 = [] /\ osc_client s2 = osc_client s /\
                channels s2 = channels s /\ ramp_data s2 = ramp_data s /\
                hold_frames s2 = hold_frames s /\ hold_frame s2 = hold_frame s).
  { unfold note_success in Ens. destruct (0 <? ok)%nat; by simplify_eq/=. }
  destruct Hs2 as (Hc2 & ? & ? & ? & ? & ?). split.
  - split; simpl; try congruence. lia.
  - rewrite !calls_app, Hcalls, Hc2.
    rewrite zip_with_map_r, map_map. unfold ramp_calls. simpl.
    match goal with |- context [calls (if ?b then _ else _)] =>
      destruct b end; simpl; by rewrite ?app_nil_r.
Qed.

Lemma ramp_run env client direction chs e frames j :
  chs <> [] ->
  forall k s,
    ramping client chs (ramp_rows direction chs e) frames k s ->
    (k + j <= length e)%nat ->
    ramping client chs (ramp_rows direction chs e) frames (k + j)
      (repeat_calls (send_ramp_frame env) j s).1 /\
    forall i evs,
      (repeat_calls (send_ramp_frame env) j s).2 !! i = Some evs ->
      exists e_i, e !! (k + i)%nat = Some e_i /\
                  calls evs = ramp_calls direction chs e_i.
Proof.
  intros Hne. induction j as [|j IH]; intros k s Hr Hk; simpl.
  - rewrite Nat.add_0_r. split; [done|]. intros i evs. by rewrite lookup_nil.
  - destruct (lookup_lt_is_Some_2 e k ltac:(lia)) as [e_k He].
    destruct (ramp_frame_step env client direction chs e frames k e_k s
                Hne Hr He) as (s1 & evs1 & -> & Hr1 & Hcalls).
    destruct (IH (S k) s1 Hr1 ltac:(lia)) as [Hend Hrest].
    destruct (repeat_calls (send_ramp_frame env) j s1) as [s2 rest].
    simpl in *. split.
    + by replace (k + S j)%nat with (S k + j)%nat by lia.
    + intros [|i] evs Hi; simpl in Hi.
      * injection Hi as <-. exists e_k. by rewrite Nat.add_0_r.
      * destruct (Hrest i evs Hi) as (e_i & Hei & Hc).
        exists e_i. by replace (k + S i)%nat with (S k + i)%nat by lia.
Qed.

Lemma start_ramp_ramping direction s0 client duration fps hold n h e :
  osc_client s0 = Some client -> channels s0 <> [] ->
  duration_var (settings s0) = Some duration ->
  fps_var (settings s0) = Some fps ->
  hold_var (settings s0) = Some hold ->
  count_frames duration fps = Some n ->
  count_frames hold fps = Some h ->
  build_envelope n = Some e ->
  start_ramp direction s0
  = ((start_ramp direction s0).1, []) /\
  ramping client (channels s0) (ramp_rows direction (channels s0) e)
    h 0 (start_ramp direction s0).1.
Proof.
  intros Hc Hch Hd Hf Hh Hn Hhold He. unfold start_ramp.
  rewrite Hc, Hd, Hf, Hh, Hn, Hhold, He.
  destruct (channels s0) as [|ch chs] eqn:E; [done|].
  split; [done|]. by split.
Qed.

(** A ramp of at least one frame, sent to its end, leaves a worker whose
    ramp is exhausted, with one row per channel and no empty row. *)
Lemma ramp_sent_to_its_end env direction s0 client duration fps hold n h e :
  osc_client s0 = Some client -> channels s0 <> [] ->
  duration_var (settings s0) = Some duration ->
  fps_var (settings s0) = Some fps ->
  hold_var (settings s0) = Some hold ->
  count_frames duration fps = Some n ->
  count_frames hold fps = Some h ->
  build_envelope n = Some e -> length e = Z.to_nat n -> (1 <= n)%Z ->
  let s := (repeat_calls (send_ramp_frame env) (Z.to_nat n)
              (start_ramp direction s0).1).1 in
  let data := ramp_rows direction (channels s0) e in
  holding client (channels s0) data h s /\
  hold_frame s = 0%nat /\
  length data = length (channels s0) /\
  Forall (fun row => row <> []) data.
Proof.
  intros Hc Hch Hd Hf Hh Hn Hhold He Hlen Hpos s data.
  destruct (start_ramp_ramping direction s0 client duration fps hold n h e
              Hc Hch Hd Hf Hh Hn Hhold He) as [_ Hr0].
  destruct (ramp_run env client direction (channels s0) e h (Z.to_nat n)
              Hch 0%nat _ Hr0 ltac:(simpl; lia))
    as [[Hc' Hch' Hd' Hf' Hhs' Hh'] _].
  subst s data. split; [|split; [done|split]].
  - split; try done.
    destruct (channels s0) as [|ch chs] eqn:E; [done|]. simpl.
    eexists. split; [reflexivity|]. rewrite length_map, Hf'. simpl. lia.
  - unfold ramp_rows. by rewrite length_map.
  - unfold ramp_rows. apply Forall_forall.
    intros row (ch & -> & _)%list_elem_of_fmap.
    destruct e; [simpl in Hlen; lia|done].
Qed.

(** *** Ramp, hold and the return to the heartbeat *)

(** C4 (amended).  A ramp of at least one frame that has been sent to its
    end leaves a worker whose ramp is exhausted, with a final value in every
    channel's row; when the ramp has more than one frame that value is the
    target amplitude.  From any such state, each further call of
    [send_ramp_frame] sends every channel's final ramp value while the hold
    counter is below [hold_frames], that is for exactly
    [hold_frames - hold_frame] calls (none when that is not positive), and
    afterwards sends nothing and asks the GUI thread to enqueue
    [START_HEARTBEAT]; with nothing else queued, the next pass of the loop
    after the GUI thread has done so applies that command, and the mode is
    [HEARTBEAT] once the GUI thread has run what that pass handed over. *)
Theorem hold_then_heartbeat :
  (forall env direction s0 client duration fps hold n h,
     osc_client s0 = Some client -> channels s0 <> [] ->
     duration_var (settings s0) = Some duration ->
     fps_var (settings s0) = Some fps ->
     hold_var (settings s0) = Some hold ->
     count_frames duration fps = Some n ->
     count_frames hold fps = Some h ->
     (1 <= n)%Z ->
     let s := (repeat_calls (send_ramp_frame env) (Z.to_nat n)
                 (start_ramp direction s0).1).1 in
     exists data,
       holding client (channels s0) data h s /\
       hold_frame s = 0%nat /\
       length data = length (channels s0) /\
       Forall (fun row => row <> []) data /\
       ((1 < n)%Z ->
        forall finals,
          Forall2 (fun row y => last row = Some y) data finals ->
          Forall2 (fun ch y => y == amplitude direction ch) (channels s0)
            finals)) /\
  (forall client chs data frames s,
     holding client chs data frames s ->
     length data = length chs ->
     Forall (fun row => row <> []) data ->
     exists finals,
       Forall2 (fun row y => last row = Some y) data finals /\
       (forall env k,
          length (repeat_calls (send_ramp_frame env) k s).2 = k /\
          forall j evs,
            (repeat_calls (send_ramp_frame env) k s).2 !! j = Some evs ->
            if (j <? Z.to_nat frames - hold_frame s)%nat
            then calls evs = hold_calls chs finals /\ callbacks evs = []
            else evs = [After (command_queue_put COMMANDS.START_HEARTBEAT)])
       /\
       (forall env k env1 env2,
          (Z.to_nat frames - hold_frame s <= k)%nat ->
          running s = true -> command_queue s = [] ->
          ramp_mode (current_mode s) ->
          let s' := (repeat_calls (send_ramp_frame env) k s).1 in
          let sys1 := drain (step (Tick env1) (mkSystem s' [])) in
          let sys2 := drain (step (Tick env2) sys1) in
          command_queue (worker sys1) = [COMMANDS.START_HEARTBEAT] /\
          current_mode (worker sys1) = current_mode s /\
          current_mode (worker sys2) = MODES.HEARTBEAT)).
Proof.
  split.
  - intros env direction s0 client duration fps hold n h
      Hc Hch Hd Hf Hh Hn Hhold Hpos s.
    destruct (build_envelope_length n ltac:(lia)) as (e & He & Hlen).
    exists (ramp_rows direction (channels s0) e).
    destruct (ramp_sent_to_its_end env direction s0 client duration fps hold
                n h e Hc Hch Hd Hf Hh Hn Hhold He Hlen Hpos)
      as (Hholding & Hzero & Hrows & Hne).
    do 4 (split; [done|]).
    intros Hmore finals Hfin.
    by apply (start_ramp_target direction e n).
  - intros client chs data frames s Hh Hlen Hne.
    destruct (finals_exist data Hne) as [finals Hfin].
    exists finals. split; [done|]. split.
    + intros env k. split; [apply repeat_calls_length|].
      by apply (hold_phase_frames env client chs data finals frames).
    + intros env k env1 env2 Hk Hrun Hq Hmode.
      destruct (hold_frames_done env client chs data finals frames s k
                  Hh Hlen Hfin Hk) as (Hh' & Hdone & Hr' & Hq' & Hm').
      cbv zeta.
      destruct (revert_to_heartbeat env1 env2 client chs data frames _
                  Hh' Hdone) as (H1 & H2 & H3); try congruence.
      split; [done|]. split; [congruence|done].
Qed.

Lemma hold_then_heartbeat_witness :
  holding Examples.accept_all [Examples.steer] Examples.ramp3_data 3
    Examples.ramp3 /\
  (forall evs,
     (repeat_calls (send_ramp_frame Examples.gui_env) 5 Examples.ramp3).2
       !! 2%nat = Some evs ->
     calls evs = hold_calls [Examples.steer] Examples.ramp3_finals /\
     callbacks evs = []) /\
  (forall evs,
     (repeat_calls (send_ramp_frame Examples.gui_env) 5 Examples.ramp3).2
       !! 3%nat = Some evs ->
     evs = [After (command_queue_put COMMANDS.START_HEARTBEAT)]) /\
  current_mode
    (worker
       (drain (step (Tick Examples.gui_env)
          (drain (step (Tick Examples.gui_env)
             (mkSystem
                (repeat_calls (send_ramp_frame Examples.gui_env) 3
                   Examples.ramp3).1 [])))))) = MODES.HEARTBEAT /\
  Forall2 (fun ch y => y == amplitude right ch) [Examples.steer]
    Examples.ramp3_finals.
Proof.
  destruct hold_then_heartbeat as [Hramp Hhold].
  set (s0 := Examples.gui_state (Some Examples.accept_all) (1 # 20) (1 # 20)
               MODES.TURNING_RIGHT).
  destruct (Hramp Examples.gui_env right s0 Examples.accept_all (1 # 20)
              60%Z (1 # 20) 3%Z 3%Z eq_refl ltac:(discriminate) eq_refl
              eq_refl eq_refl ltac:(vm_compute; reflexivity)
              ltac:(vm_compute; reflexivity) ltac:(lia))
    as (data & Hh & _ & Hlen & Hne & Htarget).
  assert (Hdata : data = Examples.ramp3_data).
  { destruct Hh as [_ _ Hd _ _]. vm_compute in Hd. by injection Hd as <-. }
  subst data.
  destruct (Hhold Examples.accept_all [Examples.steer] Examples.ramp3_data 3%Z
              Examples.ramp3 Hh Hlen Hne) as (finals & Hfin & Hframes & Hrevert).
  assert (Hfinals : finals = Examples.ramp3_finals).
  { inversion Hfin as [|row y rows ys Hrow Hrest]; subst.
    inversion Hrest; subst. vm_compute in Hrow. by injection Hrow as <-. }
  subst finals.
  split; [exact Hh|]. split; [|split; [|split]].
  - intros evs Hevs.
    apply (proj2 (Hframes Examples.gui_env 5%nat) 2%nat evs Hevs).
  - intros evs Hevs.
    apply (proj2 (Hframes Examples.gui_env 5%nat) 3%nat evs Hevs).
  - apply (Hrevert Examples.gui_env 3%nat Examples.gui_env Examples.gui_env);
      [vm_compute; lia | reflexivity | reflexivity | by left].
  - apply Htarget; [lia|exact Hfin].
Defined.

(** C4 as stated fails: after a single-frame ramp the value held is the
    only envelope value, 0, not the target amplitude. *)
Lemma single_frame_hold_is_not_target :
  holding Examples.accept_all [Examples.steer] [[0]] 3 Examples.ramp1 /\
  (send_ramp_frame Examples.gui_env Examples.ramp1).2
    = [Sent "/mh/steer" (OFloat 0)] /\
  ~ 0 == amplitude right Examples.steer.
Proof.
  split; [|split].
  - split; try reflexivity. eexists. split; [reflexivity|]. vm_compute. lia.
  - reflexivity.
  - vm_compute. discriminate.
Qed.

(** *** Order of commands *)

(** C5.  [get_nowait] never waits: it answers at once, with nothing exactly
    when the queue is empty.  A pass of the loop removes the front command
    and nothing else, so at most one.  Along any interleaving of worker
    passes and GUI actions the commands applied so far, followed by the
    commands still queued, are the commands in arrival order; and a burst of
    queued commands is applied one per pass, in the order enqueued. *)
Theorem commands_fifo :
  (forall s, get_nowait s = None <-> command_queue s = []) /\
  (forall env s,
     command_queue (worker_iteration env s).1 = tail (command_queue s)) /\
  (forall a sys,
     applied_by a sys = [] \/
     exists c, applied_by a sys = [c] /\
               head (command_queue (worker sys)) = Some c) /\
  (forall actions sys,
     command_queue (worker sys) ++ (run actions sys).2
     = (run actions sys).1.2 ++ command_queue (worker (run actions sys).1.1)) /\
  (forall envs burst rest s cbs,
     running s = true ->
     command_queue s = burst ++ rest ->
     COMMANDS.QUIT ∉ burst ->
     (length envs <= length burst)%nat ->
     let '(sys', applied, enqueued) := run (map Tick envs) (mkSystem s cbs) in
     applied = take (length envs) burst /\
     command_queue (worker sys') = drop (length envs) burst ++ rest).
Proof.
  split; [|split; [|split; [|split]]].
  - intros s. unfold get_nowait. by destruct (command_queue s).
  - intros env s. apply worker_iteration_queue.
  - intros [env|c|] sys; simpl; auto.
    destruct (running (worker sys)); auto.
    unfold get_nowait. destruct (command_queue (worker sys)) as [|c q]; eauto.
  - apply run_fifo.
  - intros envs burst rest s cbs Hrun Hq Hnq Hlen.
    pose proof (burst_in_order envs burst rest s cbs Hrun Hq Hnq Hlen) as H.
    destruct (run (map Tick envs) (mkSystem s cbs)) as [[sys' applied] enq].
    tauto.
Qed.

Lemma commands_fifo_witness :
  let burst := [COMMANDS.TURN_LEFT; COMMANDS.TURN_RIGHT; COMMANDS.STOP_ALL] in
  let s := set_command_queue (burst ++ [COMMANDS.BASELINE])
             (Examples.gui_state (Some Examples.accept_all) 1 0
                MODES.HEARTBEAT) in
  let '(sys', applied, enqueued) :=
    run (map Tick [Examples.gui_env; Examples.gui_env]) (mkSystem s []) in
  applied = [COMMANDS.TURN_LEFT; COMMANDS.TURN_RIGHT] /\
  command_queue (worker sys') = [COMMANDS.STOP_ALL; COMMANDS.BASELINE].
Proof.
  cbv zeta.
  apply (proj2 (proj2 (proj2 (proj2 commands_fifo)))
           [Examples.gui_env; Examples.gui_env]
           [COMMANDS.TURN_LEFT; COMMANDS.TURN_RIGHT; COMMANDS.STOP_ALL]
           [COMMANDS.BASELINE]);
    [reflexivity | reflexivity | | simpl; lia].
  rewrite !not_elem_of_cons. repeat split; try discriminate.
  apply not_elem_of_nil.
Defined.

End GuiTheory.

(** * Properties of the frame sender ([v3/mh_streamer_v3.py]) *)

Module V3Theory.
Import V3.

Lemma trace_calls_app (a b : list Event) : calls (a ++ b) = calls a ++ calls b.
Proof. apply omap_app. Qed.

(** The channel loop over a concatenation is the loop over each part. *)
Lemma send_channels_app client mapping den pre post :
  send_channels client mapping den (pre ++ post)
  = let '(e1, o1, r1) := send_channels client mapping den pre in
    let '(e2, o2, r2) := send_channels client mapping den post in
    (e1 ++ e2, (o1 + o2)%nat, (r1 + r2)%nat).
Proof.
  induction pre as [|ch pre IH]; simpl.
  - by destruct (send_channels client mapping den post) as [[e2 o2] r2].
  - rewrite IH.
    destruct (send_channels client mapping den pre) as [[e1 o1] r1].
    destruct (send_channels client mapping den post) as [[e2 o2] r2].
    destruct (mapping !! source_column ch) as [idx|].
    + destruct (den !! idx) as [raw|]; [|done].
      by destruct (send_ok client (osc_address ch) _).
    + by destruct (send_ok client (osc_address ch) _).
Qed.

Lemma channel_calls_app client mapping den pre post :
  channel_calls client mapping den (pre ++ post)
  = channel_calls client mapping den pre
    ++ channel_calls client mapping den post.
Proof.
  unfold channel_calls. rewrite send_channels_app.
  destruct (send_channels client mapping den pre) as [[e1 o1] r1].
  destruct (send_channels client mapping den post) as [[e2 o2] r2].
  simpl. apply trace_calls_app.
Qed.

(** What [stream_frame] invokes once the frame has been denormalized. *)
Lemma stream_frame_calls env s client v fc den :
  osc_client s = Some client -> channels s <> [] ->
  denormalize_data (normalization_params s) v = Some den ->
  calls (stream_frame env v fc s).2
  = channel_calls client (channel_mapping s) den (channels s)
    ++ control_calls client fc (current_mode s).
Proof.
  intros Hc Hch Hden. unfold stream_frame, channel_calls, control_calls.
  rewrite Hc, Hden.
  destruct (channels s) as [|ch chs] eqn:E; [done|].
  destruct (send_channels client (channel_mapping s) den (ch :: chs))
    as [[evs ok] err].
  destruct (send_control client fc (current_mode s)) as [[evc okc] errc].
  simpl. rewrite !trace_calls_app. f_equal.
  destruct (show_data s && (fc mod 10 =? 0)%Z); simpl; by rewrite app_nil_r.
Qed.

Lemma denormalize_lookup params (v : list Q) i :
  length (std params) = length v -> length (mean params) = length v ->
  (i < length v)%nat ->
  exists vi si mi den,
    v !! i = Some vi /\ std params !! i = Some si /\
    mean params !! i = Some mi /\
    denormalize_data (Some params) v = Some den /\
    den !! i = Some (vi * si + mi).
Proof.
  intros Hs Hm Hi.
  destruct (lookup_lt_is_Some_2 v i Hi) as [vi Hvi].
  destruct (lookup_lt_is_Some_2 (std params) i ltac:(lia)) as [si Hsi].
  destruct (lookup_lt_is_Some_2 (mean params) i ltac:(lia)) as [mi Hmi].
  exists vi, si, mi. eexists. do 3 (split; [done|]).
  unfold denormalize_data, np.broadcast.
  rewrite Hs, Nat.eqb_refl. simpl.
  rewrite length_zip_with, Hs, Hm, Nat.min_id, Nat.eqb_refl.
  split; [reflexivity|].
  rewrite !lookup_zip_with, Hvi, Hsi, Hmi. done.
Qed.

(** C1.  For a configured channel whose source column is mapped to the
    feature index [i], and a frame [v] that has a component [i], with
    normalization parameters of the length of the frame, the value handed to
    [send_message] on the channel's address is
    [scale * ((v[i] * std[i]) + mean[i]) + offset], clamped as
    [max(min, min(max, value))] when the channel has a clamp. *)
Theorem resolved_channel_value env s client params v fc pre c post i :
  osc_client s = Some client ->
  channels s = pre ++ c :: post ->
  normalization_params s = Some params ->
  length (std params) = length v ->
  length (mean params) = length v ->
  channel_mapping s !! source_column c = Some i ->
  (i < length v)%nat ->
  exists vi si mi den,
    v !! i = Some vi /\ std params !! i = Some si /\
    mean params !! i = Some mi /\
    denormalize_data (Some params) v = Some den /\
    let value := scale (transform c) * (vi * si + mi) + offset (transform c) in
    let sent :=
      match clamp (transform c) with
      | Some (clamp_min, clamp_max) => py_max clamp_min (py_min clamp_max value)
      | None => value
      end in
    calls (stream_frame env v fc s).2
    = channel_calls client (channel_mapping s) den pre
      ++ (osc_address c, OFloat sent)
      :: channel_calls client (channel_mapping s) den post
      ++ control_calls client fc (current_mode s).
Proof.
  intros Hc Hch Hp Hs Hm Hmap Hi.
  destruct (denormalize_lookup params v i Hs Hm Hi)
    as (vi & si & mi & den & Hvi & Hsi & Hmi & Hden & Hdi).
  exists vi, si, mi, den. do 4 (split; [done|]). cbv zeta.
  rewrite (stream_frame_calls env s client v fc den); auto.
  2:{ rewrite Hch. by destruct pre. }
  2:{ by rewrite Hp. }
  rewrite Hch, channel_calls_app, <- app_assoc. f_equal.
  change (c :: post) with ([c] ++ post).
  rewrite channel_calls_app, <- app_assoc. f_equal.
  unfold channel_calls. simpl. rewrite Hmap, Hdi.
  unfold apply_transform.
  by destruct (send_ok client (osc_address c) _).
Qed.

Lemma resolved_channel_value_witness :
  calls (stream_frame Examples.v3_env [1; 100] 7
           Examples.two_channels).2
  = [("/bone/neck_01/pitch", OFloat 0);
     ("/bone/pelvis/pitch",
      OFloat (py_max (-(90)) (py_min 90 (2 * (100 * 4 + 20) + 1))));
     ("/mh/frame", OInt 7); ("/mh/mode", OStr "BASELINE")].
Proof.
  destruct (resolved_channel_value Examples.v3_env
              Examples.two_channels
              Examples.accept_all Examples.params2 [1; 100] 7
              [Examples.neck] Examples.pelvis [] 1%nat
              eq_refl eq_refl eq_refl eq_refl eq_refl
              ltac:(vm_compute; reflexivity) ltac:(simpl; lia))
    as (vi & si & mi & den & Hvi & Hsi & Hmi & Hden & Hcalls).
  injection Hvi as <-. injection Hsi as <-. injection Hmi as <-.
  injection Hden as <-. exact Hcalls.
Defined.

(** C6 (amended).  For a configured channel whose source column is not in
    the channel mapping, the frame sender invokes [send_message] with the
    fallback value [0.0] on the channel's address and goes on with the
    remaining channels; when that send returns, it is counted among the sent
    messages and leaves the error count alone; when it raises, it is
    counted among the send errors.  The statistics hold no other count. *)
Theorem unmapped_channel_fallback env s client v fc pre c post den :
  osc_client s = Some client ->
  channels s = pre ++ c :: post ->
  channel_mapping s !! source_column c = None ->
  denormalize_data (normalization_params s) v = Some den ->
  calls (stream_frame env v fc s).2
  = channel_calls client (channel_mapping s) den pre
    ++ (osc_address c, OFloat 0)
    :: channel_calls client (channel_mapping s) den post
    ++ control_calls client fc (current_mode s) /\
  let '(_, ok, err) :=
    send_channels client (channel_mapping s) den (pre ++ post) in
  let '(_, okc, errc) := send_control client fc (current_mode s) in
  stats (stream_frame env v fc s).1
  = if send_ok client (osc_address c) (OFloat 0)
    then ((osc_send_count s + (S ok + okc))%nat,
          (osc_error_count s + (err + errc))%nat, time env)
    else ((osc_send_count s + (ok + okc))%nat,
          (osc_error_count s + (S err + errc))%nat, time env).
Proof.
  intros Hc Hch Hmap Hden. split.
  - rewrite (stream_frame_calls env s client v fc den); auto.
    2:{ rewrite Hch. by destruct pre. }
    rewrite Hch, channel_calls_app, <- app_assoc. f_equal.
    change (c :: post) with ([c] ++ post).
    rewrite channel_calls_app, <- app_assoc. f_equal.
    unfold channel_calls. simpl. rewrite Hmap.
    by destruct (send_ok client (osc_address c) _).
  - unfold stream_frame. rewrite Hc, Hden.
    destruct (channels s) as [|ch chs]; [by destruct pre|]. rewrite Hch.
    change (c :: post) with ([c] ++ post).
    rewrite !send_channels_app. simpl. rewrite Hmap.
    destruct (send_channels client (channel_mapping s) den pre) as [[e1 o1] r1].
    destruct (send_channels client (channel_mapping s) den post) as [[e2 o2] r2].
    destruct (send_control client fc (current_mode s)) as [[evc okc] errc].
    destruct (send_ok client (osc_address c) (OFloat 0)); unfold stats; simpl;
      repeat f_equal; lia.
Qed.

Lemma unmapped_channel_fallback_witness :
  calls (stream_frame Examples.v3_env [1; 100] 7
           Examples.two_channels).2
  = [("/bone/neck_01/pitch", OFloat 0);
     ("/bone/pelvis/pitch", OFloat 90);
     ("/mh/frame", OInt 7); ("/mh/mode", OStr "BASELINE")] /\
  stats (stream_frame Examples.v3_env [1; 100] 7
           Examples.two_channels).1
  = (4%nat, 0%nat, 5).
Proof.
  apply (unmapped_channel_fallback Examples.v3_env
           Examples.two_channels
           Examples.accept_all [1; 100] 7 [] Examples.neck [Examples.pelvis]
           [1 * 2 + 10; 100 * 4 + 20]); reflexivity.
Defined.

(** C6 as stated fails: no statistic records a mapping miss.  The same
    frame sent with the column unmapped and with the column mapped to a
    feature of value zero leaves the same trace and the same statistics, so
    every count read off the statistics is the same with and without the
    miss. *)
Lemma mapping_miss_leaves_no_count :
  channel_mapping Examples.neck_unmapped !! "Neck_flexion" = None /\
  channel_mapping Examples.neck_mapped !! "Neck_flexion" = Some 0%nat /\
  stats Examples.neck_unmapped = stats Examples.neck_mapped /\
  (stream_frame Examples.v3_env [0] 1 Examples.neck_unmapped).2
  = (stream_frame Examples.v3_env [0] 1 Examples.neck_mapped).2 /\
  stats (stream_frame Examples.v3_env [0] 1 Examples.neck_unmapped).1
  = stats (stream_frame Examples.v3_env [0] 1 Examples.neck_mapped).1 /\
  stats (stream_frame Examples.v3_env [0] 1 Examples.neck_unmapped).1
  = (3%nat, 0%nat, 5) /\
  (forall count : nat * nat * Q -> nat,
     count (stats (stream_frame Examples.v3_env [0] 1
                     Examples.neck_unmapped).1)
     = count (stats (stream_frame Examples.v3_env [0] 1
                       Examples.neck_mapped).1)).
Proof.
  do 6 (split; [vm_compute; reflexivity|]).
  intros count. f_equal; vm_compute; reflexivity.
Qed.

(** C9.  Without normalization parameters [denormalize_data] returns its
    input as it is, in both streamers, and the frame is streamed from the
    raw values: nothing fails. *)
Theorem denormalize_without_params (v : list Q) :
  V3.denormalize_data None v = Some v /\
  V2.denormalize_data None v = Some v /\
  forall env s client fc,
    normalization_params s = None ->
    osc_client s = Some client -> channels s <> [] ->
    calls (stream_frame env v fc s).2
    = channel_calls client (channel_mapping s) v (channels s)
      ++ control_calls client fc (current_mode s).
Proof.
  split; [done|]. split; [done|].
  intros env s client fc Hp Hc Hch.
  apply stream_frame_calls; auto. by rewrite Hp.
Qed.

Lemma denormalize_without_params_witness :
  calls (stream_frame Examples.v3_env [3] 1 Examples.neck_mapped).2
  = [("/bone/neck_01/pitch", OFloat (1 * 3 + 0));
     ("/mh/frame", OInt 1); ("/mh/mode", OStr "BASELINE")].
Proof.
  apply (proj2 (proj2 (denormalize_without_params [3])) Examples.v3_env
           Examples.neck_mapped Examples.accept_all 1%Z);
    [reflexivity | reflexivity | discriminate].
Defined.

(** C10.  While [is_streaming] is false, [start_left_turn],
    [start_right_turn] and [return_to_baseline] return early: the state,
    with its mode and its stored turn sequences, is left as it was, and the
    only effect is one log message. *)
Theorem turn_commands_need_streaming env s :
  is_streaming s = false ->
  start_left_turn env s = (s, [Log "Please start streaming first"]) /\
  start_right_turn env s = (s, [Log "Please start streaming first"]) /\
  return_to_baseline s = (s, [Log "Please start streaming first"]).
Proof.
  intros H. unfold start_left_turn, start_right_turn, return_to_baseline.
  by rewrite H.
Qed.

Lemma turn_commands_need_streaming_witness :
  let s := Examples.not_streaming in
  start_left_turn Examples.v3_env s = (s, [Log "Please start streaming first"]) /\
  start_right_turn Examples.v3_env s = (s, [Log "Please start streaming first"]) /\
  return_to_baseline s = (s, [Log "Please start streaming first"]).
Proof.
  apply (turn_commands_need_streaming Examples.v3_env Examples.not_streaming).
  reflexivity.
Defined.

End V3Theory.

(** * Properties of the command parser *)

Module ParserTheory.
Import NLPParser.

Lemma py_max_bounds (a b : Q) : a <= py_max a b /\ b <= py_max a b.
Proof. unfold py_max. destruct (Qlt_le_dec a b); lra. Qed.

Lemma py_min_bounds (a b : Q) : py_min a b <= a /\ py_min a b <= b.
Proof. unfold py_min. destruct (Qlt_le_dec b a); lra. Qed.

Lemma clamp_bounds (lo hi x : Q) : lo <= hi -> lo <= clamp lo hi x <= hi.
Proof.
  intros Hlh. unfold clamp. split; [apply py_max_bounds|].
  pose proof (py_min_bounds hi x) as [Hm _].
  unfold py_max. destruct (Qlt_le_dec lo (py_min hi x)); lra.
Qed.

Lemma clamp_above (lo hi x : Q) : lo < hi -> hi <= x -> clamp lo hi x = hi.
Proof.
  intros Hlh Hx. unfold clamp, py_min.
  destruct (Qlt_le_dec x hi); [lra|].
  unfold py_max. destruct (Qlt_le_dec lo hi); [done|lra].
Qed.

Lemma clamp_below (lo hi x : Q) : lo <= hi -> x <= lo -> clamp lo hi x = lo.
Proof.
  intros Hlh Hx. unfold clamp, py_max.
  pose proof (py_min_bounds hi x) as [_ Hm].
  destruct (Qlt_le_dec lo (py_min hi x)); [lra|done].
Qed.

(** What [parse] returns when it returns a turn: the resolution of the
    match of the folded text. *)
Lemma parse_turn turn_pattern is_dry_run text scope direction angle speed
    duration :
  parse turn_pattern is_dry_run text
  = TurnIntent scope direction angle speed duration ->
  exists m,
    turn_pattern (casefold (strip text)) = Some m /\
    angle = resolve_angle m /\ speed = resolve_speed m /\
    duration = resolve_duration m.
Proof.
  unfold parse. repeat case_decide; try discriminate.
  destruct (is_dry_run _); [discriminate|].
  destruct (turn_pattern _) as [m|]; [|discriminate].
  destruct (direction_synonym _); [|discriminate].
  intros [= <- <- <- <- <-]. by exists m.
Qed.

(** C7.  For every text the parser resolves to a turn intent, the numeric
    parameters are clamped after defaults and modifiers: [angle_deg] lies in
    [[0, 180]] (an explicit 200 gives 180, an explicit -10 gives 0),
    [speed_deg_s] lies in [[1, 360]], and [duration_s], when present, lies
    in [[0, 10]]. *)
Theorem turn_parameters_clamped turn_pattern is_dry_run text scope direction
    angle speed duration :
  parse turn_pattern is_dry_run text
  = TurnIntent scope direction angle speed duration ->
  0 <= angle <= 180 /\
  1 <= speed <= 360 /\
  (forall d, duration = Some d -> 0 <= d <= 10) /\
  (forall m a,
     turn_pattern (casefold (strip text)) = Some m ->
     explicit_angle m = Some a ->
     (a == 200 -> angle = 180) /\ (a == -(10) -> angle = 0)).
Proof.
  intros Hp.
  destruct (parse_turn _ _ _ _ _ _ _ _ Hp) as (m & Hm & -> & -> & ->).
  split; [|split; [|split]].
  - apply clamp_bounds. lra.
  - apply clamp_bounds. lra.
  - unfold resolve_duration. intros d Hd.
    destruct (explicit_duration m) as [x|]; [|discriminate].
    injection Hd as <-. apply clamp_bounds. lra.
  - intros m' a Hm' Ha. rewrite Hm in Hm'. injection Hm' as <-.
    unfold resolve_angle. rewrite Ha. simpl. split; intros Hq.
    + apply clamp_above; lra.
    + apply clamp_below; lra.
Qed.

Lemma turn_parameters_clamped_witness :
  parse (Examples.one_phrase "turn left 200 degrees" 200) (fun _ => false)
    "  Turn LEFT 200 degrees "
  = TurnIntent "body" "left" 180 90 None /\
  0 <= 180 <= 180 /\ 1 <= 90 <= 360.
Proof.
  assert (H : parse (Examples.one_phrase "turn left 200 degrees" 200)
                (fun _ => false) "  Turn LEFT 200 degrees "
              = TurnIntent "body" "left" 180 90 None)
    by (vm_compute; reflexivity).
  split; [exact H|].
  destruct (turn_parameters_clamped _ _ _ _ _ _ _ _ H) as (Ha & Hs & _).
  split; [exact Ha | exact Hs].
Defined.

End ParserTheory.

(** * Further properties of the scheduler *)

Module GuiMoreTheory.
Import Gui GuiMore.

(** The number of frames is taken from the rounded product: [0.35 * 60] is
    the float [21.0] although the exact product of the two floats lies below
    21, and [0.3333333333333333 * 3] is the float [1.0]. *)
Example count_frames_rounds :
  count_frames MoreExamples.float_0_35 60 = Some 21%Z /\
  py_int (MoreExamples.float_0_35 * 60) = 20%Z /\
  count_frames MoreExamples.float_third 3 = Some 1%Z /\
  py_int (MoreExamples.float_third * 3) = 0%Z /\
  count_frames MoreExamples.float_0_01 60 = Some 0%Z.
Proof. repeat split; vm_compute; reflexivity. Qed.

(** X1.  A ramp of [n > 0] frames, [n] being [int(duration * fps)], is sent
    frame by frame in increasing index: the call number [k] sends, to every
    channel in order, the channel's amplitude times the envelope value
    number [k]; after [n] calls the ramp is exhausted and the hold has not
    begun. *)
Theorem ramp_frames_in_order env direction s0 client duration fps hold n h :
  osc_client s0 = Some client -> channels s0 <> [] ->
  duration_var (settings s0) = Some duration ->
  fps_var (settings s0) = Some fps ->
  hold_var (settings s0) = Some hold ->
  count_frames duration fps = Some n ->
  count_frames hold fps = Some h ->
  (0 < n)%Z ->
  exists e,
    build_envelope n = Some e /\
    length e = Z.to_nat n /\
    let sent := repeat_calls (send_ramp_frame env) (Z.to_nat n)
                  (start_ramp direction s0).1 in
    length sent.2 = Z.to_nat n /\
    (forall k evs, sent.2 !! k = Some evs ->
       exists e_k, e !! k = Some e_k /\
                   calls evs = ramp_calls direction (channels s0) e_k) /\
    holding client (channels s0) (ramp_rows direction (channels s0) e)
      h sent.1 /\
    hold_frame sent.1 = 0%nat.
Proof.
  intros Hc Hch Hd Hf Hh Hn Hhold Hpos.
  destruct (GuiTheory.build_envelope_length n ltac:(lia)) as (e & He & Hlen).
  exists e. do 2 (split; [done|]). cbv zeta.
  destruct (GuiTheory.start_ramp_ramping direction s0 client duration fps
              hold n h e Hc Hch Hd Hf Hh Hn Hhold He) as [_ Hr0].
  destruct (GuiTheory.ramp_run env client direction (channels s0) e h
              (Z.to_nat n) Hch 0%nat _ Hr0 ltac:(simpl; lia))
    as [[Hc' Hch' Hd' Hf' Hhs' Hh'] Hframes].
  split; [apply GuiTheory.repeat_calls_length|].
  split; [exact Hframes|]. split; [|done].
  split; try done.
  destruct (channels s0) as [|ch chs] eqn:E; [done|]. simpl.
  eexists. split; [reflexivity|]. rewrite length_map, Hf'. simpl. lia.
Qed.

Lemma ramp_frames_in_order_witness :
  exists e,
    build_envelope 21 = Some e /\ length e = 21%nat /\
    let sent := repeat_calls (send_ramp_frame Examples.gui_env) 21
                  (start_ramp right
                     (Examples.gui_state (Some Examples.accept_all)
                        MoreExamples.float_0_35 (1 # 20)
                        MODES.TURNING_RIGHT)).1 in
    length sent.2 = 21%nat /\
    (forall k evs, sent.2 !! k = Some evs ->
       exists e_k, e !! k = Some e_k /\
                   calls evs = ramp_calls right [Examples.steer] e_k) /\
    holding Examples.accept_all [Examples.steer]
      (ramp_rows right [Examples.steer] e) 3 sent.1 /\
    hold_frame sent.1 = 0%nat.
Proof.
  apply (ramp_frames_in_order Examples.gui_env right
           (Examples.gui_state (Some Examples.accept_all)
              MoreExamples.float_0_35 (1 # 20) MODES.TURNING_RIGHT)
           Examples.accept_all MoreExamples.float_0_35 60%Z (1 # 20)
           21%Z 3%Z);
    try reflexivity; try discriminate; vm_compute; reflexivity.
Defined.

(** X2.  A return to baseline sends zeros from its first frame on: the
    amplitude of a baseline ramp is 0, so every value of every ramp frame
    equals 0. *)
Theorem baseline_ramp_sends_zeros env s0 client duration fps hold n h :
  osc_client s0 = Some client -> channels s0 <> [] ->
  duration_var (settings s0) = Some duration ->
  fps_var (settings s0) = Some fps ->
  hold_var (settings s0) = Some hold ->
  count_frames duration fps = Some n ->
  count_frames hold fps = Some h ->
  (0 < n)%Z ->
  let sent := repeat_calls (send_ramp_frame env) (Z.to_nat n)
                (start_ramp baseline s0).1 in
  length sent.2 = Z.to_nat n /\
  forall k evs, sent.2 !! k = Some evs ->
    length (calls evs) = length (channels s0) /\
    Forall (fun call => exists v, call.2 = OFloat v /\ v == 0) (calls evs).
Proof.
  intros Hc Hch Hd Hf Hh Hn Hhold Hpos sent.
  destruct (GuiTheory.build_envelope_length n ltac:(lia)) as (e & He & Hlen).
  destruct (GuiTheory.start_ramp_ramping baseline s0 client duration fps
              hold n h e Hc Hch Hd Hf Hh Hn Hhold He) as [_ Hr0].
  destruct (GuiTheory.ramp_run env client baseline (channels s0) e h
              (Z.to_nat n) Hch 0%nat _ Hr0 ltac:(simpl; lia))
    as [_ Hframes].
  split; [apply GuiTheory.repeat_calls_length|].
  intros k evs Hk. destruct (Hframes k evs Hk) as (e_k & _ & ->).
  unfold ramp_calls. split; [by rewrite length_map|].
  apply Forall_forall. intros call Hcall.
  apply list_elem_of_fmap in Hcall as (ch & -> & _).
  eexists. split; [reflexivity|]. simpl. ring.
Qed.

Lemma baseline_ramp_sends_zeros_witness :
  let sent := repeat_calls (send_ramp_frame Examples.gui_env) 3
                (start_ramp baseline
                   (Examples.gui_state (Some Examples.accept_all) (1 # 20)
                      (1 # 20) MODES.BASELINE)).1 in
  length sent.2 = 3%nat /\
  forall k evs, sent.2 !! k = Some evs ->
    length (calls evs) = 1%nat /\
    Forall (fun call => exists v, call.2 = OFloat v /\ v == 0) (calls evs).
Proof.
  apply (baseline_ramp_sends_zeros Examples.gui_env
           (Examples.gui_state (Some Examples.accept_all) (1 # 20) (1 # 20)
              MODES.BASELINE)
           Examples.accept_all (1 # 20) 60%Z (1 # 20) 3%Z 3%Z);
    try reflexivity; try discriminate; vm_compute; reflexivity.
Defined.

(** X3.  Degenerate ramps.  When [int(duration * fps)] is zero and a hold
    is asked for, no call of [send_ramp_frame] ever sends, counts or
    completes: each one only reports "Ramp send error", and
    [START_HEARTBEAT] is never requested.  When it is negative,
    [start_ramp] reports an error and leaves an empty ramp, on which
    [send_ramp_frame] does nothing at all. *)
Theorem degenerate_ramps direction s0 client duration fps hold n h :
  osc_client s0 = Some client -> channels s0 <> [] ->
  duration_var (settings s0) = Some duration ->
  fps_var (settings s0) = Some fps ->
  hold_var (settings s0) = Some hold ->
  count_frames duration fps = Some n ->
  count_frames hold fps = Some h ->
  let s1 := (start_ramp direction s0).1 in
  (n = 0%Z -> (0 < h)%Z ->
   forall env k,
     repeat_calls (send_ramp_frame env) k s1
     = (s1, replicate k [After (log_message "Ramp send error")])) /\
  ((n < 0)%Z ->
   start_ramp direction s0
   = (set_ramp_data (Some []) s0,
      [After (log_message "Error starting ramp")]) /\
   forall env k,
     repeat_calls (send_ramp_frame env) k s1 = (s1, replicate k [])).
Proof.
  intros Hc Hch Hd Hf Hh Hn Hhold s1. split.
  - intros Hz Hpos env. subst n.
    assert (Hstep : send_ramp_frame env s1
                    = (s1, [After (log_message "Ramp send error")])).
    { subst s1. unfold start_ramp. rewrite Hc, Hd, Hf, Hh, Hn, Hhold.
      destruct (channels s0) as [|ch chs] eqn:E; [done|].
      cbn [build_envelope np.linspace Z.ltb Z.eqb Z.compare mbind option_bind
           map fst].
      unfold send_ramp_frame. cbn [osc_client ramp_data set_hold_frame
        set_hold_frames set_ramp_frame set_ramp_data length ramp_frame
        Nat.leb hold_frame hold_frames channels].
      rewrite E.
      destruct (Z.ltb_spec (Z.of_nat 0) h); [|lia].
      cbn [ramp_items imap send_loop lookup list_lookup mbind option_bind
           np.last_item last].
      simpl. rewrite Hc. f_equal.
      destruct s0; unfold set_osc_error_count; simpl.
      by rewrite Nat.add_0_r. }
    induction k as [|k IH]; simpl; [done|]. by rewrite Hstep, IH.
  - intros Hneg.
    assert (Hstart : start_ramp direction s0
                     = (set_ramp_data (Some []) s0,
                        [After (log_message "Error starting ramp")])).
    { unfold start_ramp. rewrite Hc, Hd, Hf, Hh, Hn, Hhold.
      destruct (channels s0) as [|ch chs] eqn:E; [done|].
      unfold build_envelope, np.linspace.
      by destruct (Z.ltb_spec n 0); [|lia]. }
    split; [done|]. intros env. subst s1. rewrite Hstart. simpl.
    assert (Hstep : send_ramp_frame env (set_ramp_data (Some []) s0)
                    = (set_ramp_data (Some []) s0, [])).
    { unfold send_ramp_frame. simpl. by destruct (osc_client s0). }
    induction k as [|k IH]; simpl; [done|]. by rewrite Hstep, IH.
Qed.

Lemma degenerate_ramps_witness :
  (forall k,
     repeat_calls (send_ramp_frame Examples.gui_env) k
       (start_ramp left
          (Examples.gui_state (Some Examples.accept_all)
             MoreExamples.float_0_01 (1 # 20) MODES.TURNING_LEFT)).1
     = ((start_ramp left
           (Examples.gui_state (Some Examples.accept_all)
              MoreExamples.float_0_01 (1 # 20) MODES.TURNING_LEFT)).1,
        replicate k [After (log_message "Ramp send error")])) /\
  start_ramp left
    (Examples.gui_state (Some Examples.accept_all) (-(1)) (1 # 20)
       MODES.TURNING_LEFT)
  = (set_ramp_data (Some [])
       (Examples.gui_state (Some Examples.accept_all) (-(1)) (1 # 20)
          MODES.TURNING_LEFT),
     [After (log_message "Error starting ramp")]).
Proof.
  split.
  - intros k.
    apply (proj1 (degenerate_ramps left
             (Examples.gui_state (Some Examples.accept_all)
                MoreExamples.float_0_01 (1 # 20) MODES.TURNING_LEFT)
             Examples.accept_all MoreExamples.float_0_01 60%Z (1 # 20)
             0%Z 3%Z
             eq_refl ltac:(discriminate) eq_refl eq_refl eq_refl
             ltac:(vm_compute; reflexivity) ltac:(vm_compute; reflexivity)));
      [reflexivity|lia].
  - apply (proj2 (degenerate_ramps left
             (Examples.gui_state (Some Examples.accept_all) (-(1)) (1 # 20)
                MODES.TURNING_LEFT)
             Examples.accept_all (-(1)) 60%Z (1 # 20) (-60)%Z 3%Z
             eq_refl ltac:(discriminate) eq_refl eq_refl eq_refl
             ltac:(vm_compute; reflexivity) ltac:(vm_compute; reflexivity))).
    lia.
Defined.

(** The counts of a loop over values that are all present. *)
Lemma send_loop_counts client on_error (l : list (string * Q)) :
  exists evs ok err,
    send_loop client on_error (map (fun p => (p.1, Some p.2)) l)
      = (evs, ok, err, false) /\
    (ok + err = length l)%nat /\
    (Forall (fun p => send_ok client p.1 (OFloat p.2) = true) l ->
     err = 0%nat).
Proof.
  induction l as [|[addr v] l IH]; simpl.
  - by exists [], 0%nat, 0%nat.
  - destruct IH as (evs & ok & err & -> & Hsum & Hall).
    destruct (send_ok client addr (OFloat v)) eqn:Hok.
    + eexists _, _, _. split; [reflexivity|]. split; [lia|].
      intros H. apply Hall. by inversion H.
    + eexists _, _, _. split; [reflexivity|]. split; [lia|].
      intros H. inversion H; simpl in *. congruence.
Qed.

Lemma note_success_counts env ok s :
  osc_send_count (note_success env ok s).1 = (osc_send_count s + ok)%nat /\
  osc_error_count (note_success env ok s).1 = osc_error_count s.
Proof.
  unfold note_success. destruct (Nat.ltb_spec 0 ok); simpl; [done|].
  split; [lia|done].
Qed.

(** X4.  A heartbeat counts every channel exactly once: each send either
    adds one to the sent messages or one to the errors, and a send that
    raises does not stop the remaining channels.  On a transport that
    accepts everything the error count stays as it was. *)
Theorem heartbeat_accounting env s client :
  osc_client s = Some client ->
  let s' := (send_heartbeat env s).1 in
  (osc_send_count s' + osc_error_count s'
   = osc_send_count s + osc_error_count s + length (channels s))%nat /\
  (osc_send_count s <= osc_send_count s')%nat /\
  (osc_error_count s <= osc_error_count s')%nat /\
  length (calls (send_heartbeat env s).2) = length (channels s) /\
  (Forall (fun ch => send_ok client (address ch) (OFloat 0) = true)
     (channels s) ->
   osc_error_count s' = osc_error_count s).
Proof.
  intros Hc s'.
  assert (Hcalls : length (calls (send_heartbeat env s).2)
                   = length (channels s)).
  { rewrite (GuiTheory.heartbeat_sends env s client Hc).
    unfold heartbeat_calls. by rewrite length_map. }
  subst s'. unfold send_heartbeat in *. rewrite Hc in *.
  destruct (channels s) as [|ch chs] eqn:E; [simpl; repeat split; lia|].
  rewrite <- E in *. clear E ch chs.
  destruct (send_loop_counts client [After (log_message "OSC send error")]
              (map (fun ch => (address ch, 0)) (channels s)))
    as (evs & ok & err & Hloop & Hsum & Hall).
  rewrite map_map in Hloop. simpl in Hloop. rewrite Hloop in *.
  rewrite length_map in Hsum.
  match goal with |- context [note_success env ok ?st] =>
    pose proof (note_success_counts env ok st) as [Hn1 Hn2];
    destruct (note_success env ok st) as [s2 evs2] end.
  simpl in *. rewrite Hn1, Hn2.
  split; [lia|]. split; [lia|]. split; [lia|]. split; [done|].
  intros Hacc. rewrite Hall; [lia|].
  apply Forall_forall. intros p Hp.
  apply list_elem_of_fmap in Hp as (ch & -> & Hch). simpl.
  by apply (proj1 (Forall_forall _ _) Hacc).
Qed.

Lemma heartbeat_accounting_witness :
  let s := Examples.gui_state (Some Examples.accept_all) 1 0 MODES.HEARTBEAT in
  let s' := (send_heartbeat Examples.gui_env s).1 in
  (osc_send_count s' + osc_error_count s'
   = osc_send_count s + osc_error_count s + 1)%nat /\
  (osc_send_count s <= osc_send_count s')%nat /\
  (osc_error_count s <= osc_error_count s')%nat /\
  length (calls (send_heartbeat Examples.gui_env s).2) = 1%nat /\
  (Forall (fun ch => send_ok Examples.accept_all (address ch) (OFloat 0) = true)
     [Examples.steer] ->
   osc_error_count s' = osc_error_count s).
Proof.
  apply (heartbeat_accounting Examples.gui_env
           (Examples.gui_state (Some Examples.accept_all) 1 0 MODES.HEARTBEAT)
           Examples.accept_all).
  reflexivity.
Defined.

(** X5.  The frames of the hold are sent but not counted: a hold frame
    invokes [send_message] for every channel and leaves the count of sent
    messages and the time of the last send as they were. *)
Theorem hold_frames_are_not_counted env client chs data finals frames s :
  holding client chs data frames s ->
  length data = length chs ->
  Forall2 (fun row y => last row = Some y) data finals ->
  (Z.of_nat (hold_frame s) < frames)%Z ->
  calls (send_ramp_frame env s).2 = hold_calls chs finals /\
  osc_send_count (send_ramp_frame env s).1 = osc_send_count s /\
  last_send_time (send_ramp_frame env s).1 = last_send_time s.
Proof.
  intros [Hc Hch Hd Hf (row0 & Hr0 & Hex)] Hlen Hfin Hlt.
  unfold send_ramp_frame. rewrite Hc, Hd.
  destruct data as [|r data']; [done|]. simpl in Hr0. injection Hr0 as ->.
  destruct (Nat.leb_spec (length row0) (ramp_frame s)); [|lia].
  rewrite Hf, Hch.
  destruct (Z.ltb_spec (Z.of_nat (hold_frame s)) frames); [|lia].
  rewrite (GuiTheory.ramp_items_zip np.last_item _ _ finals Hlen Hfin).
  destruct (GuiTheory.send_loop_values client []
              (zip_with (fun ch y => (address ch, y)) chs finals) eq_refl)
    as (evs & ok & err & -> & Hcalls & _).
  simpl. split; [|done]. rewrite Hcalls. unfold hold_calls. clear.
  revert finals. induction chs as [|ch chs IH]; intros [|y finals]; simpl;
    try done. by rewrite IH.
Qed.

Lemma hold_frames_are_not_counted_witness :
  calls (send_ramp_frame Examples.gui_env Examples.ramp3).2
    = hold_calls [Examples.steer] Examples.ramp3_finals /\
  osc_send_count (send_ramp_frame Examples.gui_env Examples.ramp3).1
    = osc_send_count Examples.ramp3 /\
  last_send_time (send_ramp_frame Examples.gui_env Examples.ramp3).1
    = last_send_time Examples.ramp3.
Proof.
  apply (hold_frames_are_not_counted Examples.gui_env Examples.accept_all
           [Examples.steer] Examples.ramp3_data Examples.ramp3_finals 3
           Examples.ramp3).
  - split; try reflexivity. eexists. split; [reflexivity|]. vm_compute. lia.
  - reflexivity.
  - repeat constructor.
  - vm_compute. reflexivity.
Defined.

(** X6.  [stop_all] ends any ramp: whatever the worker was doing, the ramp
    data is gone afterwards, so a following [send_ramp_frame] sends
    nothing and changes nothing; the connection is marked inactive; and
    with a client, [stop_all] itself invokes [send_message(address, 0.0)]
    exactly once for every channel. *)
Theorem stop_all_ends_ramp env env' s :
  let s1 := (stop_all env s).1 in
  ramp_data s1 = None /\ connection_active s1 = false /\
  send_ramp_frame env' s1 = (s1, []) /\
  (forall client, osc_client s = Some client ->
     calls (stop_all env s).2 = heartbeat_calls (channels s)).
Proof.
  assert (H : ramp_data (stop_all env s).1 = None /\
              connection_active (stop_all env s).1 = false).
  { unfold stop_all, note_success. simpl.
    repeat case_match; simplify_eq/=; done. }
  destruct H as [Hr Ha]. cbv zeta. do 2 (split; [done|]). split.
  - unfold send_ramp_frame. rewrite Hr. by destruct (osc_client _).
  - intros client Hc. unfold stop_all, heartbeat_calls.
    cbn [osc_client channels set_connection_active set_hold_frame
         set_ramp_frame set_ramp_data].
    rewrite Hc.
    destruct (channels s) as [|ch chs] eqn:E; [done|]. rewrite <- E. clear E.
    destruct (GuiTheory.send_loop_values client
                [After (log_message "Stop send error")]
                (map (fun ch => (address ch, 0)) (channels s)) eq_refl)
      as (evs & ok & err & Hloop & Hcalls & _).
    rewrite map_map in Hloop, Hcalls. simpl in Hloop, Hcalls. rewrite Hloop.
    unfold note_success. destruct (0 <? ok)%nat; simpl;
      by rewrite GuiTheory.calls_app, Hcalls, app_nil_r.
Qed.

Lemma stop_all_ends_ramp_witness :
  calls (stop_all Examples.gui_env Examples.ramp3).2
  = [("/mh/steer", OFloat 0)].
Proof.
  apply (proj2 (proj2 (proj2 (stop_all_ends_ramp Examples.gui_env
                                Examples.gui_env Examples.ramp3)))
           Examples.accept_all).
  reflexivity.
Defined.

(** A stopped worker does nothing, whatever the schedule of its passes. *)
Lemma stopped_worker_idle envs sys :
  running (worker sys) = false ->
  run (map Tick envs) sys = (sys, [], []) /\
  run_events (map Tick envs) sys = [].
Proof.
  intros Hr. induction envs as [|env envs [IH1 IH2]]; simpl; [done|].
  by rewrite Hr, IH1, IH2.
Qed.

(** X7.  [QUIT] ends the processing of the queue: the pass that takes
    [QUIT] from the front applies it, and no later pass applies or sends
    anything; the commands queued behind it stay in the queue for ever. *)
Theorem quit_halts_the_queue env envs rest s cbs :
  running s = true ->
  command_queue s = COMMANDS.QUIT :: rest ->
  exists sys1,
    step (Tick env) (mkSystem s cbs) = sys1 /\
    run (map Tick (env :: envs)) (mkSystem s cbs)
    = (sys1, [COMMANDS.QUIT], []) /\
    command_queue (worker sys1) = rest /\
    running (worker sys1) = false /\
    run_events (map Tick envs) sys1 = [].
Proof.
  intros Hrun Hq. eexists. split; [reflexivity|].
  pose proof (GuiTheory.worker_iteration_queue env s) as (Hq1 & Hr1 & _).
  rewrite Hq in Hq1, Hr1. simpl in Hq1, Hr1.
  assert (Hstop : running (worker (step (Tick env) (mkSystem s cbs))) = false).
  { simpl. rewrite Hrun. by destruct (worker_iteration env s). }
  destruct (stopped_worker_idle envs _ Hstop) as [Hrest Hev].
  split; [|split; [|split]]; try done.
  - change (map Tick (env :: envs)) with (Tick env :: map Tick envs).
    cbn [run]. rewrite Hrest. simpl. rewrite Hrun.
    unfold get_nowait. by rewrite Hq.
  - simpl. rewrite Hrun. by destruct (worker_iteration env s).
Qed.

Lemma quit_halts_the_queue_witness :
  let s := set_command_queue [COMMANDS.QUIT; COMMANDS.TURN_LEFT]
             (Examples.gui_state (Some Examples.accept_all) 1 0
                MODES.HEARTBEAT) in
  exists sys1,
    step (Tick Examples.gui_env) (mkSystem s []) = sys1 /\
    run (map Tick [Examples.gui_env; Examples.gui_env; Examples.gui_env])
      (mkSystem s [])
    = (sys1, [COMMANDS.QUIT], []) /\
    command_queue (worker sys1) = [COMMANDS.TURN_LEFT] /\
    running (worker sys1) = false /\
    run_events (map Tick [Examples.gui_env; Examples.gui_env]) sys1 = [].
Proof.
  apply (quit_halts_the_queue Examples.gui_env
           [Examples.gui_env; Examples.gui_env] [COMMANDS.TURN_LEFT]);
    reflexivity.
Defined.

(** *** Nothing is sent without channels *)

Lemma send_heartbeat_channels env s :
  channels (send_heartbeat env s).1 = channels s.
Proof.
  unfold send_heartbeat, note_success. repeat case_match; by simplify_eq/=.
Qed.

Lemma send_ramp_frame_channels env s :
  channels (send_ramp_frame env s).1 = channels s.
Proof.
  unfold send_ramp_frame, note_success. repeat case_match; by simplify_eq/=.
Qed.

Lemma start_ramp_channels direction s :
  channels (start_ramp direction s).1 = channels s.
Proof. unfold start_ramp. repeat case_match; by simplify_eq/=. Qed.

Lemma stop_all_channels env s : channels (stop_all env s).1 = channels s.
Proof.
  unfold stop_all, note_success. simpl. repeat case_match; by simplify_eq/=.
Qed.

Lemma start_osc_client_channels env s :
  channels (start_osc_client env s).1 = channels s.
Proof. unfold start_osc_client. repeat case_match; by simplify_eq/=. Qed.

Lemma handle_command_channels command env s :
  channels (handle_command command env s).1 = channels s.
Proof.
  destruct command; simpl.
  - pose proof (start_osc_client_channels env s).
    by destruct (start_osc_client env s).
  - pose proof (start_ramp_channels right s). by destruct (start_ramp right s).
  - pose proof (start_ramp_channels left s). by destruct (start_ramp left s).
  - pose proof (start_ramp_channels baseline s).
    by destruct (start_ramp baseline s).
  - pose proof (stop_all_channels env s). by destruct (stop_all env s).
  - done.
Qed.

Lemma worker_iteration_channels env s :
  channels (worker_iteration env s).1 = channels s.
Proof.
  unfold worker_iteration.
  assert (H1 : channels (process_commands env s).1 = channels s).
  { unfold process_commands, get_nowait.
    destruct (command_queue s) as [|c q]; [done|].
    by rewrite handle_command_channels. }
  destruct (process_commands env s) as [s1 ev1].
  assert (H2 : channels (check_connection_timeout env s1).1 = channels s1).
  { by destruct (GuiTheory.check_connection_timeout_cases env s1)
      as [-> | ->]. }
  destruct (check_connection_timeout env s1) as [s2 ev2].
  assert (H3 : channels (handle_current_mode env s2).1 = channels s2).
  { unfold handle_current_mode.
    destruct (current_mode s2);
      auto using send_heartbeat_channels, send_ramp_frame_channels. }
  destruct (handle_current_mode env s2) as [s3 ev3]. simpl in *. congruence.
Qed.

Lemma step_channels a sys :
  channels (worker (step a sys)) = channels (worker sys).
Proof.
  destruct a as [env|c|]; simpl.
  - destruct (running (worker sys)); [|done].
    pose proof (worker_iteration_channels env (worker sys)).
    by destruct (worker_iteration env (worker sys)).
  - unfold gui_handler, put, set_running, set_command_queue.
    destruct c, (channels (worker sys)) eqn:E; simpl; congruence.
  - destruct (after_queue sys) as [|[] rest]; by simpl.
Qed.

Lemma no_channels_no_calls env s :
  channels s = [] -> calls (worker_iteration env s).2 = [].
Proof.
  intros Hch. unfold worker_iteration.
  assert (H1 : calls (process_commands env s).2 = [] /\
               channels (process_commands env s).1 = []).
  { unfold process_commands, get_nowait.
    destruct (command_queue s) as [|c q]; [done|].
    rewrite handle_command_channels. split; [|done].
    destruct (decide (c = COMMANDS.STOP_ALL)) as [->|Hc].
    - simpl. unfold stop_all. simpl. rewrite Hch.
      by destruct (osc_client s).
    - by apply GuiTheory.handle_command_silent. }
  destruct (process_commands env s) as [s1 ev1]. destruct H1 as [Hc1 Hch1].
  pose proof (GuiTheory.check_connection_timeout_silent env s1) as Hc2.
  assert (Hch2 : channels (check_connection_timeout env s1).1 = []).
  { by destruct (GuiTheory.check_connection_timeout_cases env s1)
      as [-> | ->]. }
  destruct (check_connection_timeout env s1) as [s2 ev2]. simpl in *.
  assert (Hc3 : calls (handle_current_mode env s2).2 = []).
  { unfold handle_current_mode, send_heartbeat, send_ramp_frame.
    rewrite Hch2. unfold ramp_items. simpl.
    repeat case_match; simplify_eq/=; done. }
  destruct (handle_current_mode env s2) as [s3 ev3]. simpl in *.
  by rewrite !GuiTheory.calls_app, Hc1, Hc2, Hc3,
    GuiTheory.frame_sleep_silent.
Qed.

(** X8.  Without configured channels the worker never sends: along every
    interleaving of worker passes, button presses and GUI callbacks, no
    [send_message] is invoked. *)
Theorem no_channels_never_sends actions sys :
  channels (worker sys) = [] ->
  calls (run_events actions sys) = [].
Proof.
  revert sys. induction actions as [|a actions IH]; intros sys Hch; [done|].
  simpl. rewrite GuiTheory.calls_app, IH by (by rewrite step_channels).
  rewrite app_nil_r. destruct a as [env|c|]; simpl; try done.
  destruct (running (worker sys)); [|done].
  by apply no_channels_no_calls.
Qed.

Lemma no_channels_never_sends_witness :
  calls
    (run_events
       [Press COMMANDS.START_HEARTBEAT; Tick Examples.gui_env; GuiIdle;
        Press COMMANDS.TURN_RIGHT; Tick Examples.gui_env;
        Tick Examples.gui_env; Press COMMANDS.STOP_ALL;
        Tick Examples.gui_env]
       MoreExamples.no_channels)
  = [].
Proof.
  apply (no_channels_never_sends
           [Press COMMANDS.START_HEARTBEAT; Tick Examples.gui_env; GuiIdle;
            Press COMMANDS.TURN_RIGHT; Tick Examples.gui_env;
            Tick Examples.gui_env; Press COMMANDS.STOP_ALL;
            Tick Examples.gui_env]
           MoreExamples.no_channels).
  reflexivity.
Defined.

End GuiMoreTheory.

(** * Further properties of the frame sender *)

Module V3MoreTheory.
Import V3 V3More.

Lemma index_Some col names i :
  index col names = Some i <->
  names !! i = Some col /\ forall j, (j < i)%nat -> names !! j <> Some col.
Proof.
  unfold index. split.
  - destruct (list_find _ names) as [[i' y]|] eqn:E; [|done].
    intros [= <-]. apply list_find_Some in E as (Hi & -> & Hfirst).
    split; [done|]. intros j Hj Hcol.
    destruct (names !! j) as [z|] eqn:Ez; [|done]. injection Hcol as ->.
    by apply (Hfirst j col Ez Hj).
  - intros [Hi Hfirst].
    assert (E : list_find (fun name => name = col) names = Some (i, col)).
    { apply list_find_Some. split; [done|]. split; [done|].
      intros j y Hy Hj ->. by apply (Hfirst j Hj). }
    by rewrite E.
Qed.

Lemma index_None col names : index col names = None <-> col ∉ names.
Proof.
  unfold index. destruct (list_find _ names) as [[i y]|] eqn:E; simpl.
  - split; [done|]. intros Hn.
    apply list_find_Some in E as (Hi & -> & _).
    exfalso. apply Hn. by apply list_elem_of_lookup_2 in Hi.
  - split; [|done]. intros _ Hin.
    apply list_find_None in E. by apply (proj1 (Forall_forall _ _) E col Hin).
Qed.

Lemma map_channels_lookup names chs m col :
  names <> [] ->
  (map_channels (Some names) chs m).1 !! col
  = if decide (col ∈ source_column <$> chs)
    then match index col names with
         | Some i => Some i
         | None => m !! col
         end
    else m !! col.
Proof.
  intros Hne. revert m.
  induction chs as [|ch chs IH]; intros m.
  - simpl. try (case_decide as H; [by inversion H|]). done.
  - rewrite fmap_cons. cbn [map_channels].
    destruct names as [|n0 names'] eqn:En; [done|]. rewrite <- En in *.
    destruct (index (source_column ch) names) as [i|] eqn:Ei.
    + rewrite IH. destruct (decide (col = source_column ch)) as [->|Hc].
      * rewrite Ei, lookup_insert_eq.
        rewrite (decide_True (P := _ ∈ _ :: _)) by apply list_elem_of_here.
        by case_decide.
      * rewrite lookup_insert_ne by done.
        destruct (decide (col ∈ source_column <$> chs)) as [Hin|Hin].
        -- by rewrite decide_True by (by apply list_elem_of_further).
        -- rewrite decide_False; [done|].
           intros [?|?]%elem_of_cons; done.
    + specialize (IH m).
      destruct (map_channels (Some names) chs m) as [m' evs]. simpl in *.
      rewrite IH. destruct (decide (col = source_column ch)) as [->|Hc].
      * rewrite Ei.
        rewrite (decide_True (P := _ ∈ _ :: _)) by apply list_elem_of_here.
        by case_decide.
      * destruct (decide (col ∈ source_column <$> chs)) as [Hin|Hin].
        -- by rewrite decide_True by (by apply list_elem_of_further).
        -- rewrite decide_False; [done|].
           intros [?|?]%elem_of_cons; done.
Qed.

(** X9.  The channel mapping sends the source column of a configured channel
    to the first position of that column among the feature names, and to
    nothing else: a column is mapped exactly when some channel names it and
    it is a feature; without feature names nothing is mapped. *)
Theorem channel_mapping_is_first_index names chs col i :
  ((build_channel_mapping (Some names) chs).1 !! col = Some i <->
   col ∈ source_column <$> chs /\ names !! i = Some col /\
   forall j, (j < i)%nat -> names !! j <> Some col) /\
  ((build_channel_mapping (Some names) chs).1 !! col = None <->
   col ∉ source_column <$> chs \/ col ∉ names) /\
  (build_channel_mapping None chs).1 = ∅ /\
  (build_channel_mapping (Some []) chs).1 = ∅.
Proof.
  assert (Hempty : forall fn, fn = None \/ fn = Some [] ->
            forall m, (map_channels fn chs m).1 = m).
  { intros fn Hfn. induction chs as [|ch chs IH]; intros m; simpl; [done|].
    destruct Hfn as [-> | ->]; apply IH. }
  split; [|split; [|split]]; try (apply Hempty; auto).
  - unfold build_channel_mapping.
    destruct names as [|n0 names'] eqn:En.
    { rewrite (Hempty (Some [])) by auto. rewrite lookup_empty.
      split; [done|]. intros (_ & H & _). by rewrite lookup_nil in H. }
    rewrite <- En. rewrite map_channels_lookup by (by rewrite En).
    rewrite lookup_empty. case_decide as Hin.
    + destruct (index col names) as [i'|] eqn:Ei.
      * apply index_Some in Ei as [Hi Hfirst]. split.
        -- intros [= <-]. auto.
        -- intros (_ & Hi2 & Hfirst2). f_equal.
           destruct (Nat.lt_trichotomy i i') as [Hlt|[->|Hgt]]; [|done|].
           ++ by destruct (Hfirst i Hlt).
           ++ by destruct (Hfirst2 i' Hgt).
      * split; [done|]. intros (_ & Hi & _).
        apply index_None in Ei. exfalso. apply Ei.
        by apply list_elem_of_lookup_2 in Hi.
    + split; [done|]. by intros (? & _).
  - unfold build_channel_mapping.
    destruct names as [|n0 names'] eqn:En.
    { rewrite (Hempty (Some [])) by auto. rewrite lookup_empty.
      split; [|done]. intros _. right. apply not_elem_of_nil. }
    rewrite <- En. rewrite map_channels_lookup by (by rewrite En).
    rewrite lookup_empty. case_decide as Hin.
    + destruct (index col names) as [i'|] eqn:Ei.
      * split; [done|]. intros [?|Hn]; [done|].
        apply index_Some in Ei as [Hi _].
        exfalso. apply Hn. by apply list_elem_of_lookup_2 in Hi.
      * split; [|done]. intros _. right. by apply index_None.
    + split; [|done]. auto.
Qed.

Lemma channel_calls_cons client mapping den ch chs :
  channel_calls client mapping den (ch :: chs)
  = channel_calls client mapping den [ch]
    ++ channel_calls client mapping den chs.
Proof. apply (V3Theory.channel_calls_app client mapping den [ch] chs). Qed.

Lemma channel_calls_one client mapping den ch :
  channel_calls client mapping den [ch]
  = match mapping !! source_column ch with
    | Some i =>
        match den !! i with
        | Some raw =>
            [(osc_address ch, OFloat (apply_transform (transform ch) raw))]
        | None => []
        end
    | None => [(osc_address ch, OFloat 0)]
    end.
Proof.
  unfold channel_calls. simpl.
  destruct (mapping !! source_column ch) as [i|].
  - destruct (den !! i) as [raw|]; [|done].
    by destruct (send_ok client (osc_address ch) _).
  - by destruct (send_ok client (osc_address ch) _).
Qed.

Lemma mapped_index_is_a_feature names chs col i :
  (build_channel_mapping (Some names) chs).1 !! col = Some i ->
  names !! i = Some col.
Proof.
  unfold build_channel_mapping. destruct names as [|n0 names'] eqn:En.
  - assert (H : forall m, (map_channels (Some []) chs m).1 = m)
      by (induction chs as [|ch chs IH]; intros m; simpl; [done | apply IH]).
    by rewrite H, lookup_empty.
  - rewrite <- En. rewrite map_channels_lookup by (by rewrite En).
    rewrite lookup_empty. case_decide; [|done].
    destruct (index col names) as [i'|] eqn:Ei; [|done].
    intros [= <-]. by apply index_Some in Ei as [? _].
Qed.

(** X10.  When the mapping was built from the feature names and a
    denormalized frame has a value for every feature name, the frame sender
    invokes [send_message] exactly once for every configured channel, in the
    order of the configuration: no channel is skipped and none is sent
    twice. *)
Theorem every_channel_sent_once client names loaded den chs :
  (length names <= length den)%nat ->
  (channel_calls client (build_channel_mapping (Some names) loaded).1 den
     chs).*1
  = osc_address <$> chs.
Proof.
  intros Hlen. induction chs as [|ch chs IH]; [done|].
  rewrite channel_calls_cons, fmap_app, IH, fmap_cons. f_equal.
  rewrite channel_calls_one.
  destruct (_ !! source_column ch) as [i|] eqn:Ei; [|done].
  apply mapped_index_is_a_feature in Ei.
  destruct (lookup_lt_is_Some_2 den i) as [raw ->]; [|done].
  apply lookup_lt_Some in Ei. lia.
Qed.

Lemma every_channel_sent_once_witness :
  (channel_calls Examples.accept_all
     (build_channel_mapping (Some ["Neck_flexion"; "Pelvis_extension"])
        [Examples.neck; Examples.pelvis]).1
     [3; 4] [Examples.pelvis; Examples.neck]).*1
  = ["/bone/pelvis/pitch"; "/bone/neck_01/pitch"].
Proof.
  apply (every_channel_sent_once Examples.accept_all
           ["Neck_flexion"; "Pelvis_extension"]
           [Examples.neck; Examples.pelvis] [3; 4]
           [Examples.pelvis; Examples.neck]).
  simpl. lia.
Defined.

Lemma clamped_in_range (lo hi x : Q) :
  lo <= hi -> lo <= py_max lo (py_min hi x) <= hi.
Proof.
  intros H. unfold py_max, py_min.
  destruct (Qlt_le_dec x hi); destruct (Qlt_le_dec lo _); lra.
Qed.

(** X11.  Every value the channel loop hands to [send_message] belongs to
    a configured channel with that address: it is the fallback 0 of an
    unmapped channel, or the transformed value of the channel's feature,
    which lies inside the channel's clamp [[min, max]] whenever the channel
    has one with [min <= max]. *)
Theorem sent_values_respect_clamps client mapping den chs addr x :
  (addr, OFloat x) ∈ channel_calls client mapping den chs ->
  exists ch,
    ch ∈ chs /\ osc_address ch = addr /\
    match mapping !! source_column ch with
    | None => x = 0
    | Some i =>
        exists raw,
          den !! i = Some raw /\
          x = apply_transform (transform ch) raw /\
          forall lo hi, clamp (transform ch) = Some (lo, hi) ->
            lo <= hi -> lo <= x <= hi
    end.
Proof.
  induction chs as [|ch chs IH]; [by intros H; inversion H|].
  rewrite channel_calls_cons. intros [Hin|Hin]%elem_of_app.
  - exists ch. split; [apply list_elem_of_here|].
    rewrite channel_calls_one in Hin.
    destruct (mapping !! source_column ch) as [i|].
    + destruct (den !! i) as [raw|] eqn:Er; [|by inversion Hin].
      apply list_elem_of_singleton in Hin. injection Hin as -> ->.
      split; [done|]. exists raw. do 2 (split; [done|]).
      intros lo hi Hcl Hle. unfold apply_transform. rewrite Hcl.
      by apply clamped_in_range.
    + apply list_elem_of_singleton in Hin. by injection Hin as -> ->.
  - destruct (IH Hin) as (ch' & Hch' & Hrest).
    exists ch'. split; [by apply list_elem_of_further | done].
Qed.

Lemma sent_values_respect_clamps_witness :
  exists ch,
    ch ∈ [Examples.neck; Examples.pelvis] /\
    osc_address ch = "/bone/pelvis/pitch" /\
    match channel_mapping Examples.two_channels !! source_column ch with
    | None => 90 = 0
    | Some i =>
        exists raw,
          [1 * 2 + 10; 100 * 4 + 20] !! i = Some raw /\
          90 = apply_transform (transform ch) raw /\
          forall lo hi, clamp (transform ch) = Some (lo, hi) ->
            lo <= hi -> lo <= 90 <= hi
    end.
Proof.
  apply (sent_values_respect_clamps Examples.accept_all
           (channel_mapping Examples.two_channels)
           [1 * 2 + 10; 100 * 4 + 20] [Examples.neck; Examples.pelvis]
           "/bone/pelvis/pitch" 90).
  vm_compute. apply list_elem_of_further, list_elem_of_here.
Defined.

Lemma broadcast_mismatch f (a b : list Q) :
  length a <> length b -> length a <> 1%nat -> length b <> 1%nat ->
  np.broadcast f a b = None.
Proof.
  intros Hab Ha Hb. unfold np.broadcast.
  destruct (Nat.eqb_spec (length a) (length b)); [done|].
  destruct a as [|x [|x' a]]; destruct b as [|y [|y' b]]; simpl in *; done.
Qed.

(** X12.  A frame whose length fits neither the normalization parameters
    nor numpy's broadcasting is not streamed at all: no [send_message] is
    invoked, not even for the control messages; the error count grows by
    one and the count of sent messages and the time of the last send stay
    as they were. *)
Theorem mismatched_frame_sends_nothing env s client params v fc :
  osc_client s = Some client -> channels s <> [] ->
  normalization_params s = Some params ->
  length v <> length (std params) ->
  length v <> 1%nat -> length (std params) <> 1%nat ->
  calls (stream_frame env v fc s).2 = [] /\
  stats (stream_frame env v fc s).1
  = (osc_send_count s, (osc_error_count s + 1)%nat, last_send_time s).
Proof.
  intros Hc Hch Hp Hlen Hv Hs. unfold stream_frame. rewrite Hc, Hp.
  destruct (channels s) as [|ch chs]; [done|].
  unfold denormalize_data. by rewrite broadcast_mismatch.
Qed.

Lemma mismatched_frame_sends_nothing_witness :
  calls (stream_frame Examples.v3_env [1; 2; 3] 0 Examples.two_channels).2
    = [] /\
  stats (stream_frame Examples.v3_env [1; 2; 3] 0 Examples.two_channels).1
    = (0%nat, 1%nat, 0).
Proof.
  apply (mismatched_frame_sends_nothing Examples.v3_env Examples.two_channels
           Examples.accept_all Examples.params2 [1; 2; 3] 0);
    try reflexivity; simpl; discriminate.
Defined.

Lemma zip_with_Forall2 (f : Q -> Q -> Q) (R : Q -> Q -> Prop) a b c :
  length a = length b -> length a = length c ->
  (forall i x y z, a !! i = Some x -> b !! i = Some y -> c !! i = Some z ->
     R (f x y) z) ->
  Forall2 R (zip_with f a b) c.
Proof.
  revert b c. induction a as [|x a IH]; intros [|y b] [|z c] Hb Hc H;
    simpl in *; try done; try constructor.
  - by apply (H 0%nat).
  - apply IH; [lia|lia|]. intros i. apply (H (S i)).
Qed.

Lemma broadcast_same_length f (a b : list Q) :
  length a = length b -> np.broadcast f a b = Some (zip_with f a b).
Proof. intros H. unfold np.broadcast. by rewrite H, Nat.eqb_refl. Qed.

(** X13.  Denormalization undoes normalization: for a frame and parameters
    of one length, with no standard deviation equal to zero, normalizing
    the frame as the preprocessing does and denormalizing the result as the
    streamers do gives back the frame. *)
Theorem denormalize_undoes_normalize (x mean_vals std_vals : list Q) :
  length mean_vals = length x -> length std_vals = length x ->
  Forall (fun s => ~ s == 0) std_vals ->
  exists normalized restored,
    Preprocessing.normalize_data x mean_vals std_vals = Some normalized /\
    V2.denormalize_data (Some (mkNormalizationParams mean_vals std_vals))
      normalized = Some restored /\
    V3.denormalize_data (Some (mkNormalizationParams mean_vals std_vals))
      normalized = Some restored /\
    Forall2 Qeq restored x.
Proof.
  intros Hm Hs Hnz.
  set (normalized := zip_with Qdiv (zip_with Qminus x mean_vals) std_vals).
  assert (Hln : length normalized = length x)
    by (subst normalized; rewrite !length_zip_with; lia).
  exists normalized,
    (zip_with Qplus (zip_with Qmult normalized std_vals) mean_vals).
  unfold Preprocessing.normalize_data, V2.denormalize_data,
    V3.denormalize_data. cbn [std mean].
  rewrite (broadcast_same_length Qminus x mean_vals) by lia.
  cbn [mbind option_bind].
  rewrite (broadcast_same_length Qdiv _ std_vals)
    by (rewrite length_zip_with; lia).
  rewrite (broadcast_same_length Qmult normalized std_vals) by lia.
  cbn [mbind option_bind].
  rewrite (broadcast_same_length Qplus _ mean_vals)
    by (rewrite length_zip_with; lia).
  do 3 (split; [reflexivity|]). subst normalized.
  apply zip_with_Forall2.
  - rewrite !length_zip_with. lia.
  - rewrite !length_zip_with. lia.
  - intros i a m z Ha Hmi Hz.
    rewrite !lookup_zip_with in Ha.
    rewrite Hz, Hmi in Ha. simpl in Ha.
    destruct (std_vals !! i) as [s|] eqn:Es; [|done]. simpl in Ha.
    injection Ha as <-.
    assert (Hs0 : ~ s == 0)
      by (apply (proj1 (Forall_forall _ _) Hnz), (list_elem_of_lookup_2 _ i), Es).
    field. done.
Qed.

Lemma denormalize_undoes_normalize_witness :
  exists normalized restored,
    Preprocessing.normalize_data [12; 28] [10; 20] [2; 4] = Some normalized /\
    V2.denormalize_data (Some (mkNormalizationParams [10; 20] [2; 4]))
      normalized = Some restored /\
    V3.denormalize_data (Some (mkNormalizationParams [10; 20] [2; 4]))
      normalized = Some restored /\
    Forall2 Qeq restored [12; 28].
Proof.
  apply (denormalize_undoes_normalize [12; 28] [10; 20] [2; 4]);
    try reflexivity.
  repeat constructor; discriminate.
Defined.

End V3MoreTheory.

(** * Properties of [NLPCommandParser] ([v3/mh_streamer_v3.py]) *)

Module NLPCommandParserTheory.
Import py re NLPCommandParser.

Local Ltac by_cases_on c :=
  destruct c as [[] [] [] [] [] [] [] []]; vm_compute; try reflexivity;
  try discriminate.

Lemma lower_char_idemp c : lower_char (lower_char c) = lower_char c.
Proof. by_cases_on c. Qed.

Lemma isspace_lower_char c : isspace (lower_char c) = isspace c.
Proof. by_cases_on c. Qed.

Lemma isspace_not_word c : isspace c = true -> isword c = false.
Proof. by_cases_on c. Qed.

Lemma lower_idemp s : lower (lower s) = lower s.
Proof.
  induction s as [|c s IH]; simpl; [done|].
  by rewrite lower_char_idemp, IH.
Qed.

Lemma lower_empty s : lower s = EmptyString -> s = EmptyString.
Proof. by destruct s. Qed.

Lemma lstrip_lower s : lstrip (lower s) = lower (lstrip s).
Proof.
  induction s as [|c s IH]; simpl; [done|].
  rewrite isspace_lower_char. by destruct (isspace c).
Qed.

Lemma rstrip_lower s : rstrip (lower s) = lower (rstrip s).
Proof.
  induction s as [|c s IH]; simpl; [done|].
  rewrite IH, isspace_lower_char.
  destruct (rstrip s); simpl; [|done]. by destruct (isspace c).
Qed.

Lemma strip_lower s : strip (lower s) = lower (strip s).
Proof. unfold strip. by rewrite lstrip_lower, rstrip_lower. Qed.

Lemma lstrip_headed s : headed (lstrip s).
Proof.
  induction s as [|c s IH]; simpl; [done|].
  by destruct (isspace c) eqn:E.
Qed.

Lemma rstrip_idemp s : rstrip (rstrip s) = rstrip s.
Proof.
  induction s as [|c s IH]; simpl; [done|].
  destruct (rstrip s) as [|d kept] eqn:E.
  - destruct (isspace c) eqn:Ec; simpl; [done|]. by rewrite Ec.
  - change (rstrip (String c (String d kept)))
      with (match rstrip (String d kept) with
            | EmptyString =>
                if isspace c then EmptyString else String c EmptyString
            | kept' => String c kept'
            end).
    by rewrite IH.
Qed.

Lemma lstrip_rstrip s : headed s -> lstrip (rstrip s) = rstrip s.
Proof.
  destruct s as [|c s]; simpl; [done|]. intros Hc.
  destruct (rstrip s); rewrite ?Hc; simpl; by rewrite Hc.
Qed.

Lemma strip_idemp s : strip (strip s) = strip s.
Proof.
  unfold strip.
  by rewrite (lstrip_rstrip (lstrip s)), rstrip_idemp
    by apply lstrip_headed.
Qed.

Lemma first_match_known text action :
  first_match text = Some action -> action <> UNKNOWN.
Proof.
  unfold first_match. intros (cmd & E & ->)%fmap_Some.
  apply find_some in E as [Hin _].
  unfold commands in Hin.
  by destruct Hin as [<-|[<-|[<-|[<-|[<-|[]]]]]].
Qed.

(** Commands are matched as whole words, in any case, with any white space
    between the words; the first command of the table that matches wins. *)
Example parse_command_examples :
  parse_command "  Turn LEFT " = (TURN_LEFT, "turn left"%string, 1) /\
  parse_command "go l" = (TURN_LEFT, "go l"%string, 1) /\
  parse_command "turnleft" = (UNKNOWN, "turnleft"%string, 0) /\
  parse_command "sit down" = (POSE_SITTING, "sit down"%string, 1) /\
  parse_command "the end" = (STOP, "the end"%string, 1) /\
  parse_command "   " = (UNKNOWN, "   "%string, 0).
Proof. repeat split; vm_compute; reflexivity. Qed.

(** X14.  [parse_command] returns the text in the form it was matched in:
    parsing the returned text again gives the same triple.  The confidence
    is 1 exactly when the action is not [UNKNOWN], and 0 otherwise. *)
Theorem parse_command_normal_form text :
  ascii_text text = true ->
  parse_command (parse_command text).1.2 = parse_command text /\
  ((parse_command text).1.1 <> UNKNOWN /\ (parse_command text).2 = 1 \/
   (parse_command text).1.1 = UNKNOWN /\ (parse_command text).2 = 0).
Proof.
  intros _.
  destruct (decide (text = EmptyString \/ strip text = EmptyString))
    as [Hblank|Hblank].
  - assert (parse_command text = (UNKNOWN, text, 0)) as ->
      by (unfold parse_command; by rewrite decide_True).
    simpl. split; [|by right]. unfold parse_command.
    by rewrite decide_True.
  - set (text' := lower (strip text)).
    assert (Hstrip : strip text' = text').
    { unfold text'. by rewrite strip_lower, strip_idemp. }
    assert (Hne : text' <> EmptyString).
    { intros H%lower_empty. auto. }
    assert (Hparse : forall t, lower (strip t) = text' ->
              t <> EmptyString -> strip t <> EmptyString ->
              parse_command t =
              match first_match text' with
              | Some action => (action, text', 1)
              | None => (UNKNOWN, text', 0)
              end).
    { intros t Ht Ht1 Ht2. unfold parse_command. rewrite decide_False.
      - by rewrite Ht.
      - by intros [?|?]. }
    rewrite (Hparse text) by auto.
    assert (Hagain :
      parse_command text' =
      match first_match text' with
      | Some action => (action, text', 1)
      | None => (UNKNOWN, text', 0)
      end).
    { apply Hparse; [|done|by rewrite Hstrip].
      rewrite Hstrip. apply lower_idemp. }
    destruct (first_match text') as [action|] eqn:E; simpl.
    + split; [done|]. left. split; [|done]. by eapply first_match_known.
    + split; [done|]. by right.
Qed.

Lemma parse_command_normal_form_witness :
  parse_command "turn left" = parse_command "  Turn LEFT " /\
  (parse_command "  Turn LEFT ").1.1 = TURN_LEFT.
Proof.
  destruct (parse_command_normal_form "  Turn LEFT ") as [H _].
  - vm_compute. reflexivity.
  - split; [exact H|]. vm_compute. reflexivity.
Defined.

Lemma search_from_impl r1 r2 :
  (forall prev s, matches r1 prev s (fun _ _ => true) = true ->
                  matches r2 prev s (fun _ _ => true) = true) ->
  forall s prev, search_from r1 prev s = true -> search_from r2 prev s = true.
Proof.
  intros Himpl. induction s as [|c s IH]; intros prev; simpl.
  - rewrite !orb_false_r. apply Himpl.
  - intros [H|H]%orb_prop.
    + by rewrite (Himpl _ _ H).
    + by rewrite (IH _ H), orb_true_r.
Qed.

Lemma final_e_is_word c : lower_char c = lower_char "e" -> isword c = true.
Proof.
  destruct c as [[] [] [] [] [] [] [] []]; intros H; vm_compute in H;
    try discriminate; reflexivity.
Qed.

Lemma spaces_plus_not_word k s : spaces_plus k s = true -> word_at s = false.
Proof.
  destruct s as [|c s]; simpl; [done|].
  intros [Hc _]%andb_prop. by apply isspace_not_word.
Qed.

Lemma baseline_sitting_has_neutral_word prev s :
  matches baseline_sitting prev s (fun _ _ => true) = true ->
  matches neutral_word prev s (fun _ _ => true) = true.
Proof.
  unfold baseline_sitting, neutral_word, neutral_words, words, seq, alt.
  cbn [foldr fmap list_fmap phrase literal matches].
  intros [Hb H]%andb_prop. rewrite Hb. cbn [andb].
  repeat match type of H with
  | match ?t with EmptyString => _ | String _ _ => _ end = true =>
      destruct t; [discriminate|];
      apply andb_prop in H as [?%Ascii.eqb_eq H]
  end.
  apply orb_true_iff. right. apply orb_true_iff. left.
  match goal with
  | |- context [xorb (word_before (Some ?c)) (word_at ?t)] =>
      assert (Hw : isword c = true) by (by apply final_e_is_word);
      assert (Hs : word_at t = false)
        by (eapply spaces_plus_not_word; eassumption)
  end.
  repeat match goal with
  | Heq : lower_char _ = lower_char _ |- _ => rewrite Heq; clear Heq
  end.
  rewrite !Ascii.eqb_refl. cbn [andb word_before]. by rewrite Hw, Hs.
Qed.

Lemma found_implies_first text :
  search neutral_word text = true ->
  exists action : Action,
    first_match text = Some action /\
    action ∈ [TURN_LEFT; TURN_RIGHT; BASELINE].
Proof.
  intros H. unfold first_match, commands.
  cbn [find existsb fst snd].
  repeat match goal with
  | |- context [if ?b then _ else _] =>
      destruct b eqn:?; [eexists; split; [reflexivity|set_solver]|]
  end.
  exfalso.
  repeat match goal with
  | Hor : _ || _ = false |- _ => apply orb_false_elim in Hor as [? Hor]
  end.
  unfold neutral_word in H. congruence.
Qed.

(** X15.  The alternative [baseline\s+sitting] of the sitting pattern can
    never be the one that decides: a text in which it is found contains the
    word [baseline] between word boundaries, which the earlier
    [basic_position] command matches, so the action is a turn or
    [BASELINE], never [POSE_SITTING]. *)
Theorem baseline_sitting_is_never_a_sitting_command text :
  ascii_text text = true ->
  search baseline_sitting (lower (strip text)) = true ->
  (parse_command text).1.1 ∈ [TURN_LEFT; TURN_RIGHT; BASELINE].
Proof.
  intros _ Hfound. unfold parse_command.
  case_decide as Hblank.
  - exfalso. assert (strip text = EmptyString) as Hs.
    { destruct Hblank as [->|?]; [reflexivity|done]. }
    rewrite Hs in Hfound. vm_compute in Hfound. discriminate.
  - apply (search_from_impl _ _ baseline_sitting_has_neutral_word) in Hfound.
    apply found_implies_first in Hfound as (action & -> & Hin); done.
Qed.

Lemma baseline_sitting_is_never_a_sitting_command_witness :
  (parse_command "Baseline  sitting").1.1 ∈ [TURN_LEFT; TURN_RIGHT; BASELINE].
Proof.
  apply baseline_sitting_is_never_a_sitting_command;
    vm_compute; reflexivity.
Defined.

End NLPCommandParserTheory.

(** * Properties of the application ([v3/mh_streamer_v3.py]) *)

Module V3AppTheory.
Import V3 V3App Pose.

Lemma app_calls_app evs1 evs2 :
  V3App.calls (evs1 ++ evs2) = V3App.calls evs1 ++ V3App.calls evs2.
Proof.
  unfold V3App.calls. by rewrite omap_app, V3Theory.trace_calls_app.
Qed.

Lemma app_calls_streamer evs :
  V3App.calls (Streamer <$> evs) = V3.calls evs.
Proof.
  unfold V3App.calls. f_equal.
  induction evs as [|ev evs IH]; simpl; [done|]. f_equal. exact IH.
Qed.

Lemma to_nat_mod (k : Z) (n : nat) :
  (0 <= k)%Z -> n <> 0%nat ->
  Z.to_nat (k mod Z.of_nat n) = (Z.to_nat k mod n)%nat.
Proof.
  intros Hk Hn. rewrite <- (Z2Nat.id k) at 1 by done.
  by rewrite <- Nat2Z.inj_mod, Nat2Z.id.
Qed.

(** X16.  In real data mode the worker goes through the rows of the current
    sequence cyclically: the pass of frame [k] streams row [k mod len], the
    index never leaves the sequence, and the pass [len] frames later streams
    the same row again. *)
Theorem worker_cycles_through_sequence sin env d k a sequence :
  data_mode a <> "MOCK" ->
  current_sequence a = Some sequence ->
  sequence <> [] ->
  (0 <= k)%Z ->
  exists frame_data,
    sequence !! (Z.to_nat k mod length sequence)%nat = Some frame_data /\
    forall j : nat,
      let k' := (k + Z.of_nat j * Z.of_nat (length sequence))%Z in
      stream_worker_pass sin env d k' a
      = next_frame env d k'
          (set_core (stream_frame (clock env) frame_data k' (core a)).1 a)
          (Streamer <$> (stream_frame (clock env) frame_data k' (core a)).2).
Proof.
  intros Hmode Hseq Hne Hk.
  assert (Hlen : length sequence <> 0%nat) by (by destruct sequence).
  destruct (lookup_lt_is_Some_2 sequence (Z.to_nat k mod length sequence))
    as [frame_data Hrow]; [by apply Nat.mod_upper_bound|].
  exists frame_data. split; [done|]. intros j k'.
  unfold stream_worker_pass.
  rewrite decide_False, Hseq, decide_False by done.
  assert (Hidx : Z.to_nat (k' mod Z.of_nat (length sequence))
                 = (Z.to_nat k mod length sequence)%nat).
  { unfold k'. rewrite Z_mod_plus_full. by apply to_nat_mod. }
  cbv zeta. unfold Sequence in *. rewrite Hidx, Hrow.
  by destruct (stream_frame (clock env) frame_data k' (core a)).
Qed.

Lemma worker_cycles_through_sequence_witness :
  exists frame_data,
    [[7; 8]; [9; 10]] !! (Z.to_nat 3 mod 2)%nat = Some frame_data /\
    forall j : nat,
      let k' := (3 + Z.of_nat j * Z.of_nat 2)%Z in
      stream_worker_pass (fun _ => 0) MoreExamples.app_env 1 k'
        (MoreExamples.app MoreExamples.turning_left)
      = next_frame MoreExamples.app_env 1 k'
          (set_core
             (stream_frame (clock MoreExamples.app_env) frame_data k'
                MoreExamples.turning_left).1
             (MoreExamples.app MoreExamples.turning_left))
          (Streamer <$>
             (stream_frame (clock MoreExamples.app_env) frame_data k'
                MoreExamples.turning_left).2).
Proof.
  apply (worker_cycles_through_sequence (fun _ => 0) MoreExamples.app_env 1 3
           (MoreExamples.app MoreExamples.turning_left) [[7; 8]; [9; 10]]).
  - vm_compute. discriminate.
  - vm_compute. reflexivity.
  - discriminate.
  - lia.
Defined.

(** X17.  A mock frame sends one signal and then the two control messages.
    As long as the sine stays within [-1, 1], the signal of a turn is
    between 10 and 50 and the baseline signal between -5 and 5; the right
    forearm is addressed in a right turn only. *)
Theorem mock_frame_signal sin env k s client :
  (forall x, -1 <= sin x <= 1) ->
  osc_client s = Some client ->
  exists addr v,
    V3.calls (stream_mock_frame sin env k s).2
    = (addr, OFloat v)
      :: control_calls client k (current_mode s +:+ "_MOCK") /\
    (addr = "/mh/RightForeArm_roll" <-> current_mode s = "TURNING_RIGHT") /\
    (addr <> "/mh/RightForeArm_roll" -> addr = "/mh/LeftForeArm_roll") /\
    (if decide (current_mode s = "TURNING_LEFT" \/
                current_mode s = "TURNING_RIGHT")
     then 10 <= v <= 50 else -5 <= v <= 5).
Proof.
  intros Hsin Hclient. unfold stream_mock_frame. rewrite Hclient.
  destruct (mock_signal sin (current_mode s) k) as [addr v] eqn:Esig.
  exists addr, v. split.
  - unfold control_calls.
    destruct (send_control client k (current_mode s +:+ "_MOCK"))
      as [[evc okc] errc].
    destruct (send_ok client addr (OFloat v)); simpl;
      rewrite ?V3Theory.trace_calls_app; simpl;
      destruct (show_data s && _); simpl; by rewrite app_nil_r.
  - unfold mock_signal in Esig.
    pose proof (Hsin (inject_Z k * (1 # 10))) as H1.
    pose proof (Hsin (inject_Z k * (1 # 10) * (1 # 2))) as H2.
    repeat case_decide; simplify_eq; (split; [|split]);
      try (split; [done|intros; congruence]); try done;
      try (by intuition congruence); try lra.
Qed.

Lemma mock_frame_signal_witness :
  exists addr v,
    V3.calls (stream_mock_frame (fun _ => 1) Examples.v3_env 4
                MoreExamples.turning_left).2
    = (addr, OFloat v)
      :: control_calls Examples.accept_all 4 "TURNING_LEFT_MOCK" /\
    (addr = "/mh/RightForeArm_roll" <->
     current_mode MoreExamples.turning_left = "TURNING_RIGHT") /\
    (addr <> "/mh/RightForeArm_roll" -> addr = "/mh/LeftForeArm_roll") /\
    10 <= v <= 50.
Proof.
  apply (mock_frame_signal (fun _ => 1) Examples.v3_env 4
           MoreExamples.turning_left Examples.accept_all).
  - intros _. lra.
  - reflexivity.
Defined.


Lemma addresses_distinct_table : addresses_distinct COLUMN_TO_OSC = true.
Proof. vm_compute. reflexivity. Qed.

Local Opaque COLUMN_TO_OSC.

Lemma send_pose_calls client pose :
  V3.calls (send_pose client pose).1.1
  = until_raise client (pose_messages pose).
Proof.
  induction pose as [|[column_name value] pose IH]; [done|].
  unfold pose_messages. simpl.
  destruct (getitem COLUMN_TO_OSC column_name) as [bone|]; simpl; [|done].
  destruct (send_ok client (bone_address bone) (OFloat value)); [|done].
  destruct (send_pose client pose) as [[evs n] completed]. simpl in *.
  by rewrite IH.
Qed.

(** X18.  With a pose loaded, a client, and a pose command that was
    delivered, [trigger_sitting_pose] sends the bone messages of the pose in
    order and gives up at the first send that raises: what it invokes is
    the list of bone messages up to and including that one.  Columns that
    [COLUMN_TO_OSC] does not know are skipped. *)
Theorem sitting_pose_stops_at_first_failure env a client pose :
  baseline_sitting_pose a = Some pose ->
  osc_client (core a) = Some client ->
  pose_command_ok env = true ->
  V3App.calls (trigger_sitting_pose env a)
  = until_raise client (pose_messages pose).
Proof.
  intros Hpose Hclient Hok. unfold trigger_sitting_pose.
  rewrite Hpose, Hclient, Hok.
  pose proof (send_pose_calls client pose) as Hcalls.
  destruct (send_pose client pose) as [[evs n] completed]. simpl in Hcalls.
  rewrite !app_calls_app, app_calls_streamer, Hcalls.
  destruct completed; simpl; by rewrite app_nil_r.
Qed.

Lemma sitting_pose_stops_at_first_failure_witness :
  V3App.calls
    (trigger_sitting_pose MoreExamples.app_env
       (MoreExamples.app MoreExamples.stopped))
  = [("/bone/pelvis/pitch", OFloat 1); ("/bone/neck_01/pitch", OFloat 2)].
Proof.
  apply (sitting_pose_stops_at_first_failure MoreExamples.app_env
           (MoreExamples.app MoreExamples.stopped)
           MoreExamples.no_neck MoreExamples.sitting);
    reflexivity.
Defined.

Lemma getitem_In {V} (table : list (string * V)) column_name value :
  getitem table column_name = Some value -> In (column_name, value) table.
Proof.
  induction table as [|[key v] table IH]; simpl; [done|].
  case_decide as Hkey; [|auto]. intros [= ->]. left. by rewrite Hkey.
Qed.

Lemma bone_address_injective column1 column2 bone1 bone2 :
  getitem COLUMN_TO_OSC column1 = Some bone1 ->
  getitem COLUMN_TO_OSC column2 = Some bone2 ->
  bone_address bone1 = bone_address bone2 ->
  column1 = column2.
Proof.
  intros H1%getitem_In H2%getitem_In Haddr.
  pose proof addresses_distinct_table as Hall.
  unfold addresses_distinct in Hall.
  rewrite forallb_forall in Hall. specialize (Hall _ H1).
  rewrite forallb_forall in Hall. specialize (Hall _ H2).
  cbn [fst snd] in Hall.
  rewrite Haddr, String.eqb_refl in Hall. cbn [negb orb] in Hall.
  by apply String.eqb_eq.
Qed.

Lemma pose_messages_address pose addr :
  addr ∈ (pose_messages pose).*1 ->
  exists column_name bone,
    column_name ∈ pose.*1 /\
    getitem COLUMN_TO_OSC column_name = Some bone /\
    addr = bone_address bone.
Proof.
  induction pose as [|[column_name value] pose IH]; simpl.
  - by intros ?%elem_of_nil.
  - unfold pose_messages. simpl.
    destruct (getitem COLUMN_TO_OSC column_name) as [bone|] eqn:E; simpl.
    + intros [->|Hin]%elem_of_cons.
      * exists column_name, bone. split; [apply list_elem_of_here|done].
      * destruct (IH Hin) as (c & b & ? & ? & ?).
        exists c, b. split; [by apply list_elem_of_further|done].
    + intros Hin. destruct (IH Hin) as (c & b & ? & ? & ?).
      exists c, b. split; [by apply list_elem_of_further|done].
Qed.

Lemma pose_messages_NoDup pose :
  NoDup pose.*1 -> NoDup (pose_messages pose).*1.
Proof.
  induction pose as [|[column_name value] pose IH]; simpl.
  - intros _. apply NoDup_nil_2.
  - intros [Hnotin Hrest]%NoDup_cons. unfold pose_messages. simpl.
    destruct (getitem COLUMN_TO_OSC column_name) as [bone|] eqn:E; simpl;
      [|by apply IH].
    apply NoDup_cons. split; [|by apply IH].
    intros (c & b & Hc & Hb & Haddr)%pose_messages_address.
    by rewrite (bone_address_injective _ _ _ _ E Hb Haddr) in Hnotin.
Qed.

Lemma until_raise_sublist client messages :
  sublist (until_raise client messages) messages.
Proof.
  induction messages as [|m messages IH]; simpl; [done|].
  destruct (send_ok client m.1 m.2).
  - by apply sublist_skip.
  - apply sublist_skip, sublist_nil_l.
Qed.

Lemma trigger_sitting_pose_sublist env a pose :
  baseline_sitting_pose a = Some pose ->
  sublist (V3App.calls (trigger_sitting_pose env a)) (pose_messages pose).
Proof.
  intros Hpose. unfold trigger_sitting_pose. rewrite Hpose.
  destruct (osc_client (core a)) as [client|]; [|apply sublist_nil_l].
  destruct (pose_command_ok env); [|apply sublist_nil_l].
  pose proof (send_pose_calls client pose) as Hcalls.
  destruct (send_pose client pose) as [[evs n] completed]. simpl in Hcalls.
  rewrite !app_calls_app, app_calls_streamer, Hcalls.
  destruct completed; simpl; rewrite app_nil_r; apply until_raise_sublist.
Qed.

(** X19.  A sitting pose never writes a bone axis twice: the columns of
    [COLUMN_TO_OSC] go to pairwise different addresses, so when the columns
    of the pose are distinct (as the keys of a dictionary are), no two
    [send_message] invocations of [trigger_sitting_pose] share an
    address. *)
Theorem sitting_pose_addresses_distinct env a pose :
  baseline_sitting_pose a = Some pose ->
  NoDup pose.*1 ->
  NoDup (V3App.calls (trigger_sitting_pose env a)).*1.
Proof.
  intros Hpose Hnodup.
  apply (sublist_NoDup _ (pose_messages pose).*1).
  - by apply pose_messages_NoDup.
  - by apply fmap_sublist, trigger_sitting_pose_sublist.
Qed.

Lemma sitting_pose_addresses_distinct_witness :
  NoDup (V3App.calls
           (trigger_sitting_pose MoreExamples.app_env
              (MoreExamples.app MoreExamples.turning_left))).*1.
Proof.
  apply (sitting_pose_addresses_distinct MoreExamples.app_env
           (MoreExamples.app MoreExamples.turning_left) MoreExamples.sitting).
  - reflexivity.
  - simpl. compute_done.
Defined.


Lemma on_core_calls r a :
  V3App.calls (on_core r a).2 = V3.calls r.2.
Proof. apply app_calls_streamer. Qed.

(** X20.  No text command starts a stopped streamer or changes what it
    would stream: whatever the text, [process_text_command] on a streamer
    that is not streaming leaves it not streaming, with its mode, its turn
    sequences and its statistics as they were; and the only command that
    still sends anything is the sitting pose. *)
Theorem stopped_streamer_ignores_text env text a :
  py.ascii_text text = true ->
  is_streaming (core a) = false ->
  let r := process_text_command env text a in
  is_streaming (core r.1) = false /\
  current_mode (core r.1) = current_mode (core a) /\
  left_turn_sequence (core r.1) = left_turn_sequence (core a) /\
  right_turn_sequence (core r.1) = right_turn_sequence (core a) /\
  stats (core r.1) = stats (core a) /\
  (V3App.calls r.2 <> [] ->
   (NLPCommandParser.parse_command text).1.1 = NLPCommandParser.POSE_SITTING).
Proof.
  intros _ Hstopped. unfold process_text_command.
  destruct (NLPCommandParser.parse_command text) as [[action t] c].
  destruct action; simpl;
    unfold start_left_turn, start_right_turn, return_to_baseline;
    rewrite ?Hstopped; simpl; repeat split; try done.
Qed.

Lemma stopped_streamer_ignores_text_witness :
  let r := process_text_command MoreExamples.app_env "Turn left, please"
             (MoreExamples.app MoreExamples.stopped) in
  is_streaming (core r.1) = false /\
  current_mode (core r.1) = "BASELINE" /\
  left_turn_sequence (core r.1) = None /\
  right_turn_sequence (core r.1) = None /\
  stats (core r.1) = (0%nat, 0%nat, 0) /\
  (V3App.calls r.2 <> [] ->
   (NLPCommandParser.parse_command "Turn left, please").1.1
   = NLPCommandParser.POSE_SITTING).
Proof.
  apply (stopped_streamer_ignores_text MoreExamples.app_env
           "Turn left, please" (MoreExamples.app MoreExamples.stopped));
    vm_compute; reflexivity.
Defined.

(** X21.  Stopping and starting again resumes what was streamed before:
    pressing the streaming button twice on a running streamer stops it and
    starts it, and neither touches the mode or the turn sequences.  After a
    restart during a turn the worker therefore goes on with the turn
    sequence and the turn mode, while the status line reads
    [Streaming Baseline...]. *)
Theorem restart_resumes_the_turn a :
  is_streaming (core a) = true ->
  is_Some (baseline_sequence a) ->
  is_Some (osc_client (core a)) ->
  let a' := (toggle_streaming (toggle_streaming a).1).1 in
  is_streaming (core a') = true /\
  stop_event a' = false /\
  status_label (core a') = "Streaming Baseline..." /\
  current_mode (core a') = current_mode (core a) /\
  current_sequence a' = current_sequence a /\
  data_mode a' = data_mode a.
Proof.
  intros Hstreaming [sequence Hseq] [client Hclient].
  unfold toggle_streaming at 2. rewrite Hstreaming. simpl.
  unfold toggle_streaming, start_streaming. simpl.
  rewrite Hseq, Hclient. simpl. repeat split; try done.
  unfold current_sequence. simpl. by rewrite Hseq.
Qed.

Lemma restart_resumes_the_turn_witness :
  let a' := (toggle_streaming
               (toggle_streaming
                  (MoreExamples.app MoreExamples.turning_left)).1).1 in
  status_label (core a') = "Streaming Baseline..." /\
  current_mode (core a') = "TURNING_LEFT" /\
  current_sequence a' = Some [[7; 8]; [9; 10]].
Proof.
  destruct (restart_resumes_the_turn
              (MoreExamples.app MoreExamples.turning_left))
    as (_ & _ & Hlabel & Hmode & Hsequence & _).
  - reflexivity.
  - by eexists.
  - by eexists.
  - split; [exact Hlabel|]. split; [exact Hmode|]. exact Hsequence.
Defined.

Lemma ended_worker_stays_ended sin envs a :
  stream_worker sin envs Ended a = (a, [], Ended).
Proof.
  induction envs as [|env envs IH]; simpl; [done|]. by rewrite IH.
Qed.

(** X22.  A worker thread ends without sending anything in two cases,
    however long it is run: when the frame-rate entry is no integer or is
    zero, although [start_streaming] has reported the start; and when it
    finds the stop event set, as [stop_streaming] leaves it. *)
Theorem worker_ends_without_sending sin env envs a :
  (fps_var a = None \/ fps_var a = Some 0%Z ->
   V3App.calls (stream_worker sin (env :: envs) Starting a).1.2 = [] /\
   (stream_worker sin (env :: envs) Starting a).1.1 = a /\
   (stream_worker sin (env :: envs) Starting a).2 = Ended) /\
  (forall d k,
     let stopped := (stop_streaming a).1 in
     stream_worker sin (env :: envs) (Looping d k) stopped
     = (stopped, [], Ended)).
Proof.
  split.
  - intros [Hfps|Hfps]; simpl; rewrite Hfps; simpl;
      by rewrite ended_worker_stays_ended.
  - intros d k stopped. simpl. by rewrite ended_worker_stays_ended.
Qed.


Lemma worker_ends_without_sending_witness :
  (stream_worker (fun _ => 0)
     [MoreExamples.app_env; MoreExamples.app_env] Starting
     (MoreExamples.app_without_rate MoreExamples.turning_left)).2 = Ended /\
  stream_worker (fun _ => 0) [MoreExamples.app_env; MoreExamples.app_env]
    (Looping 1 5)
    (stop_streaming (MoreExamples.app MoreExamples.turning_left)).1
  = ((stop_streaming (MoreExamples.app MoreExamples.turning_left)).1, [],
     Ended).
Proof.
  destruct (worker_ends_without_sending (fun _ => 0) MoreExamples.app_env
              [MoreExamples.app_env]
              (MoreExamples.app_without_rate MoreExamples.turning_left))
    as [Hrate _].
  destruct (worker_ends_without_sending (fun _ => 0) MoreExamples.app_env
              [MoreExamples.app_env]
              (MoreExamples.app MoreExamples.turning_left))
    as [_ Hstop].
  split.
  - apply Hrate. left. reflexivity.
  - apply Hstop.
Defined.

(** X23.  The four quick-action buttons do what their labels say, in every
    state: their texts are recognised by the parser as the left turn, the
    right turn, the return to baseline and the sitting pose, so each button
    logs the command and runs exactly that handler. *)
Theorem quick_buttons_act_as_labelled env a :
  left_button env a
  = ((on_core (start_left_turn (clock env) (core a)) a).1,
     Streamer (Log "Command")
       :: (on_core (start_left_turn (clock env) (core a)) a).2) /\
  right_button env a
  = ((on_core (start_right_turn (clock env) (core a)) a).1,
     Streamer (Log "Command")
       :: (on_core (start_right_turn (clock env) (core a)) a).2) /\
  baseline_button env a
  = ((on_core (return_to_baseline (core a)) a).1,
     Streamer (Log "Command")
       :: (on_core (return_to_baseline (core a)) a).2) /\
  sit_button env a
  = (a, Streamer (Log "Command") :: trigger_sitting_pose env a).
Proof.
  unfold left_button, right_button, baseline_button, sit_button,
    process_text_command.
  assert (NLPCommandParser.parse_command "turn left"
          = (NLPCommandParser.TURN_LEFT, "turn left"%string, 1)) as ->
    by (vm_compute; reflexivity).
  assert (NLPCommandParser.parse_command "turn right"
          = (NLPCommandParser.TURN_RIGHT, "turn right"%string, 1)) as ->
    by (vm_compute; reflexivity).
  assert (NLPCommandParser.parse_command "basic position"
          = (NLPCommandParser.BASELINE, "basic position"%string, 1)) as ->
    by (vm_compute; reflexivity).
  assert (NLPCommandParser.parse_command "sit"
          = (NLPCommandParser.POSE_SITTING, "sit"%string, 1)) as ->
    by (vm_compute; reflexivity).
  done.
Qed.

(** X24.  In mock data mode the worker does not look at the sequences: after
    [set_mock_data_mode] every pass makes the calls of a mock frame and the
    thread goes on to the next frame.  In real data mode a current sequence
    without rows ends the thread at its first pass with a division by zero,
    and nothing is sent. *)
Theorem mock_mode_needs_no_sequence sin env d k a :
  (let a1 := (set_mock_data_mode a).1 in
   V3App.calls (stream_worker_pass sin env d k a1).1.2
   = V3.calls (stream_mock_frame sin (clock env) k (core a)).2 /\
   (stream_worker_pass sin env d k a1).2 = Looping d (k + 1)) /\
  (current_sequence a = Some [] ->
   let a2 := (set_real_data_mode a).1 in
   stream_worker_pass sin env d k a2
   = (a2, [Streamer (Uncaught "ZeroDivisionError")], Ended)).
Proof.
  split.
  - unfold stream_worker_pass, set_mock_data_mode. simpl.
    destruct (stream_mock_frame sin (clock env) k (core a)) as [s evs].
    unfold next_frame. simpl. split; [|done].
    by rewrite app_calls_app, app_calls_streamer, app_nil_r.
  - intros Hseq. unfold stream_worker_pass, set_real_data_mode. simpl.
    assert (current_sequence
              (set_data_mode "REAL" "Mode: REAL (ML Models)" a)
            = Some []) as -> by exact Hseq.
    done.
Qed.


Lemma mock_mode_needs_no_sequence_witness :
  stream_worker_pass (fun _ => 0) MoreExamples.app_env 1 0
    (set_real_data_mode
       (MoreExamples.app_without_frames MoreExamples.stopped)).1
  = ((set_real_data_mode
        (MoreExamples.app_without_frames MoreExamples.stopped)).1,
     [Streamer (Uncaught "ZeroDivisionError")], Ended).
Proof.
  apply (mock_mode_needs_no_sequence (fun _ => 0) MoreExamples.app_env 1 0
           (MoreExamples.app_without_frames MoreExamples.stopped)).
  reflexivity.
Defined.

End V3AppTheory.
